(** * InvoFlow: invoice lifecycle, payment reconciliation and the
      heuristic insights module, embedded from the route handlers and
      [lib/mock-ai.ts].

    The handlers are TypeScript functions over a Prisma store.  They are
    embedded as pure functions that take the store and return the new
    store together with the HTTP response.  Money is a JavaScript
    [number]: the operations the handlers use on numbers are gathered in
    the class [Arith], whose instance [Binary64] is IEEE 754 binary64,
    the arithmetic the program runs on.  What is proved for every
    [Arith] holds of it; the worked examples compute in it.

    Conventions.
    - A handler is entered after its session check: [uid] is the id of
      the session user (the public payment page takes none).
    - A request body is typed: a number is a [num], an optional field
      is an [option], and a date string is a [DateString]: the date it
      denotes, or [noDate] when it denotes none.
    - The store is a Prisma client over a relational database.  Its
      source is not part of the repository; what is taken from it is
      written where it is used: the order of rows, the keys it draws,
      and the writes it refuses.
    - A handler reads the clock once; [now] is that reading.
    - A table is the list of its rows in creation order.
    - Strings are ASCII text. *)

From Stdlib Require Import ZArith QArith Qabs List String Ascii Bool Lia.
From Stdlib Require Import Sorted Permutation.
From Stdlib Require Floats.
Import ListNotations.

Open Scope string_scope.
Open Scope Z_scope.

(** ** Numbers *)

(** The operations the handlers use on [number] values.  [toZ] reads back
    a number that holds an integer (a point score); [round] is
    [Math.round]; [isFinite] is [Number.isFinite]. *)
Class Arith : Type := {
  num : Type;
  ofZ : Z -> num;
  nan : num;
  nadd : num -> num -> num;
  nsub : num -> num -> num;
  nmul : num -> num -> num;
  ndiv : num -> num -> num;
  nltb : num -> num -> bool;
  nleb : num -> num -> bool;
  neqb : num -> num -> bool;
  nabs : num -> num;
  round : num -> num;
  isNaN : num -> bool;
  isFinite : num -> bool;
  toZ : num -> Z
}.

Declare Scope num_scope.
Delimit Scope num_scope with num.
Infix "+" := nadd : num_scope.
Infix "-" := nsub : num_scope.
Infix "*" := nmul : num_scope.
Infix "/" := ndiv : num_scope.
Infix "<?" := nltb : num_scope.
Infix "<=?" := nleb : num_scope.
Infix "=?" := neqb : num_scope.
Notation "x >? y" := (nltb y x) (at level 70, no associativity) : num_scope.
Notation "x >=? y" := (nleb y x) (at level 70, no associativity) : num_scope.

(** [Math.max] of two numbers: NaN as soon as one argument is. *)
Definition mathMax {A : Arith} (a b : num) : num :=
  if isNaN a || isNaN b then nan
  else if (a <? b)%num then b else a.

(** A decimal literal [m / 10^k], such as [0.01]: the division of two
    integers rounds once, like the literal does. *)
Definition dec {A : Arith} (m : Z) (k : Z) : num := (ofZ m / ofZ (10 ^ k))%num.

(** *** IEEE 754 binary64 *)

Module F64.
Import Floats.

(** The float of an integer: exact below 2^53 and correctly rounded
    below 2^63, which covers every integer the program turns into a
    number (its literals, the lengths of its lists, differences of
    dates). *)
Definition of_Z (z : Z) : float :=
  match z with
  | Z0 => zero
  | Zpos _ => of_uint63 (Uint63Axioms.of_Z z)
  | Zneg p => opp (of_uint63 (Uint63Axioms.of_Z (Zpos p)))
  end.

Definition two52 : float := Eval compute in Z.ldexp one 52.
Definition half : float := Eval compute in div one (add one one).

(** [Math.floor]: below 2^52 in magnitude, adding and removing 2^52
    rounds to an integer, which is then at most one too high; from 2^52
    on every float is an integer. *)
Definition floor (x : float) : float :=
  if ltb (abs x) two52 then
    let r := if leb zero x then sub (add x two52) two52
             else add (sub x two52) two52 in
    if ltb x r then sub r one else r
  else x.

(** [Math.round]: the nearest integer, a tie going towards +infinity;
    the sign of a zero result is the sign of the argument. *)
Definition round (x : float) : float :=
  if ltb (abs x) two52 then
    let f := floor x in
    let r := if leb half (sub x f) then add f one else f in
    if eqb r zero then (if get_sign x then neg_zero else zero) else r
  else x.

(** The integer a float below 2^52 holds (truncated; 0 elsewhere). *)
Definition to_Z (x : float) : Z :=
  if ltb (abs x) two52 then
    let (m, e) := Z.frexp (floor (abs x)) in
    let mant := Uint63Axioms.to_Z (normfr_mantissa m) in
    let a := if 0 <=? e - prec then mant * 2 ^ (e - prec)
             else mant / 2 ^ (prec - e) in
    if ltb x zero then - a else a
  else 0.

(** The rational a finite float is worth (0 for NaN and the
    infinities). *)
Definition to_Q (x : float) : Q :=
  match Prim2SF x with
  | S754_finite s m e =>
      let v := if 0 <=? e then inject_Z (Zpos m * 2 ^ e)
               else Qmake (Zpos m) (Z.to_pos (2 ^ (- e))) in
      if s then Qopp v else v
  | _ => inject_Z 0
  end.
End F64.

#[export] Instance Binary64 : Arith := {|
  num := PrimFloat.float;
  ofZ := F64.of_Z;
  nan := PrimFloat.nan;
  nadd := PrimFloat.add;
  nsub := PrimFloat.sub;
  nmul := PrimFloat.mul;
  ndiv := PrimFloat.div;
  nltb := PrimFloat.ltb;
  nleb := PrimFloat.leb;
  neqb := PrimFloat.eqb;
  nabs := PrimFloat.abs;
  round := F64.round;
  isNaN := PrimFloat.is_nan;
  isFinite := PrimFloat.is_finite;
  toZ := F64.to_Z
|}.

(** ** Strings *)

Definition isUpper (c : ascii) : bool :=
  let n := nat_of_ascii c in (65 <=? n)%nat && (n <=? 90)%nat.

Definition lowerChar (c : ascii) : ascii :=
  if isUpper c then ascii_of_nat (nat_of_ascii c + 32) else c.

(** [String.prototype.toLowerCase], on ASCII text. *)
Fixpoint toLowerCase (s : string) : string :=
  match s with
  | EmptyString => EmptyString
  | String c s' => String (lowerChar c) (toLowerCase s')
  end.

(** The white space [trim] strips: tab, line feed, vertical tab, form
    feed, carriage return and space. *)
Definition isSpace (c : ascii) : bool :=
  let n := nat_of_ascii c in ((9 <=? n)%nat && (n <=? 13)%nat) || (n =? 32)%nat.

Fixpoint trimStart (s : string) : string :=
  match s with
  | String c s' => if isSpace c then trimStart s' else s
  | EmptyString => EmptyString
  end.

Fixpoint trimEnd (s : string) : string :=
  match s with
  | EmptyString => EmptyString
  | String c s' =>
      match trimEnd s' with
      | EmptyString => if isSpace c then EmptyString else String c EmptyString
      | t => String c t
      end
  end.

Definition trim (s : string) : string := trimEnd (trimStart s).

(** [s.includes(sub)]. *)
Fixpoint includes (s sub : string) : bool :=
  String.prefix sub s ||
  match s with
  | EmptyString => false
  | String _ s' => includes s' sub
  end.

(** [s.split(" ")]: consecutive separators give empty words. *)
Fixpoint splitSpace (s : string) : list string :=
  match s with
  | EmptyString => [EmptyString]
  | String c s' =>
      if Ascii.eqb c " "%char then EmptyString :: splitSpace s'
      else match splitSpace s' with
           | w :: ws => String c w :: ws
           | [] => [String c EmptyString]
           end
  end.

(** ** Data model *)

(** Row keys are opaque strings drawn by the store ([cuid()]); only
    their equality is ever used, so they are numbers here.  Dates are
    epoch milliseconds. *)
Definition Id := N.
Definition Date := Z.

(** A date as a request body carries it: a string, which the handlers
    read with [new Date(s)].  What the program goes by is the date the
    string denotes, or that it denotes none: [new Date(s)] is then the
    Invalid Date. *)
Inductive DateString := dateOf (d : Date) | noDate.

Inductive InvoiceStatus := draft | sent | paid | overdue | cancelled.

Definition status_eqb (a b : InvoiceStatus) : bool :=
  match a, b with
  | draft, draft | sent, sent | paid, paid
  | overdue, overdue | cancelled, cancelled => true
  | _, _ => false
  end.

Inductive Response (T : Type) :=
| Ok (code : Z) (body : T)
| Error (code : Z) (message : string).
Arguments Ok {T} code body.
Arguments Error {T} code message.

Definition notFound {T} (message : string) : Response T := Error 404 message.
Definition badRequest {T} (message : string) : Response T := Error 400 message.

Definition isOk {T} (r : Response T) : bool :=
  match r with Ok _ _ => true | Error _ _ => false end.

Definition msPerDay : Z := 1000 * 60 * 60 * 24.

(** [d.setDate(d.getDate() + n)], in a zone whose days all last 24 hours
    (a server clock on UTC). *)
Definition addDays (d : Date) (n : Z) : Date := d + n * msPerDay.

(** The rows, request bodies and answers, over the type [num] of the
    numbers they hold. *)
Module Row.
Section Rows.
Variable num : Type.
Set Implicit Arguments.
Set Maximal Implicit Insertion.

(** *** Tables *)

Record User := {
  user_id : Id;
  invoiceCounter : Z
}.

Record Client := {
  client_id : Id;
  client_userId : Id;
  client_name : string;
  client_email : string
}.

Record InvoiceItem := {
  item_id : Id;
  invoiceId : Id;
  description : string;
  quantity : num;
  rate : num;
  amount : num
}.

Record Invoice := {
  inv_id : Id;
  number : string;
  status : InvoiceStatus;
  issueDate : Date;
  dueDate : Date;
  subtotal : num;
  taxRate : num;
  tax : num;
  total : num;
  notes : option string;
  terms : option string;
  currency : string;
  clientId : Id;
  userId : Id;
  reminderCount : Z;
  lastRemindedAt : option Date;
  paymentLink : option string
}.

Record Payment := {
  pay_id : Id;
  pay_invoiceId : Id;
  pay_amount : num;
  method : string;
  gateway : string;
  gatewayPaymentId : option string;
  reference : option string;
  pay_status : string;
  paidAt : Date
}.

(** The tables, each in creation order (oldest row first): [createdAt]
    is set by the store on insertion and never written again, so
    [orderBy: { createdAt: "desc" }] is the reversed table. *)
Record Store := {
  users : list User;
  clients : list Client;
  invoices : list Invoice;
  items : list InvoiceItem;
  payments : list Payment
}.

(** *** Writes and request bodies *)

(** The columns an [invoice.update] may write; [None] leaves the column
    alone.  The two dates are what [new Date(s)] made of the request. *)
Record InvoicePatch := {
  p_clientId : option Id;
  p_issueDate : option DateString;
  p_dueDate : option DateString;
  p_notes : option (option string);
  p_terms : option (option string);
  p_currency : option string;
  p_status : option InvoiceStatus;
  p_subtotal : option num;
  p_tax : option num;
  p_taxRate : option num;
  p_total : option num;
  p_reminderCount : option Z;
  p_lastRemindedAt : option Date;
  p_paymentLink : option string
}.

(** A line as a request carries it. *)
Record ItemInput := {
  in_description : string;
  in_quantity : num;
  in_rate : num
}.

(** A line with its amount, ready for [items: { create: ... }]. *)
Record ItemData := {
  d_description : string;
  d_quantity : num;
  d_rate : num;
  d_amount : num
}.

Record CreateInvoiceInput := {
  c_clientId : Id;
  c_issueDate : DateString;
  c_dueDate : DateString;
  c_notes : option string;
  c_terms : option string;
  c_currency : option string;
  c_taxRate : option num;
  c_status : option InvoiceStatus;
  c_items : list ItemInput
}.

Record UpdateInvoiceInput := {
  u_clientId : option Id;
  u_issueDate : option DateString;
  u_dueDate : option DateString;
  u_notes : option (option string);
  u_terms : option (option string);
  u_currency : option string;
  u_taxRate : option num;
  u_status : option InvoiceStatus;
  u_items : option (list ItemInput)
}.

Record PaymentInput := {
  pi_amount : num;
  pi_method : string;
  pi_reference : option string;
  pi_paidAt : option DateString
}.

Record PayInput := {
  pay_method : option string;
  payerEmail : option string;
  payerName : option string
}.

(** *** Answers of the insights module *)

Record LineItemSuggestion := {
  s_description : string;
  s_quantity : num;
  s_rate : num;
  frequency : Z;
  confidence : Z
}.

(** A value of [itemMap]; the user-wide [globalMap] keeps no quantities. *)
Record Entry := {
  e_description : string;
  rates : list num;
  quantities : list num;
  count : Z
}.

(** A plain object used as a map, as the list of its own properties in
    insertion order. *)
Definition ObjectMap := list (string * Entry).

(** An entry of [similarInvoices]; [sim_date] is the issue date itself,
    which the program prints as its ISO day. *)
Record SimilarInvoice := {
  sim_id : Id;
  sim_number : string;
  sim_total : num;
  sim_date : Date;
  similarity : Z
}.

(** The three sentences of [reason], with the values they quote. *)
Inductive Reason :=
| HighSimilarity (best : SimilarInvoice)
| FoundSimilar (n : nat) (highest : Z)
| NoSimilar.

Record DuplicateCheck := {
  isDuplicate : bool;
  dc_confidence : num;
  similarInvoices : list SimilarInvoice;
  reason : Reason
}.

End Rows.
Unset Maximal Implicit Insertion.
Unset Implicit Arguments.
Arguments FoundSimilar {num} n highest.
Arguments NoSimilar {num}.
End Row.
Export Row.

Abbreviation InvoiceItem := (Row.InvoiceItem num).
Abbreviation Invoice := (Row.Invoice num).
Abbreviation Payment := (Row.Payment num).
Abbreviation Store := (Row.Store num).
Abbreviation InvoicePatch := (Row.InvoicePatch num).
Abbreviation ItemInput := (Row.ItemInput num).
Abbreviation ItemData := (Row.ItemData num).
Abbreviation CreateInvoiceInput := (Row.CreateInvoiceInput num).
Abbreviation UpdateInvoiceInput := (Row.UpdateInvoiceInput num).
Abbreviation PaymentInput := (Row.PaymentInput num).
Abbreviation LineItemSuggestion := (Row.LineItemSuggestion num).
Abbreviation Entry := (Row.Entry num).
Abbreviation ObjectMap := (Row.ObjectMap num).
Abbreviation SimilarInvoice := (Row.SimilarInvoice num).
Abbreviation Reason := (Row.Reason num).
Abbreviation DuplicateCheck := (Row.DuplicateCheck num).

Section Model.
Context {A : Arith}.
Local Open Scope num_scope.

(** Modelled from the spec: the Prisma schema is not among the sources;
    these are the column defaults the handlers rely on when they leave a
    column out (a payment recorded by hand is [manual] and [completed],
    as in the seed data; a new invoice has had no reminder). *)
Definition defaultGateway : string := "manual".
Definition defaultPaymentStatus : string := "completed".
Definition defaultReminderCount : Z := 0.

(** *** The store's operations *)

(** A key not in use: what [cuid()] delivers. *)
Definition freshId (used : list Id) : Id := N.succ (fold_right N.max 0%N used).

Definition findInvoice (db : Store) (id : Id) : option Invoice :=
  find (fun i => N.eqb (inv_id i) id) (invoices db).

(** [prisma.invoice.findFirst({ where: { id, userId } })]. *)
Definition findOwnedInvoice (db : Store) (id uid : Id) : option Invoice :=
  find (fun i => N.eqb (inv_id i) id && N.eqb (userId i) uid) (invoices db).

Definition findClient (db : Store) (id : Id) : option Client :=
  find (fun c => N.eqb (client_id c) id) (clients db).

Definition findUser (db : Store) (id : Id) : option User :=
  find (fun u => N.eqb (user_id u) id) (users db).

Definition itemsOf (db : Store) (id : Id) : list InvoiceItem :=
  filter (fun it => N.eqb (invoiceId it) id) (items db).

Definition paymentsOf (db : Store) (id : Id) : list Payment :=
  filter (fun p => N.eqb (pay_invoiceId p) id) (payments db).

Definition orElse {T} (o : option T) (d : T) : T :=
  match o with Some v => v | None => d end.

(** The date a column holds after a write. *)
Definition writtenDate (o : option DateString) (d : Date) : Date :=
  match o with
  | Some (dateOf d') => d'
  | _ => d
  end.

Definition applyPatch (p : InvoicePatch) (i : Invoice) : Invoice :=
  {| inv_id := inv_id i;
     number := number i;
     status := orElse (p_status p) (status i);
     issueDate := writtenDate (p_issueDate p) (issueDate i);
     dueDate := writtenDate (p_dueDate p) (dueDate i);
     subtotal := orElse (p_subtotal p) (subtotal i);
     taxRate := orElse (p_taxRate p) (taxRate i);
     tax := orElse (p_tax p) (tax i);
     total := orElse (p_total p) (total i);
     notes := orElse (p_notes p) (notes i);
     terms := orElse (p_terms p) (terms i);
     currency := orElse (p_currency p) (currency i);
     clientId := orElse (p_clientId p) (clientId i);
     userId := userId i;
     reminderCount := orElse (p_reminderCount p) (reminderCount i);
     lastRemindedAt :=
       match p_lastRemindedAt p with
       | Some d => Some d
       | None => lastRemindedAt i
       end;
     paymentLink :=
       match p_paymentLink p with
       | Some l => Some l
       | None => paymentLink i
       end |}.

Definition setInvoices (db : Store) (l : list Invoice) : Store :=
  {| users := users db; clients := clients db; invoices := l;
     items := items db; payments := payments db |}.

Definition setItems (db : Store) (l : list InvoiceItem) : Store :=
  {| users := users db; clients := clients db; invoices := invoices db;
     items := l; payments := payments db |}.

Definition setPayments (db : Store) (l : list Payment) : Store :=
  {| users := users db; clients := clients db; invoices := invoices db;
     items := items db; payments := l |}.

Definition setUsers (db : Store) (l : list User) : Store :=
  {| users := l; clients := clients db; invoices := invoices db;
     items := items db; payments := payments db |}.

(** [prisma.invoice.update({ where: { id }, data })].  The handlers call
    it only on a row they have just read, so the row exists. *)
Definition updateInvoiceRow (db : Store) (id : Id) (p : InvoicePatch) : Store :=
  setInvoices db
    (map (fun i => if N.eqb (inv_id i) id then applyPatch p i else i)
         (invoices db)).

(** [prisma.invoiceItem.deleteMany({ where: { invoiceId } })]. *)
Definition deleteItemsOf (db : Store) (id : Id) : Store :=
  setItems db (filter (fun it => negb (N.eqb (invoiceId it) id)) (items db)).

(** The nested [items: { create: items }]: the rows are inserted one
    after the other, each under a key of its own. *)
Fixpoint createItems (rows : list InvoiceItem) (id : Id) (l : list ItemData)
  : list InvoiceItem :=
  match l with
  | [] => rows
  | d :: l' =>
      createItems
        (rows ++ [{| item_id := freshId (map item_id rows);
                     invoiceId := id;
                     description := d_description d;
                     quantity := d_quantity d;
                     rate := d_rate d;
                     amount := d_amount d |}])
        id l'
  end.

(** *** The writes the store refuses

    The Prisma client checks the values of a write before it sends a
    statement: a number column takes no NaN and no Infinity, a date
    column no Invalid Date.  Such a write fails as a whole (the nested
    [items: { create }] included), nothing of it is stored, and the
    handler's [catch] answers 500 with the client's message.

    The checks are embedded where a request can bring such a value to a
    write: the numbers and dates of an invoice, and the date of a
    payment.  (The amount of a payment does not get that far: NaN fails
    validation, and an infinite amount exceeds every stored total.) *)

Definition invalidValue : string := "Invalid value provided".

Definition finiteOr (o : option num) : bool :=
  match o with
  | Some x => isFinite x
  | None => true
  end.

Definition dateOr (o : option DateString) : bool :=
  match o with
  | Some noDate => false
  | _ => true
  end.

Definition validLine (d : ItemData) : bool :=
  isFinite (d_quantity d) && isFinite (d_rate d) && isFinite (d_amount d).

(** The numbers of an invoice row. *)
Definition validRow (row : Invoice) : bool :=
  isFinite (subtotal row) && isFinite (taxRate row)
  && isFinite (tax row) && isFinite (total row).

Definition validPatch (p : InvoicePatch) : bool :=
  dateOr (p_issueDate p) && dateOr (p_dueDate p)
  && finiteOr (p_subtotal p) && finiteOr (p_tax p)
  && finiteOr (p_taxRate p) && finiteOr (p_total p).

(** Modelled from the spec: the Prisma schema is not among the sources;
    the data model ties every invoice to a client, so the store refuses
    an [invoice.update] that names a client it does not hold, as it
    refuses such an [invoice.create].

    Why the store refuses [prisma.invoice.update({ where: { id }, data:
    { ...p, items: { create: lines } } })], if it does: a value the
    client does not take, or a client that does not exist. *)
Definition refusedUpdate (db : Store) (p : InvoicePatch) (lines : list ItemData)
  : option string :=
  if negb (validPatch p && forallb validLine lines) then Some invalidValue
  else
    match p_clientId p with
    | Some c =>
        match findClient db c with
        | Some _ => None
        | None => Some "Foreign key constraint violated"
        end
    | None => None
    end.

(** ** Invoice lifecycle *)

(** *** Validation (zod) *)

(** [z.number()] refuses NaN; [.min(v)] refuses [x < v], [.max(v)]
    refuses [x > v], [.positive()] refuses [x <= 0]. *)
Definition zNumber (x : num) : option string :=
  if isNaN x then Some "Expected number, received nan" else None.

Definition zMin (v : Z) (message : string) (x : num) : option string :=
  if x <? ofZ v then Some message else None.

Definition zMax (v : Z) (message : string) (x : num) : option string :=
  if x >? ofZ v then Some message else None.

Definition zPositive (message : string) (x : num) : option string :=
  if x <=? ofZ 0 then Some message else None.

Definition zNonEmpty (message : string) (s : string) : option string :=
  if (String.length s <? 1)%nat then Some message else None.

(** The first issue of a sequence of checks. *)
Fixpoint firstIssue (checks : list (option string)) : option string :=
  match checks with
  | [] => None
  | Some m :: _ => Some m
  | None :: rest => firstIssue rest
  end.

Definition validateItem (required : string) (positive : string)
  (nonNegative : string) (it : ItemInput) : option string :=
  firstIssue
    [ zNonEmpty required (in_description it);
      zNumber (in_quantity it);
      zPositive positive (in_quantity it);
      zNumber (in_rate it);
      zMin 0 nonNegative (in_rate it) ].

Definition validateTaxRate (x : num) : option string :=
  firstIssue
    [ zNumber x;
      zMin 0 "Number must be greater than or equal to 0" x;
      zMax 100 "Number must be less than or equal to 100" x ].

(** *** Totals *)

(** [data.items.map(item => ({ ..., amount: item.quantity * item.rate }))]. *)
Definition withAmount (it : ItemInput) : ItemData :=
  {| d_description := in_description it;
     d_quantity := in_quantity it;
     d_rate := in_rate it;
     d_amount := in_quantity it * in_rate it |}.

(** [items.reduce((sum, item) => sum + item.amount, 0)]. *)
Definition sumAmounts (l : list num) : num :=
  fold_left (fun sum a => sum + a) l (ofZ 0).

Definition computeTax (sub rate : num) : num := sub * (rate / ofZ 100).

(** *** Invoice numbers *)

Definition isDigit (c : ascii) : bool :=
  let n := nat_of_ascii c in (48 <=? n)%nat && (n <=? 57)%nat.

Fixpoint takeDigits (s : string) : string :=
  match s with
  | String c s' => if isDigit c then String c (takeDigits s') else EmptyString
  | EmptyString => EmptyString
  end.

(** The group of [number.match(/INV-(\d+)/)]: the digits after the
    first "INV-" that is followed by one. *)
Fixpoint matchInv (s : string) : option string :=
  match s with
  | EmptyString => None
  | String _ s' =>
      if String.prefix "INV-" s then
        match takeDigits (substring 4 (String.length s - 4) s) with
        | EmptyString => matchInv s'
        | ds => Some ds
        end
      else matchInv s'
  end.

(** The integer a string of digits denotes. *)
Definition digitsValue (ds : string) : Z :=
  fold_left (fun acc c => 10 * acc + (Z.of_nat (nat_of_ascii c) - 48))%Z
            (list_ascii_of_string ds) 0%Z.

(** The counters behind the invoice numbers are JavaScript numbers that
    hold an integer.  Such a number is kept as the integer it holds, and
    Infinity as [None].

    [nearestDouble z] is the number an integer [z >= 0] becomes when it
    is computed in binary64: [z] itself below 2^53; from there the
    nearest integer with 53 significant bits, a tie going to the even
    one; Infinity from 2^1024 - 2^970. *)
Definition nearestDouble (z : Z) : option Z :=
  if (z <? 2 ^ 53)%Z then Some z
  else
    let e := (Z.log2 z - 52)%Z in
    let q := (z / 2 ^ e)%Z in
    let r := (z mod 2 ^ e)%Z in
    let half := (2 ^ (e - 1))%Z in
    let q' := if (r <? half)%Z then q
              else if (half <? r)%Z then (q + 1)%Z
              else if Z.even q then q else (q + 1)%Z in
    if (2 ^ 1024 <=? q' * 2 ^ e)%Z then None else Some (q' * 2 ^ e)%Z.

(** [parseInt] of a string of digits.  (Past the 20th significant digit
    the language lets an engine read the digits as zeros; they are all
    read here, as Node reads them.) *)
Definition parseInt (ds : string) : option Z := nearestDouble (digitsValue ds).

(** [x + 1]. *)
Definition plusOne (x : option Z) : option Z :=
  match x with
  | Some n => nearestDouble (n + 1)
  | None => None
  end.

Fixpoint digitsOf (fuel : nat) (n : Z) (acc : string) : string :=
  match fuel with
  | O => acc
  | S fuel' =>
      let acc' := String (ascii_of_nat (Z.to_nat (48 + n mod 10)%Z)) acc in
      if (n / 10 =? 0)%Z then acc' else digitsOf fuel' (n / 10)%Z acc'
  end.

(** The decimal digits of an integer [n >= 0]. *)
Definition decimal (n : Z) : string :=
  digitsOf (S (Z.to_nat (Z.log2 n))) n EmptyString.

Definition readsBack (x v : Z) : bool :=
  match nearestDouble v with
  | Some y => (y =? x)%Z
  | None => false
  end.

(** The decimals of [k] digits next to [x], a number of [p] digits, that
    read back as [x]: of the one below and the one above, the nearer to
    [x], and the even one when they are as near. *)
Definition candidates (x p k : Z) : list Z :=
  let u := (10 ^ (p - k))%Z in
  let s := (x / u)%Z in
  let below := readsBack x (s * u)%Z in
  let above := readsBack x ((s + 1) * u)%Z in
  let lowFirst :=
    (x - s * u <? (s + 1) * u - x)%Z
    || ((x - s * u =? (s + 1) * u - x)%Z && Z.even s) in
  match below, above with
  | true, true => if lowFirst then [s] else [(s + 1)%Z]
  | true, false => [s]
  | false, true => [(s + 1)%Z]
  | false, false => []
  end.

(** The digits [s] of the shortest decimal that reads back as [x], with
    their number [k]: the search goes up from [k], and 17 digits always
    do. *)
Fixpoint shortest (fuel : nat) (x p k : Z) : Z * Z :=
  match fuel with
  | O => (x, p)
  | S fuel' =>
      match candidates x p k with
      | s :: _ => (s, k)
      | [] => shortest fuel' x p (k + 1)%Z
      end
  end.

(** The exponent notation of a number from 10^21 on: "1e+21",
    "1.5e+22".  (When the digits found are those of [10^k], the decimal
    is a 1 with one more zero.) *)
Definition exponential (x : Z) : string :=
  let p := Z.of_nat (String.length (decimal x)) in
  let (s, k) := shortest 17 x p 1 in
  let (s', e) := if (s =? 10 ^ k)%Z then (10 ^ (k - 1), p)%Z
                 else (s, p - 1)%Z in
  match decimal s' with
  | String c EmptyString => String c ("e+" ++ decimal e)
  | String c rest => String c ("." ++ rest ++ "e+" ++ decimal e)
  | EmptyString => EmptyString
  end.

(** [String(n)] for a number that holds the integer [n]: its digits
    below 10^21, the exponent notation from there. *)
Definition showNumber (n : Z) : string :=
  if (n <? 0)%Z then
    ("-" ++ (if (- n <? 10 ^ 21)%Z then decimal (- n) else exponential (- n)))
  else if (n <? 10 ^ 21)%Z then decimal n else exponential n.

(** [String(x)] for a counter. *)
Definition showCount (x : option Z) : string :=
  match x with
  | Some n => showNumber n
  | None => "Infinity"
  end.

Fixpoint zeros (n : nat) : string :=
  match n with O => EmptyString | S n' => String "0"%char (zeros n') end.

(** [s.padStart(3, "0")]. *)
Definition padStart3 (s : string) : string :=
  (zeros (3 - String.length s) ++ s)%string.

(** [`INV-${String(n).padStart(3, "0")}`]. *)
Definition formatCount (x : option Z) : string :=
  ("INV-" ++ padStart3 (showCount x))%string.

Definition formatNumber (n : Z) : string := formatCount (Some n).

(** The store may refuse a second invoice with a number already in use.
    Modelled from the spec: the Prisma schema is not among the sources,
    and the data model only says the number is unique per user; which
    constraint the table carries, if any, is left open. *)
Inductive NumberConstraint := NoConstraint | UniquePerUser | UniqueGlobally.

Variable numberConstraint : NumberConstraint.

Definition numberTaken (db : Store) (uid : Id) (n : string) : bool :=
  match numberConstraint with
  | NoConstraint => false
  | UniquePerUser =>
      existsb (fun i => N.eqb (userId i) uid && String.eqb (number i) n)
              (invoices db)
  | UniqueGlobally => existsb (fun i => String.eqb (number i) n) (invoices db)
  end.

(** [prisma.invoice.create({ data: { ..., items: { create } } })]: the
    row gets a fresh key and the table's defaults; the store refuses it
    when a number of the row or of a line is not finite, when the number
    of the invoice is taken, or when the client does not exist. *)
Definition insertInvoice (db : Store) (row : Invoice) (lines : list ItemData)
  : Store * Response (Invoice * list InvoiceItem) :=
  if negb (validRow row && forallb validLine lines) then
    (db, Error 500 invalidValue)
  else if numberTaken db (userId row) (number row) then
    (db, Error 409 "A record with this value already exists")
  else
    match findClient db (clientId row) with
    | None => (db, Error 500 "Foreign key constraint violated")
    | Some _ =>
        let id := freshId (map inv_id (invoices db)) in
        let inv := {| inv_id := id;
                      number := number row;
                      status := status row;
                      issueDate := issueDate row;
                      dueDate := dueDate row;
                      subtotal := subtotal row;
                      taxRate := taxRate row;
                      tax := tax row;
                      total := total row;
                      notes := notes row;
                      terms := terms row;
                      currency := currency row;
                      clientId := clientId row;
                      userId := userId row;
                      reminderCount := defaultReminderCount;
                      lastRemindedAt := None;
                      paymentLink := None |} in
        let db1 := setInvoices db (invoices db ++ [inv]) in
        let db2 := setItems db1 (createItems (items db1) id lines) in
        (db2, Ok 201 (inv, itemsOf db2 id))
    end.

(** *** createInvoice: [POST /api/invoices] *)

(** The first issue [createInvoiceSchema.safeParse] reports, if any. *)
Definition createInvoiceSchema (b : CreateInvoiceInput) : option string :=
  firstIssue
    ([ match c_taxRate b with Some r => validateTaxRate r | None => None end;
       match c_status b with
       | None | Some draft | Some sent => None
       | Some _ => Some "Invalid enum value"
       end;
       if (List.length (c_items b) <? 1)%nat
       then Some "At least one item is required" else None ]
     ++ map (validateItem "Description is required"
                          "Quantity must be positive"
                          "Rate must be non-negative") (c_items b)).

(** [s || null]. *)
Definition orNull (s : option string) : option string :=
  match s with
  | Some EmptyString => None
  | other => other
  end.

(** The owner's most recently created invoice. *)
Definition lastInvoiceOf (db : Store) (uid : Id) : option Invoice :=
  find (fun i => N.eqb (userId i) uid) (rev (invoices db)).

(** [nextNumber]: 1, or one more than the number read off the last
    invoice. *)
Definition nextNumber (db : Store) (uid : Id) : option Z :=
  match lastInvoiceOf db uid with
  | Some last =>
      match matchInv (number last) with
      | Some ds => plusOne (parseInt ds)
      | None => Some 1%Z
      end
  | None => Some 1%Z
  end.

(** The schema takes any string for the two dates; a string that is no
    date becomes an Invalid Date, which [prisma.invoice.create]
    refuses. *)
Definition createInvoice (db : Store) (uid : Id) (body : CreateInvoiceInput)
  : Store * Response (Invoice * list InvoiceItem) :=
  match createInvoiceSchema body with
  | Some message => (db, badRequest message)
  | None =>
      let rate := orElse (c_taxRate body) (ofZ 0) in
      let invoiceNumber := formatCount (nextNumber db uid) in
      let lines := map withAmount (c_items body) in
      let sub := sumAmounts (map d_amount lines) in
      let tx := computeTax sub rate in
      let tot := sub + tx in
      match c_issueDate body, c_dueDate body with
      | dateOf issue, dateOf due =>
          insertInvoice db
            {| inv_id := 0%N;
               number := invoiceNumber;
               status := orElse (c_status body) draft;
               issueDate := issue;
               dueDate := due;
               subtotal := sub;
               taxRate := rate;
               tax := tx;
               total := tot;
               notes := orNull (c_notes body);
               terms := orNull (c_terms body);
               currency := orElse (c_currency body) "USD";
               clientId := c_clientId body;
               userId := uid;
               reminderCount := defaultReminderCount;
               lastRemindedAt := None;
               paymentLink := None |}
            lines
      | _, _ => (db, Error 500 invalidValue)
      end
  end.

(** *** updateInvoice: [PUT /api/invoices/:id] *)

(** The first issue [updateInvoiceSchema.safeParse] reports, if any. *)
Definition updateInvoiceSchema (b : UpdateInvoiceInput) : option string :=
  firstIssue
    (match u_taxRate b with Some r => validateTaxRate r | None => None end
     :: map (validateItem "String must contain at least 1 character(s)"
                          "Number must be greater than 0"
                          "Number must be greater than or equal to 0")
            (orElse (u_items b) [])).

(** [if (data.currency) ...]: an empty string is skipped. *)
Definition truthy (s : option string) : option string :=
  match s with
  | Some EmptyString => None
  | other => other
  end.

(** The fields copied into [updateData] before the totals are looked
    at.  [if (data.issueDate)] and the like skip a field that is absent
    or the empty string: such a field is [None] in the body. *)
Definition plainFields (b : UpdateInvoiceInput) : InvoicePatch :=
  {| p_clientId := u_clientId b;
     p_issueDate := u_issueDate b;
     p_dueDate := u_dueDate b;
     p_notes := u_notes b;
     p_terms := u_terms b;
     p_currency := truthy (u_currency b);
     p_status := u_status b;
     p_subtotal := None; p_tax := None; p_taxRate := None; p_total := None;
     p_reminderCount := None; p_lastRemindedAt := None;
     p_paymentLink := None |}.

Definition withTotals (p : InvoicePatch) (sub : option num) (tx rate tot : num)
  : InvoicePatch :=
  {| p_clientId := p_clientId p;
     p_issueDate := p_issueDate p;
     p_dueDate := p_dueDate p;
     p_notes := p_notes p;
     p_terms := p_terms p;
     p_currency := p_currency p;
     p_status := p_status p;
     p_subtotal := sub;
     p_tax := Some tx;
     p_taxRate := Some rate;
     p_total := Some tot;
     p_reminderCount := p_reminderCount p;
     p_lastRemindedAt := p_lastRemindedAt p;
     p_paymentLink := p_paymentLink p |}.

(** What the handler writes when the request carries no lines: the
    plain fields, with the tax and the total recomputed from the stored
    subtotal when the request carries a tax rate. *)
Definition rowUpdate (existing : Invoice) (body : UpdateInvoiceInput)
  : InvoicePatch :=
  match u_taxRate body with
  | Some rate =>
      let sub := subtotal existing in
      let tx := computeTax sub rate in
      let tot := sub + tx in
      withTotals (plainFields body) None tx rate tot
  | None => plainFields body
  end.

(** The handler has two statements when the request carries lines:
    [invoiceItem.deleteMany], then [invoice.update] with the new lines
    nested.  They are not in a transaction: when the store refuses the
    update, the old lines stay deleted. *)
Definition updateInvoice (db : Store) (uid id : Id) (body : UpdateInvoiceInput)
  : Store * Response (Invoice * list InvoiceItem) :=
  match findOwnedInvoice db id uid with
  | None => (db, notFound "Invoice not found")
  | Some existing =>
      match updateInvoiceSchema body with
      | Some message => (db, badRequest message)
      | None =>
          let updateData := plainFields body in
          let respond db' :=
            match findInvoice db' id with
            | Some inv => (db', Ok 200 (inv, itemsOf db' id))
            | None => (db', Error 404 "Record not found")
            end in
          match u_items body with
          | Some newItems =>
              let rate := orElse (u_taxRate body) (taxRate existing) in
              let lines := map withAmount newItems in
              let sub := sumAmounts (map d_amount lines) in
              let tx := computeTax sub rate in
              let tot := sub + tx in
              let data := withTotals updateData (Some sub) tx rate tot in
              let db1 := deleteItemsOf db id in
              match refusedUpdate db1 data lines with
              | Some message => (db1, Error 500 message)
              | None =>
                  let db2 := updateInvoiceRow db1 id data in
                  respond (setItems db2 (createItems (items db2) id lines))
              end
          | None =>
              let data := rowUpdate existing body in
              match refusedUpdate db data [] with
              | Some message => (db, Error 500 message)
              | None => respond (updateInvoiceRow db id data)
              end
          end
      end
  end.

(** *** send and remind *)

Definition setStatus (s : InvoiceStatus) : InvoicePatch :=
  {| p_clientId := None; p_issueDate := None; p_dueDate := None;
     p_notes := None; p_terms := None; p_currency := None;
     p_status := Some s; p_subtotal := None; p_tax := None;
     p_taxRate := None; p_total := None; p_reminderCount := None;
     p_lastRemindedAt := None; p_paymentLink := None |}.

Definition returnRow (db : Store) (id : Id) : Store * Response Invoice :=
  match findInvoice db id with
  | Some inv => (db, Ok 200 inv)
  | None => (db, Error 404 "Record not found")
  end.

(** [POST /api/invoices/:id/send]. *)
Definition sendInvoice (db : Store) (uid id : Id) : Store * Response Invoice :=
  match findOwnedInvoice db id uid with
  | None => (db, notFound "Invoice not found")
  | Some invoice =>
      if negb (status_eqb (status invoice) draft)
         && negb (status_eqb (status invoice) sent)
      then (db, badRequest "Only draft or sent invoices can be sent")
      else returnRow (updateInvoiceRow db id (setStatus sent)) id
  end.

Definition reminderPatch (invoice : Invoice) (now : Date) : InvoicePatch :=
  {| p_clientId := None; p_issueDate := None; p_dueDate := None;
     p_notes := None; p_terms := None; p_currency := None;
     p_status := None; p_subtotal := None; p_tax := None;
     p_taxRate := None; p_total := None;
     p_reminderCount := Some (reminderCount invoice + 1)%Z;
     p_lastRemindedAt := Some now; p_paymentLink := None |}.

(** [POST /api/invoices/:id/remind]; the body is the new reminder count. *)
Definition remindInvoice (db : Store) (uid id : Id) (now : Date)
  : Store * Response Z :=
  match findOwnedInvoice db id uid with
  | None => (db, notFound "Invoice not found")
  | Some invoice =>
      if negb (status_eqb (status invoice) sent)
         && negb (status_eqb (status invoice) overdue)
      then (db, badRequest "Can only send reminders for sent or overdue invoices")
      else
        let db' := updateInvoiceRow db id (reminderPatch invoice now) in
        match findInvoice db' id with
        | Some updated => (db', Ok 200 (reminderCount updated))
        | None => (db', Error 404 "Record not found")
        end
  end.

Inductive EmailType := invoiceEmail | reminderEmail | confirmationEmail.

(** [process.env.NEXTAUTH_URL || "http://localhost:3000"]. *)
Variable baseUrl : string.

(** [`${baseUrl}/pay/${id}`]; the key is written as its digits. *)
Definition paymentLinkOf (id : Id) : string :=
  (baseUrl ++ "/pay/" ++ decimal (Z.of_N id))%string.

Definition sentPatch (id : Id) : InvoicePatch :=
  {| p_clientId := None; p_issueDate := None; p_dueDate := None;
     p_notes := None; p_terms := None; p_currency := None;
     p_status := Some sent; p_subtotal := None; p_tax := None;
     p_taxRate := None; p_total := None; p_reminderCount := None;
     p_lastRemindedAt := None; p_paymentLink := Some (paymentLinkOf id) |}.

(** [POST /api/invoices/:id/email]: the mail itself only goes to the
    log; what is kept is the write each kind of mail makes. *)
Definition emailInvoice (db : Store) (uid id : Id) (type : EmailType)
  (now : Date) : Store * Response EmailType :=
  match findOwnedInvoice db id uid with
  | None => (db, notFound "Invoice not found")
  | Some invoice =>
      match type with
      | reminderEmail =>
          if negb (status_eqb (status invoice) sent)
             && negb (status_eqb (status invoice) overdue)
          then (db, badRequest
                      "Can only send reminders for sent or overdue invoices")
          else (updateInvoiceRow db id (reminderPatch invoice now), Ok 200 type)
      | confirmationEmail =>
          match paymentsOf db id with
          | [] => (db, badRequest "No payments found for this invoice")
          | _ :: _ => (db, Ok 200 type)
          end
      | invoiceEmail =>
          if negb (status_eqb (status invoice) draft)
             && negb (status_eqb (status invoice) sent)
          then (db, badRequest "Only draft or sent invoices can be emailed")
          else (updateInvoiceRow db id (sentPatch id), Ok 200 type)
      end
  end.

(** *** Overdue sweep *)

Definition isOverdueNow (uid : Id) (now : Date) (i : Invoice) : bool :=
  N.eqb (userId i) uid && status_eqb (status i) sent && (dueDate i <? now)%Z.

(** [prisma.invoice.updateMany({ where: { userId, status: "sent",
    dueDate: { lt: now } }, data: { status: "overdue" } })] and its
    [count]. *)
Definition checkOverdueInvoices (db : Store) (uid : Id) (now : Date)
  : Store * nat :=
  (setInvoices db
     (map (fun i => if isOverdueNow uid now i
                    then applyPatch (setStatus overdue) i else i)
          (invoices db)),
   List.length (filter (isOverdueNow uid now) (invoices db))).

(** *** duplicateInvoice: [POST /api/invoices/:id/duplicate] *)

Definition setCounter (db : Store) (uid : Id) (n : Z) : Store :=
  setUsers db
    (map (fun u => if N.eqb (user_id u) uid
                   then {| user_id := user_id u; invoiceCounter := n |}
                   else u)
         (users db)).

Definition copyItem (it : InvoiceItem) : ItemData :=
  {| d_description := description it;
     d_quantity := quantity it;
     d_rate := rate it;
     d_amount := amount it |}.

(** The number comes from the owner's [invoiceCounter]; the counter
    write and the insertion are one transaction, so a refused insertion
    leaves the store as it was. *)
Definition duplicateInvoice (db : Store) (uid id : Id) (now : Date)
  : Store * Response (Invoice * list InvoiceItem) :=
  match findOwnedInvoice db id uid with
  | None => (db, notFound "Invoice not found")
  | Some invoice =>
      match findUser db uid with
      | None => (db, Error 404 "Record not found")
      | Some userData =>
          let nextCounter := (invoiceCounter userData + 1)%Z in
          let invoiceNumber := formatNumber nextCounter in
          let db1 := setCounter db uid nextCounter in
          let dueDate' := addDays now 30 in
          match insertInvoice db1
                  {| inv_id := 0%N;
                     number := invoiceNumber;
                     status := draft;
                     issueDate := now;
                     dueDate := dueDate';
                     subtotal := subtotal invoice;
                     taxRate := taxRate invoice;
                     tax := tax invoice;
                     total := total invoice;
                     notes := notes invoice;
                     terms := terms invoice;
                     currency := currency invoice;
                     clientId := clientId invoice;
                     userId := uid;
                     reminderCount := defaultReminderCount;
                     lastRemindedAt := None;
                     paymentLink := None |}
                  (map copyItem (itemsOf db id)) with
          | (db2, Ok c b) => (db2, Ok c b)
          | (_, Error c m) => (db, Error c m)
          end
      end
  end.

(** ** Payment reconciliation *)

(** [prisma.payment.aggregate({ _sum: { amount: true } })]: [null] over
    no row, else the column added up in row order. *)
Definition aggregateSum (l : list num) : option num :=
  match l with
  | [] => None
  | a :: rest => Some (fold_left (fun sum b => sum + b) rest a)
  end.

(** [x || 0]: [null], NaN and zero all give 0. *)
Definition orZero (x : option num) : num :=
  match x with
  | None => ofZ 0
  | Some v => if isNaN v || (v =? ofZ 0) then ofZ 0 else v
  end.

Definition paymentMethods : list string :=
  ["bank_transfer"; "credit_card"; "paypal"; "check"; "cash"; "other"].

(** The first issue [createPaymentSchema.safeParse] reports, if any. *)
Definition createPaymentSchema (b : PaymentInput) : option string :=
  firstIssue
    [ zNumber (pi_amount b);
      zPositive "Amount must be positive" (pi_amount b);
      if existsb (String.eqb (pi_method b)) paymentMethods
      then None else Some "Invalid enum value" ].

Definition insertPayment (db : Store) (row : Payment) : Store * Payment :=
  let p := {| pay_id := freshId (map pay_id (payments db));
              pay_invoiceId := pay_invoiceId row;
              pay_amount := pay_amount row;
              method := method row;
              gateway := gateway row;
              gatewayPaymentId := gatewayPaymentId row;
              reference := reference row;
              pay_status := pay_status row;
              paidAt := paidAt row |} in
  (setPayments db (payments db ++ [p]), p).

(** *** recordPayment: [POST /api/invoices/:id/payments]

    [paidAt] is any string to the schema; [data.paidAt ? new
    Date(data.paidAt) : new Date()] makes an Invalid Date of a string
    that is no date, and [prisma.payment.create] refuses it. *)

Definition recordPayment (db : Store) (uid id : Id) (body : PaymentInput)
  (now : Date) : Store * Response Payment :=
  match findOwnedInvoice db id uid with
  | None => (db, notFound "Invoice not found")
  | Some invoice =>
      match createPaymentSchema body with
      | Some message => (db, badRequest message)
      | None =>
          let existingPayments :=
            aggregateSum (map pay_amount (paymentsOf db id)) in
          let totalPaid := orZero existingPayments + pi_amount body in
          if totalPaid >? total invoice then
            (db, badRequest "Payment amount exceeds remaining balance")
          else if negb (dateOr (pi_paidAt body)) then
            (db, Error 500 invalidValue)
          else
            let (db1, payment) :=
              insertPayment db
                {| pay_id := 0%N;
                   pay_invoiceId := id;
                   pay_amount := pi_amount body;
                   method := pi_method body;
                   gateway := defaultGateway;
                   gatewayPaymentId := None;
                   reference := orNull (pi_reference body);
                   pay_status := defaultPaymentStatus;
                   paidAt := writtenDate (pi_paidAt body) now |} in
            let db2 :=
              if nabs (totalPaid - total invoice) <? dec 1 2
              then updateInvoiceRow db1 id (setStatus paid)
              else db1 in
            (db2, Ok 201 payment)
      end
  end.

(** *** processOnlinePayment: [POST /api/invoices/:id/pay] *)

(** [invoice.payments.reduce((sum, p) => sum + p.amount, 0)]. *)
Definition totalPaidOf (db : Store) (id : Id) : num :=
  sumAmounts (map pay_amount (paymentsOf db id)).

Definition balanceDueOf (db : Store) (invoice : Invoice) : num :=
  total invoice - totalPaidOf db (inv_id invoice).

(** [`pay_${Date.now()}_${Math.random().toString(36).substring(2, 10)}`];
    [token] is the random part. *)
Definition mockGatewayId (now : Date) (token : string) : string :=
  ("pay_" ++ showNumber now ++ "_" ++ token)%string.

Definition processOnlinePayment (db : Store) (id : Id) (body : PayInput)
  (now : Date) (token : string) : Store * Response Payment :=
  match findInvoice db id with
  | None => (db, Error 404 "Invoice not found")
  | Some invoice =>
      if status_eqb (status invoice) paid then
        (db, Error 400 "This invoice has already been paid")
      else if status_eqb (status invoice) cancelled then
        (db, Error 400 "This invoice has been cancelled")
      else
        let balanceDue := balanceDueOf db invoice in
        if balanceDue <=? ofZ 0 then
          (db, Error 400 "No balance due on this invoice")
        else
          let payer :=
            match truthy (payerName body) with
            | Some n => n
            | None =>
                match findClient db (clientId invoice) with
                | Some c => client_name c
                | None => EmptyString
                end
            end in
          let (db1, payment) :=
            insertPayment db
              {| pay_id := 0%N;
                 pay_invoiceId := id;
                 pay_amount := balanceDue;
                 method := orElse (truthy (pay_method body)) "credit_card";
                 gateway := "online";
                 gatewayPaymentId := Some (mockGatewayId now token);
                 reference := Some ("Online payment by " ++ payer)%string;
                 pay_status := "completed";
                 paidAt := now |} in
          (updateInvoiceRow db1 id (setStatus paid), Ok 200 payment)
  end.

(** ** Heuristic insights ([lib/mock-ai.ts]) *)

(** [arr.sort(cmp)]: a stable sort; [cmp a b < 0] puts [a] first. *)
Section Sort.
Variable T : Type.
Variable cmp : T -> T -> Z.

Fixpoint insertSorted (x : T) (l : list T) : list T :=
  match l with
  | [] => [x]
  | y :: l' => if (cmp x y <=? 0)%Z then x :: l else y :: insertSorted x l'
  end.

Definition sortBy (l : list T) : list T := fold_right insertSorted [] l.
End Sort.
Arguments insertSorted {T} cmp x l.
Arguments sortBy {T} cmp l.

(** *** Line-item suggestions *)

Fixpoint lookupKey (m : ObjectMap) (key : string) : option Entry :=
  match m with
  | [] => None
  | (k, e) :: m' => if String.eqb k key then Some e else lookupKey m' key
  end.

Fixpoint storeKey (m : ObjectMap) (key : string) (e : Entry) : ObjectMap :=
  match m with
  | [] => [(key, e)]
  | (k, e') :: m' =>
      if String.eqb k key then (k, e) :: m' else (k, e') :: storeKey m' key e
  end.

(** Reading [itemMap[key]] also finds what the object inherits: under
    these two keys (the only lower-case names on [Object.prototype]) the
    lookup is truthy though the map has no such entry, no entry is made,
    and [itemMap[key].rates.push] throws. *)
Definition inheritedKey (key : string) : bool :=
  String.eqb key "constructor" || String.eqb key "__proto__".

Definition itemKey (it : InvoiceItem) : string :=
  trim (toLowerCase (description it)).

(** One turn of the inner [forEach]; [None] is the TypeError. *)
Definition addItem (keepQuantities : bool) (acc : option ObjectMap)
  (it : InvoiceItem) : option ObjectMap :=
  match acc with
  | None => None
  | Some m =>
      let key := itemKey it in
      match lookupKey m key with
      | Some e =>
          Some (storeKey m key
                  {| e_description := e_description e;
                     rates := rates e ++ [rate it];
                     quantities :=
                       if keepQuantities then quantities e ++ [quantity it]
                       else quantities e;
                     count := (count e + 1)%Z |})
      | None =>
          if inheritedKey key then None
          else
            Some (storeKey m key
                    {| e_description := description it;
                       rates := [rate it];
                       quantities :=
                         if keepQuantities then [quantity it] else [];
                       count := 1%Z |})
      end
  end.

(** [invoices.forEach(inv => inv.items.forEach(...))]. *)
Definition aggregateItems (keepQuantities : bool) (db : Store)
  (invs : list Invoice) : option ObjectMap :=
  fold_left
    (fun acc inv => fold_left (addItem keepQuantities) (itemsOf db (inv_id inv)) acc)
    invs (Some []).

(** A key that is an array index ("0", "7", "2024", ... below 2^32 - 1). *)
Definition isArrayIndex (key : string) : bool :=
  match key with
  | EmptyString => false
  | String c rest =>
      String.eqb (takeDigits key) key
      && (negb (Ascii.eqb c "0"%char) || String.eqb rest EmptyString)
      && (digitsValue key <? 2 ^ 32 - 1)%Z
  end.

(** [Object.values(m)]: the index keys first, in increasing order, then
    the other keys in insertion order. *)
Definition objectValues (m : ObjectMap) : list Entry :=
  map snd
    (sortBy (fun a b => (digitsValue (fst a) - digitsValue (fst b))%Z)
            (filter (fun kv => isArrayIndex (fst kv)) m)
     ++ filter (fun kv => negb (isArrayIndex (fst kv))) m).

Definition byFrequency (a b : LineItemSuggestion) : Z :=
  (frequency b - frequency a)%Z.

Definition clientSuggestion (e : Entry) : LineItemSuggestion :=
  let latestRate := hd nan (rates e) in
  let avgQuantity :=
    sumAmounts (quantities e) / ofZ (Z.of_nat (List.length (quantities e))) in
  {| s_description := e_description e;
     s_quantity := round (avgQuantity * ofZ 10) / ofZ 10;
     s_rate := latestRate;
     frequency := count e;
     confidence := Z.min 95 (50 + count e * 10) |}.

Definition globalSuggestion (e : Entry) : LineItemSuggestion :=
  {| s_description := e_description e;
     s_quantity := ofZ 1;
     s_rate := hd nan (rates e);
     frequency := count e;
     confidence := Z.min 70 (30 + count e * 5) |}.

(** [description && description.trim()]: the filter text, when there is
    one, lower-cased and trimmed. *)
Definition searchText (filterText : option string) : option string :=
  match filterText with
  | None => None
  | Some d =>
      match trim d with
      | EmptyString => None
      | _ => Some (trim (toLowerCase d))
      end
  end.

Definition matchesSearch (search : string) (s : LineItemSuggestion) : bool :=
  includes (toLowerCase (s_description s)) search
  || existsb (fun word => includes (toLowerCase (s_description s)) word)
             (splitSpace search).

Definition applySearch (filterText : option string)
  (l : list LineItemSuggestion) : list LineItemSuggestion :=
  match searchText filterText with
  | Some search => filter (matchesSearch search) l
  | None => l
  end.

(** The client's 50 most recent invoices. *)
Definition clientInvoices (db : Store) (uid cid : Id) : list Invoice :=
  firstn 50
    (rev (filter (fun i => N.eqb (userId i) uid && N.eqb (clientId i) cid)
                 (invoices db))).

(** The owner's 100 most recent invoices. *)
Definition allInvoices (db : Store) (uid : Id) : list Invoice :=
  firstn 100 (rev (filter (fun i => N.eqb (userId i) uid) (invoices db))).

Definition clientSuggestions (db : Store) (uid cid : Id)
  (filterText : option string) : option (list LineItemSuggestion) :=
  match aggregateItems true db (clientInvoices db uid cid) with
  | None => None
  | Some itemMap =>
      Some (applySearch filterText
              (sortBy byFrequency (map clientSuggestion (objectValues itemMap))))
  end.

Definition globalSuggestions (db : Store) (uid : Id)
  (filterText : option string) : option (list LineItemSuggestion) :=
  match aggregateItems false db (allInvoices db uid) with
  | None => None
  | Some globalMap =>
      Some (applySearch filterText
              (sortBy byFrequency (map globalSuggestion (objectValues globalMap))))
  end.

(** [None] when the aggregation throws. *)
Definition suggestLineItems (db : Store) (uid cid : Id)
  (filterText : option string) : option (list LineItemSuggestion) :=
  match clientSuggestions db uid cid filterText with
  | None => None
  | Some [] =>
      match globalSuggestions db uid filterText with
      | None => None
      | Some suggestions => Some (firstn 10 suggestions)
      end
  | Some suggestions => Some (firstn 10 suggestions)
  end.

(** *** Duplicate detection *)

(** Amount similarity (0-40 points). *)
Definition amountPoints (invTotal candidate : num) : Z :=
  let amountDiff :=
    nabs (invTotal - candidate) / mathMax (mathMax invTotal candidate) (ofZ 1) in
  if amountDiff =? ofZ 0 then 40%Z
  else if amountDiff <? dec 1 2 then 35%Z
  else if amountDiff <? dec 5 2 then 20%Z
  else if amountDiff <? dec 1 1 then 10%Z
  else 0%Z.

(** Date proximity (0-20 points). *)
Definition datePoints (invDate candidate : Date) : Z :=
  let daysDiff := nabs (ofZ (invDate - candidate)%Z / ofZ msPerDay) in
  if daysDiff <? ofZ 1 then 20%Z
  else if daysDiff <? ofZ 3 then 15%Z
  else if daysDiff <? ofZ 7 then 10%Z
  else if daysDiff <? ofZ 14 then 5%Z
  else 0%Z.

(** The inner [for] over the existing lines: what the first line that
    ends the loop adds to [matchedItems]. *)
Fixpoint matchAgainst (newItem : ItemInput) (existing : list InvoiceItem)
  : option num :=
  match existing with
  | [] => None
  | existingItem :: rest =>
      let descMatch :=
        String.eqb (trim (toLowerCase (in_description newItem)))
                   (trim (toLowerCase (description existingItem))) in
      let rateMatch :=
        nabs (in_rate newItem - rate existingItem) <? dec 1 2 in
      let qtyMatch :=
        nabs (in_quantity newItem - quantity existingItem) <? dec 1 2 in
      if descMatch && rateMatch && qtyMatch then Some (ofZ 1)
      else if descMatch && rateMatch then Some (dec 7 1)
      else if descMatch then Some (dec 4 1)
      else matchAgainst newItem rest
  end.

Definition matchedItems (newItems : list ItemInput)
  (existing : list InvoiceItem) : num :=
  fold_left
    (fun matched newItem =>
       match matchAgainst newItem existing with
       | Some w => matched + w
       | None => matched
       end)
    newItems (ofZ 0).

(** Item similarity (0-40 points). *)
Definition itemPoints (newItems : list ItemInput)
  (existing : list InvoiceItem) : Z :=
  match newItems, existing with
  | _ :: _, _ :: _ =>
      let itemSimilarity :=
        matchedItems newItems existing
        / ofZ (Z.max (Z.of_nat (List.length newItems))
                     (Z.of_nat (List.length existing))) in
      toZ (round (itemSimilarity * ofZ 40))
  | _, _ => 0%Z
  end.

Definition similarityOf (db : Store) (candidateTotal : num)
  (candidateDate : Date) (newItems : list ItemInput) (inv : Invoice) : Z :=
  (amountPoints (total inv) candidateTotal
   + datePoints (issueDate inv) candidateDate
   + itemPoints newItems (itemsOf db (inv_id inv)))%Z.

Definition windowDays : Z := 30.

Definition inWindow (uid cid : Id) (candidateDate : Date) (i : Invoice) : bool :=
  N.eqb (userId i) uid && N.eqb (clientId i) cid
  && (addDays candidateDate (- windowDays) <=? issueDate i)%Z
  && (issueDate i <=? addDays candidateDate windowDays)%Z
  && negb (status_eqb (status i) cancelled).

Definition existingInvoices (db : Store) (uid cid : Id) (candidateDate : Date)
  : list Invoice :=
  rev (filter (inWindow uid cid candidateDate) (invoices db)).

Definition bySimilarity (a b : SimilarInvoice) : Z :=
  (similarity b - similarity a)%Z.

Definition scored (db : Store) (candidateTotal : num) (candidateDate : Date)
  (newItems : list ItemInput) (inv : Invoice) : SimilarInvoice :=
  {| sim_id := inv_id inv;
     sim_number := number inv;
     sim_total := total inv;
     sim_date := issueDate inv;
     similarity := similarityOf db candidateTotal candidateDate newItems inv |}.

Definition detectDuplicateInvoice (db : Store) (uid cid : Id)
  (candidateTotal : num) (candidateDate : Date) (newItems : list ItemInput)
  : DuplicateCheck :=
  match existingInvoices db uid cid candidateDate with
  | [] =>
      {| isDuplicate := false;
         dc_confidence := ofZ 95;
         similarInvoices := [];
         reason := NoSimilar |}
  | existing =>
      let kept :=
        filter (fun s => (30 <=? similarity s)%Z)
               (map (scored db candidateTotal candidateDate newItems) existing) in
      let sorted := sortBy bySimilarity kept in
      let dup := existsb (fun s => (75 <=? similarity s)%Z) sorted in
      let highestSimilarity :=
        match sorted with s :: _ => similarity s | [] => 0%Z end in
      {| isDuplicate := dup;
         dc_confidence :=
           if dup then ofZ highestSimilarity
           else ofZ 95 - ofZ highestSimilarity * dec 5 1;
         similarInvoices := firstn 5 sorted;
         reason :=
           match dup, sorted with
           | true, best :: _ => HighSimilarity best
           | true, [] => NoSimilar
           | false, _ :: _ => FoundSimilar (List.length sorted) highestSimilarity
           | false, [] => NoSimilar
           end |}
  end.
End Model.

Arguments insertSorted {T} cmp x l.
Arguments sortBy {T} cmp l.

(** * The other handlers of the invoice routes *)

(** Their answers, and the requests of the invoice API as data: one
    constructor per route handler, with what the handler reads from the
    session ([uid]), the path ([id]), the body and the clock. *)
Module Rows := Row.

Module Desk.
Section Desk.
Variable num : Type.
Set Implicit Arguments.
Set Maximal Implicit Insertion.

(** What the public payment page shows of an invoice (its [client] and
    [business] blocks copy columns the tables above do not carry). *)
Record PaymentPage := {
  page_id : Id;
  page_number : string;
  page_status : InvoiceStatus;
  page_issueDate : Date;
  page_dueDate : Date;
  page_subtotal : num;
  page_taxRate : num;
  page_tax : num;
  page_total : num;
  page_currency : string;
  page_notes : option string;
  page_terms : option string;
  totalPaid : num;
  balanceDue : num;
  page_items : list (Rows.ItemData num)
}.

Inductive Request :=
| CreateInvoice (uid : Id) (body : Rows.CreateInvoiceInput num)
| UpdateInvoice (uid id : Id) (body : Rows.UpdateInvoiceInput num)
| DeleteInvoice (uid id : Id)
| SendInvoice (uid id : Id)
| RemindInvoice (uid id : Id) (now : Date)
| EmailInvoice (uid id : Id) (type : EmailType) (now : Date)
| SweepOverdue (uid : Id) (now : Date)
| RecordPayment (uid id : Id) (body : Rows.PaymentInput num) (now : Date)
| PayOnline (id : Id) (body : PayInput) (now : Date) (token : string)
| DuplicateInvoice (uid id : Id) (now : Date).

End Desk.
Unset Maximal Implicit Insertion.
Unset Implicit Arguments.
Arguments DeleteInvoice {num} uid id.
Arguments SendInvoice {num} uid id.
Arguments RemindInvoice {num} uid id now.
Arguments EmailInvoice {num} uid id type now.
Arguments SweepOverdue {num} uid now.
Arguments PayOnline {num} id body now token.
Arguments DuplicateInvoice {num} uid id now.
End Desk.
Export Desk.

Abbreviation PaymentPage := (Desk.PaymentPage num).
Abbreviation Request := (Desk.Request num).

Section Handlers.
Context {A : Arith}.
Local Open Scope num_scope.

(** [DELETE /api/invoices/:id]: the payments are deleted first, then the
    invoice; its lines go with it (the relation cascades). *)
Definition deleteInvoice (db : Store) (uid id : Id) : Store * Response bool :=
  match findOwnedInvoice db id uid with
  | None => (db, notFound "Invoice not found")
  | Some existing =>
      let db1 :=
        setPayments db
          (filter (fun p => negb (N.eqb (pay_invoiceId p) id)) (payments db)) in
      let db2 :=
        setInvoices db1
          (filter (fun i => negb (N.eqb (inv_id i) id)) (invoices db1)) in
      (deleteItemsOf db2 id, Ok 200 true)
  end.

(** [GET /api/invoices/:id/pay]: the public payment page. *)
Definition paymentPage (db : Store) (id : Id) : Response PaymentPage :=
  match findInvoice db id with
  | None => Error 404 "Invoice not found"
  | Some invoice =>
      if status_eqb (status invoice) cancelled then
        Error 400 "This invoice has been cancelled"
      else
        Ok 200
           {| page_id := inv_id invoice;
              page_number := number invoice;
              page_status := status invoice;
              page_issueDate := issueDate invoice;
              page_dueDate := dueDate invoice;
              page_subtotal := subtotal invoice;
              page_taxRate := taxRate invoice;
              page_tax := tax invoice;
              page_total := total invoice;
              page_currency := currency invoice;
              page_notes := notes invoice;
              page_terms := terms invoice;
              totalPaid := totalPaidOf db (inv_id invoice);
              balanceDue := balanceDueOf db invoice;
              page_items := map copyItem (itemsOf db (inv_id invoice)) |}
  end.

(** The store after a request has been served. *)
Definition serve (nc : NumberConstraint) (baseUrl : string) (db : Store)
  (r : Request) : Store :=
  match r with
  | CreateInvoice uid body => fst (createInvoice nc db uid body)
  | UpdateInvoice uid id body => fst (updateInvoice db uid id body)
  | DeleteInvoice uid id => fst (deleteInvoice db uid id)
  | SendInvoice uid id => fst (sendInvoice db uid id)
  | RemindInvoice uid id now => fst (remindInvoice db uid id now)
  | EmailInvoice uid id type now => fst (emailInvoice baseUrl db uid id type now)
  | SweepOverdue uid now => fst (checkOverdueInvoices db uid now)
  | RecordPayment uid id body now => fst (recordPayment db uid id body now)
  | PayOnline id body now token =>
      fst (processOnlinePayment db id body now token)
  | DuplicateInvoice uid id now => fst (duplicateInvoice nc db uid id now)
  end.

(** The store after a sequence of requests, served one after the other. *)
Definition run (nc : NumberConstraint) (baseUrl : string) (db : Store)
  (requests : list Request) : Store :=
  fold_left (serve nc baseUrl) requests db.

(** The session user a request is made as; the payment page has none. *)
Definition actor (r : Request) : option Id :=
  match r with
  | CreateInvoice uid _ | UpdateInvoice uid _ _ | DeleteInvoice uid _
  | SendInvoice uid _ | RemindInvoice uid _ _ | EmailInvoice uid _ _ _
  | SweepOverdue uid _ | RecordPayment uid _ _ _
  | DuplicateInvoice uid _ _ => Some uid
  | PayOnline _ _ _ _ => None
  end.

End Handlers.

(** * Payment prediction ([predictPaymentDate]) *)

Inductive RiskLevel := low | medium | high.

Module Forecast.
Section Forecast.
Variable num : Type.
Set Implicit Arguments.
Set Maximal Implicit Insertion.

(** The sentences of [reasoning], with the values they quote; [larger]
    is set when the sentence about an invoice larger than average is
    appended. *)
Inductive Reasoning :=
| NoHistory
| PaysOnTime (avgDays : num) (history : nat) (larger : bool)
| PaysLate (avgDays : num) (daysLate : num) (larger : bool)
| PaysVeryLate (avgDays : num) (larger : bool).

(** [predictedDate] is the date itself, which the program prints as its
    ISO day. *)
Record PaymentPrediction := {
  predictedDate : Date;
  pp_confidence : num;
  reasoning : Reasoning;
  avgDaysToPayForClient : num;
  riskLevel : RiskLevel
}.

End Forecast.
Unset Maximal Implicit Insertion.
Unset Implicit Arguments.
Arguments NoHistory {num}.
End Forecast.
Export Forecast.

Abbreviation Reasoning := (Forecast.Reasoning num).
Abbreviation PaymentPrediction := (Forecast.PaymentPrediction num).

Section Prediction.
Context {A : Arith}.
Local Open Scope num_scope.

(** [Math.sqrt] and [Math.pow], which the class [Arith] does not carry;
    the prediction is embedded over any pair of them. *)
Variable mathSqrt : num -> num.
Variable mathPow : num -> num -> num.

(** [Math.min] of two numbers: NaN as soon as one argument is. *)
Definition mathMin (a b : num) : num :=
  if isNaN a || isNaN b then nan
  else if b <? a then b else a.

Definition byIssueDateDesc (a b : Invoice) : Z := (issueDate b - issueDate a)%Z.

Definition byPaidAtAsc (a b : Payment) : Z := (paidAt a - paidAt b)%Z.

(** The client's paid invoices, latest issue date first, at most 20
    (invoices issued at the same instant are left in creation order). *)
Definition paidInvoices (db : Store) (uid cid : Id) : list Invoice :=
  firstn 20
    (sortBy byIssueDateDesc
       (filter (fun i => N.eqb (userId i) uid && N.eqb (clientId i) cid
                         && status_eqb (status i) paid)
               (invoices db))).

(** The days between the issue of an invoice and its earliest payment,
    if it has one. *)
Definition delayOf (db : Store) (inv : Invoice) : option num :=
  match sortBy byPaidAtAsc (paymentsOf db (inv_id inv)) with
  | [] => None
  | first :: _ =>
      Some (mathMax (ofZ 0)
              ((ofZ (paidAt first) - ofZ (issueDate inv)) / ofZ msPerDay))
  end.

Definition paymentDelays (db : Store) (invs : list Invoice) : list num :=
  flat_map (fun inv => match delayOf db inv with
                       | Some days => [days]
                       | None => []
                       end) invs.

(** The [forEach] of the weighted average: the entry at [index] weighs
    [length - index]; the pair is [(weightedSum, totalWeight)]. *)
Fixpoint weigh (delays : list num) (weight : nat) (acc : num * num)
  : num * num :=
  match delays with
  | [] => acc
  | days :: rest =>
      weigh rest (pred weight)
        (fst acc + days * ofZ (Z.of_nat weight),
         snd acc + ofZ (Z.of_nat weight))
  end.

Definition predictPaymentDate (db : Store) (uid cid : Id) (invoiceTotal : num)
  (dueDate : Date) (now : Date) : PaymentPrediction :=
  let clientInvoices := paidInvoices db uid cid in
  let delays := paymentDelays db clientInvoices in
  match delays with
  | [] =>
      {| predictedDate := addDays dueDate 3;
         pp_confidence := ofZ 30;
         reasoning := NoHistory;
         avgDaysToPayForClient := ofZ 0;
         riskLevel := medium |}
  | _ :: _ =>
      let n := ofZ (Z.of_nat (List.length delays)) in
      let (weightedSum, totalWeight) :=
        weigh delays (List.length delays) (ofZ 0, ofZ 0) in
      let avgDays := round (weightedSum / totalWeight) in
      let mean := sumAmounts delays / n in
      let variance :=
        fold_left (fun sum d => sum + mathPow (d - mean) (ofZ 2)) delays (ofZ 0)
        / n in
      let stdDev := mathSqrt variance in
      let consistency := mathMax (ofZ 0) (ofZ 100 - stdDev * ofZ 5) in
      let historyBonus :=
        mathMin (ofZ 20) (ofZ (Z.of_nat (List.length delays) * 4)) in
      let confidence :=
        mathMin (ofZ 95) (round (consistency * dec 7 1 + historyBonus)) in
      let predicted := addDays now (toZ avgDays) in
      let anchored := if (predicted <? dueDate)%Z then dueDate else predicted in
      let daysAfterDue := (ofZ anchored - ofZ dueDate) / ofZ msPerDay in
      let avgInvoiceTotal :=
        sumAmounts (map total clientInvoices)
        / ofZ (Z.of_nat (List.length clientInvoices)) in
      let larger := invoiceTotal >? avgInvoiceTotal * dec 15 1 in
      {| predictedDate := if larger then addDays anchored 3 else anchored;
         pp_confidence := confidence;
         reasoning :=
           if daysAfterDue <=? ofZ 0 then
             PaysOnTime avgDays (List.length delays) larger
           else if daysAfterDue <=? ofZ 14 then
             PaysLate avgDays (round daysAfterDue) larger
           else PaysVeryLate avgDays larger;
         avgDaysToPayForClient := round mean;
         riskLevel :=
           if daysAfterDue <=? ofZ 0 then low
           else if daysAfterDue <=? ofZ 14 then medium
           else high |}
  end.

End Prediction.

(** * Vocabulary of the properties *)

Section Vocabulary.
Context {A : Arith}.
Local Open Scope num_scope.

(** What [recordPayment] takes as already paid. *)
Definition cumulativePaid (db : Store) (id : Id) : num :=
  orZero (aggregateSum (map pay_amount (paymentsOf db id))).

(** The status the store holds for an invoice. *)
Definition statusOf (db : Store) (id : Id) : option InvoiceStatus :=
  option_map status (findInvoice db id).

(** The row an accepted payment is stored as. *)
Definition paymentRow (db : Store) (id : Id) (body : PaymentInput) (now : Date)
  : Payment :=
  {| pay_id := freshId (map pay_id (payments db));
     pay_invoiceId := id;
     pay_amount := pi_amount body;
     method := pi_method body;
     gateway := defaultGateway;
     gatewayPaymentId := None;
     reference := orNull (pi_reference body);
     pay_status := defaultPaymentStatus;
     paidAt := writtenDate (pi_paidAt body) now |}.

(** The row an online payment is stored as. *)
Definition onlinePaymentRow (db : Store) (id : Id) (inv : Invoice)
  (body : PayInput) (now : Date) (token : string) : Payment :=
  {| pay_id := freshId (map pay_id (payments db));
     pay_invoiceId := id;
     pay_amount := balanceDueOf db inv;
     method := orElse (truthy (pay_method body)) "credit_card";
     gateway := "online";
     gatewayPaymentId := Some (mockGatewayId now token);
     reference :=
       Some ("Online payment by "
             ++ match truthy (payerName body) with
                | Some n => n
                | None =>
                    match findClient db (clientId inv) with
                    | Some c => client_name c
                    | None => EmptyString
                    end
                end)%string;
     pay_status := "completed";
     paidAt := now |}.

(** An invoice with another status and nothing else changed. *)
Definition withStatus (s : InvoiceStatus) (i : Invoice) : Invoice :=
  {| inv_id := inv_id i; number := number i; status := s;
     issueDate := issueDate i; dueDate := dueDate i;
     subtotal := subtotal i; taxRate := taxRate i; tax := tax i;
     total := total i; notes := notes i; terms := terms i;
     currency := currency i; clientId := clientId i; userId := userId i;
     reminderCount := reminderCount i;
     lastRemindedAt := lastRemindedAt i; paymentLink := paymentLink i |}.

(** The sweep's [where] clause, as a proposition. *)
Definition dueFor (uid : Id) (now : Date) (i : Invoice) : Prop :=
  userId i = uid /\ status i = sent /\ (dueDate i < now)%Z.

(** Sent invoices of the owner that fall due between two clock readings. *)
Definition becameDue (uid : Id) (now now' : Date) (i : Invoice) : bool :=
  N.eqb (userId i) uid && status_eqb (status i) sent
  && (now <=? dueDate i)%Z && (dueDate i <? now')%Z.

(** The primary key of the invoice table. *)
Definition uniqueIds (db : Store) : Prop := NoDup (map inv_id (invoices db)).

Definition terminal (i : Invoice) : Prop :=
  status i = paid \/ status i = cancelled.

(** The stored fields of an invoice agree with its lines: every amount
    is quantity times rate, the subtotal is the sum of the amounts, the
    tax is the subtotal times a hundredth of the rate, the total is
    subtotal plus tax; all in the arithmetic of the program. *)
Definition totalsHold (inv : Invoice) (its : list InvoiceItem) : Prop :=
  Forall (fun it => amount it = quantity it * rate it) its
  /\ subtotal inv = sumAmounts (map amount its)
  /\ tax inv = subtotal inv * (taxRate inv / ofZ 100)
  /\ total inv = subtotal inv + tax inv.

(** Every line belongs to an invoice of the table (the relation the
    store enforces). *)
Definition itemsBelong (db : Store) : Prop :=
  forall it, In it (items db) ->
             exists i, In i (invoices db) /\ inv_id i = invoiceId it.

Definition totalsStored (db : Store) : Prop :=
  itemsBelong db
  /\ forall i, In i (invoices db) -> totalsHold i (itemsOf db (inv_id i)).

(** A stored line, read back as the request line it came from. *)
Definition lineOf (it : InvoiceItem) : ItemInput :=
  {| in_description := description it;
     in_quantity := quantity it;
     in_rate := rate it |}.

(** The query of the duplicate check, as a proposition: an invoice of
    the owner and the client, not cancelled, issued within 30 days of
    the candidate's issue date. *)
Definition inWindowOf (uid cid : Id) (candidateDate : Date) (i : Invoice)
  : Prop :=
  userId i = uid /\ clientId i = cid /\ status i <> cancelled
  /\ (addDays candidateDate (-30) <= issueDate i <= addDays candidateDate 30)%Z.

(** The highest of the scores that reach 30, and 0 when none does. *)
Definition highestKept (scores : list Z) : Z :=
  fold_right Z.max 0%Z (filter (fun s => (30 <=? s)%Z) scores).

(** The similarity of the first entry of a list, 0 for the empty list:
    [similarInvoices[0]?.similarity || 0]. *)
Definition headSimilarity (l : list SimilarInvoice) : Z :=
  match l with s :: _ => similarity s | [] => 0%Z end.

(** The lines of the client's 50 most recent invoices: the history the
    client-specific suggestions are drawn from. *)
Definition clientLines (db : Store) (uid cid : Id) : list InvoiceItem :=
  flat_map (fun inv => itemsOf db (inv_id inv)) (clientInvoices db uid cid).

(** Every entry of the map is named after one of the given lines. *)
Definition described (lines : list InvoiceItem) (m : ObjectMap) : Prop :=
  forall k e, In (k, e) m ->
              exists it, In it lines /\ description it = e_description e.

(** Every payment belongs to an invoice of the table. *)
Definition paymentsBelong (db : Store) : Prop :=
  forall p, In p (payments db) ->
            exists i, In i (invoices db) /\ inv_id i = pay_invoiceId p.

End Vocabulary.

Section Soundness.
Context {A : Arith}.
Local Open Scope num_scope.

(** The primary keys of the three tables the handlers write. *)
Definition keysUnique (db : Store) : Prop :=
  NoDup (map inv_id (invoices db))
  /\ NoDup (map item_id (items db))
  /\ NoDup (map pay_id (payments db)).

(** No stored payment is of an amount the program takes as [<= 0]. *)
Definition positivePayments (db : Store) : Prop :=
  forall p, In p (payments db) -> (pay_amount p <=? ofZ 0) = false.

(** The status changes a request may make to an invoice that exists:
    none, or the one its handler writes. *)
Definition transition (r : Request) (s s' : InvoiceStatus) : Prop :=
  s' = s
  \/ match r with
     | SendInvoice _ _ | EmailInvoice _ _ invoiceEmail _ =>
         s = draft /\ s' = sent
     | SweepOverdue _ _ => s = sent /\ s' = overdue
     | RecordPayment _ _ _ _ => s' = paid
     | PayOnline _ _ _ _ => s <> cancelled /\ s' = paid
     | UpdateInvoice _ _ body => u_status body = Some s'
     | _ => False
     end.

(** The lines of the owner's 100 most recent invoices: the history the
    user-wide suggestions are drawn from. *)
Definition ownerLines (db : Store) (uid : Id) : list InvoiceItem :=
  flat_map (fun inv => itemsOf db (inv_id inv)) (allInvoices db uid).

(** The lines of a history that go by a description, up to case and
    surrounding white space. *)
Definition linesLike (d : string) (lines : list InvoiceItem)
  : list InvoiceItem :=
  filter (fun it => String.eqb (itemKey it) (trim (toLowerCase d))) lines.

(** A line whose description, once lower-cased and trimmed, is a name
    every object inherits. *)
Definition namedLikeObject (it : InvoiceItem) : bool :=
  inheritedKey (itemKey it).

(** What two descriptions must share to be counted as one item. *)
Definition suggestionKey (s : LineItemSuggestion) : string :=
  trim (toLowerCase (s_description s)).

(** An answer 500: the handler's [catch], after the store has refused a
    write. *)
Definition refusedByStore {T} (r : Response T) : bool :=
  match r with
  | Error code _ => (code =? 500)%Z
  | Ok _ _ => false
  end.

(** An update that carries new lines and is answered 500: the store has
    refused its second statement, after the first has deleted the lines
    of the invoice. *)
Definition tornUpdate (db : Store) (r : Request) : bool :=
  match r with
  | UpdateInvoice uid id body =>
      match u_items body with
      | Some _ => refusedByStore (snd (updateInvoice db uid id body))
      | None => false
      end
  | _ => false
  end.

(** What a refused [invoice.update] leaves of an update that carries
    lines: the invoice without lines. *)
Definition torn (db db' : Store) (id : Id) (body : UpdateInvoiceInput)
  (r : Response (Invoice * list InvoiceItem)) : Prop :=
  exists lines message,
    u_items body = Some lines
    /\ db' = deleteItemsOf db id
    /\ r = Error 500 message.

(** No request of the sequence is such an update, each taken on the
    store the requests before it have left. *)
Fixpoint noneTorn (nc : NumberConstraint) (baseUrl : string) (db : Store)
  (requests : list Request) : Prop :=
  match requests with
  | [] => True
  | r :: rest =>
      tornUpdate db r = false /\ noneTorn nc baseUrl (serve nc baseUrl db r) rest
  end.

(** The store with its clients handed to other owners. *)
Definition reassignClients (f : Client -> Id) (db : Store) : Store :=
  {| users := users db;
     clients :=
       map (fun c => {| client_id := client_id c;
                        client_userId := f c;
                        client_name := client_name c;
                        client_email := client_email c |}) (clients db);
     invoices := invoices db;
     items := items db;
     payments := payments db |}.

(** The patch that writes nothing. *)
Definition emptyPatch : InvoicePatch :=
  {| p_clientId := None; p_issueDate := None; p_dueDate := None;
     p_notes := None; p_terms := None; p_currency := None;
     p_status := None; p_subtotal := None; p_tax := None;
     p_taxRate := None; p_total := None; p_reminderCount := None;
     p_lastRemindedAt := None; p_paymentLink := None |}.

(** What an invoice says: its number, owner and client, its dates, its
    money, its notes, terms and currency. *)
Definition contentOf (i : Invoice) :=
  (number i, userId i, clientId i, (issueDate i, dueDate i),
   (subtotal i, taxRate i, tax i, total i), (notes i, terms i, currency i)).

(** A request that rewrites invoice rows in place and at most appends
    one payment. *)
Definition light (r : Request) : bool :=
  match r with
  | SendInvoice _ _ | RemindInvoice _ _ _ | EmailInvoice _ _ _ _
  | SweepOverdue _ _ | RecordPayment _ _ _ _ | PayOnline _ _ _ _ => true
  | _ => false
  end.

(** A rewriting of rows that leaves their key, owner and money alone. *)
Definition moneyKept (f : Invoice -> Invoice) : Prop :=
  forall i, inv_id (f i) = inv_id i /\ userId (f i) = userId i
            /\ subtotal (f i) = subtotal i /\ taxRate (f i) = taxRate i
            /\ tax (f i) = tax i /\ total (f i) = total i.

(** What a payment appended by a handler looks like. *)
Definition appended (db : Store) (extra : list Payment) : Prop :=
  extra = []
  \/ exists p, extra = [p]
               /\ pay_id p = freshId (map pay_id (payments db))
               /\ (exists i, In i (invoices db) /\ inv_id i = pay_invoiceId p)
               /\ (pay_amount p <=? ofZ 0) = false.

Definition rewritten (db db' : Store) : Prop :=
  exists f extra,
    moneyKept f
    /\ invoices db' = map f (invoices db)
    /\ items db' = items db
    /\ users db' = users db
    /\ clients db' = clients db
    /\ payments db' = (payments db ++ extra)%list
    /\ appended db extra.

(** The three invariants that do not depend on the amounts, together. *)
Definition wellKeyed (db : Store) : Prop :=
  keysUnique db /\ itemsBelong db /\ paymentsBelong db.

(** A patch that writes none of what an invoice says: only its status,
    its reminder columns or its payment link. *)
Definition plain (p : InvoicePatch) : Prop :=
  p_clientId p = None /\ p_issueDate p = None /\ p_dueDate p = None
  /\ p_notes p = None /\ p_terms p = None /\ p_currency p = None
  /\ p_subtotal p = None /\ p_tax p = None /\ p_taxRate p = None
  /\ p_total p = None.

(** The patch that only stores the payment link. *)
Definition linkPatch (link : string) : InvoicePatch :=
  {| p_clientId := None; p_issueDate := None; p_dueDate := None;
     p_notes := None; p_terms := None; p_currency := None;
     p_status := None; p_subtotal := None; p_tax := None;
     p_taxRate := None; p_total := None; p_reminderCount := None;
     p_lastRemindedAt := None; p_paymentLink := Some link |}.




(** The entry of a key sums up the lines of that key: named after the
    first of them, with their rates (and quantities) in order and their
    number. *)
Definition summarises (keep : bool) (g : list InvoiceItem) (e : Entry) : Prop :=
  exists first rest,
    g = first :: rest
    /\ e_description e = description first
    /\ rates e = map rate g
    /\ quantities e = (if keep then map quantity g else [])
    /\ count e = Z.of_nat (List.length g).

Definition sameKey (k : string) (it : InvoiceItem) : bool :=
  String.eqb (itemKey it) k.

Definition grouped (keep : bool) (lines : list InvoiceItem) (m : ObjectMap)
  : Prop :=
  NoDup (map fst m)
  /\ (forall k e, In (k, e) m ->
                  inheritedKey k = false
                  /\ summarises keep (filter (sameKey k) lines) e)
  /\ (forall it, In it lines -> In (itemKey it) (map fst m)).

(** How an entry becomes a suggestion: both ways of the program keep the
    description and report the count as the frequency. *)
Definition faithful (mk : Entry -> LineItemSuggestion) : Prop :=
  forall e, s_description (mk e) = e_description e /\ frequency (mk e) = count e.

End Soundness.

(** The totals as the specification states them: each stored field
    against its formula read in exact arithmetic, within 0.01. *)
Definition withinCents (x : @num Binary64) (q : Q) : bool :=
  negb (Qle_bool (1 # 100) (Qabs (F64.to_Q x - q))).

Definition totalsClaimed (inv : Rows.Invoice (@num Binary64))
  (its : list (Rows.InvoiceItem (@num Binary64))) : bool :=
  forallb (fun it => withinCents (amount it)
                       (F64.to_Q (quantity it) * F64.to_Q (rate it))) its
  && withinCents (subtotal inv)
       (fold_left Qplus (map (fun it => F64.to_Q (amount it)) its) 0%Q)
  && withinCents (tax inv)
       (F64.to_Q (subtotal inv) * F64.to_Q (taxRate inv) / 100)
  && withinCents (total inv) (F64.to_Q (subtotal inv) + F64.to_Q (tax inv)).

(** * Scenarios

    Concrete stores in binary64, for the worked examples.  The ledger
    mirrors the seeded account: the owner's [invoiceCounter] is 15 and
    the last invoice is INV-015. *)

Definition seedStore : Store :=
  {| users := [{| user_id := 1%N; invoiceCounter := 15 |}];
     clients :=
       [{| client_id := 1%N; client_userId := 1%N;
           client_name := "Acme"; client_email := "billing@acme.test" |};
        {| client_id := 2%N; client_userId := 1%N;
           client_name := "Globex"; client_email := "pay@globex.test" |}];
     invoices :=
       [{| inv_id := 1%N; number := "INV-015"; status := sent;
           issueDate := 0; dueDate := 30 * msPerDay;
           subtotal := ofZ 125; taxRate := ofZ 10;
           tax := dec 125 1; total := dec 1375 1;
           notes := None; terms := None; currency := "USD";
           clientId := 1%N; userId := 1%N;
           reminderCount := 0; lastRemindedAt := None;
           paymentLink := None |}];
     items :=
       [{| item_id := 1%N; invoiceId := 1%N; description := "Design";
           quantity := ofZ 2; rate := ofZ 50; amount := ofZ 100 |};
        {| item_id := 2%N; invoiceId := 1%N; description := "Review";
           quantity := ofZ 1; rate := ofZ 25; amount := ofZ 25 |}];
     payments := [] |}.

(** A request for a sent invoice of one line, for client [cid]. *)
Definition oneLine (cid : Id) (d : string) (q r : @num Binary64)
  : CreateInvoiceInput :=
  {| c_clientId := cid; c_issueDate := dateOf 0;
     c_dueDate := dateOf (30 * msPerDay);
     c_notes := None; c_terms := None; c_currency := None;
     c_taxRate := None; c_status := Some sent;
     c_items := [{| in_description := d; in_quantity := q; in_rate := r |}] |}.

(** One line of 10^16 (ten quadrillion) at a tax rate of 7%. *)
Definition tenQuadrillion : CreateInvoiceInput :=
  {| c_clientId := 1%N; c_issueDate := dateOf 0;
     c_dueDate := dateOf (30 * msPerDay);
     c_notes := None; c_terms := None; c_currency := None;
     c_taxRate := Some (ofZ 7); c_status := None;
     c_items := [{| in_description := "Fleet"; in_quantity := ofZ 1;
                    in_rate := ofZ (10 ^ 16) |}] |}.

Definition payBy (a : @num Binary64) : PaymentInput :=
  {| pi_amount := a; pi_method := "cash";
     pi_reference := None; pi_paidAt := None |}.

(** An update that writes nothing. *)
Definition noChange : UpdateInvoiceInput :=
  {| u_clientId := None; u_issueDate := None; u_dueDate := None;
     u_notes := None; u_terms := None; u_currency := None;
     u_taxRate := None; u_status := None; u_items := None |}.

Definition changeTaxRate (r : @num Binary64) : UpdateInvoiceInput :=
  {| u_clientId := None; u_issueDate := None; u_dueDate := None;
     u_notes := None; u_terms := None; u_currency := None;
     u_taxRate := Some r; u_status := None; u_items := None |}.

Definition changeStatus (s : InvoiceStatus) : UpdateInvoiceInput :=
  {| u_clientId := None; u_issueDate := None; u_dueDate := None;
     u_notes := None; u_terms := None; u_currency := None;
     u_taxRate := None; u_status := Some s; u_items := None |}.

(** Reopen an invoice as a draft with one new line and a 50% tax rate. *)
Definition rewrite : UpdateInvoiceInput :=
  {| u_clientId := None; u_issueDate := None; u_dueDate := None;
     u_notes := None; u_terms := None; u_currency := None;
     u_taxRate := Some (ofZ 50); u_status := Some draft;
     u_items := Some [{| in_description := "Retainer";
                         in_quantity := ofZ 1; in_rate := ofZ 1 |}] |}.

(** INV-015 paid in full, through [recordPayment]. *)
Definition paidStore : Store :=
  fst (recordPayment seedStore 1%N 1%N (payBy (dec 1375 1)) 1000).

(** INV-015 cancelled, through [updateInvoice]. *)
Definition cancelledStore : Store :=
  fst (updateInvoice seedStore 1%N 1%N (changeStatus cancelled)).

(** INV-015 with 100 of its 137.50 paid. *)
Definition partPaidStore : Store :=
  fst (recordPayment seedStore 1%N 1%N (payBy (ofZ 100)) 1000).

(** The same ledger with INV-015 cancelled afterwards. *)
Definition cancelledPartPaid : Store :=
  fst (updateInvoice partPaidStore 1%N 1%N (changeStatus cancelled)).

(** A cash payment of 10 whose [paidAt] is a string that is no date. *)
Definition undated : PaymentInput :=
  {| pi_amount := ofZ 10; pi_method := "cash";
     pi_reference := None; pi_paidAt := Some noDate |}.

(** A second invoice, INV-016 for 0.82, made by [createInvoice]. *)
Definition centsInvoiced : Store :=
  fst (createInvoice NoConstraint seedStore 1%N
         (oneLine 1%N "Hosting" (ofZ 1) (dec 82 2))).

(** ... of which 0.30 has been paid. *)
Definition centsLedger : Store :=
  fst (recordPayment centsInvoiced 1%N 2%N (payBy (dec 3 1)) 1000).

(** A second invoice for 2^46 + 2^-6 = 70368744177664.015625, of which
    2^-7 = 0.0078125 has been paid. *)
Definition largeTotal : @num Binary64 := (ofZ (2 ^ 52 + 1) / ofZ 64)%num.

Definition largeLedger : Store :=
  fst (recordPayment
         (fst (createInvoice NoConstraint seedStore 1%N
                 (oneLine 1%N "Fleet" (ofZ 1) largeTotal)))
         1%N 2%N (payBy (dec 78125 7)) 1000).

(** A second invoice, for the other client: three hours of hosting at 10. *)
Definition twoClients : Store :=
  fst (createInvoice NoConstraint seedStore 1%N
         (oneLine 2%N "Hosting" (ofZ 3) (ofZ 10))).

Definition anyPayer : PayInput :=
  {| pay_method := None; payerEmail := None; payerName := None |}.

(** The seeded ledger next to the account of a second user, who has one
    client and one draft invoice (INV-001, two days of consulting). *)
Definition twoTenants : Store :=
  {| users := users seedStore ++ [{| user_id := 2%N; invoiceCounter := 1 |}];
     clients :=
       clients seedStore
       ++ [{| client_id := 3%N; client_userId := 2%N;
              client_name := "Initech"; client_email := "ap@initech.test" |}];
     invoices :=
       invoices seedStore
       ++ [{| inv_id := 2%N; number := "INV-001"; status := draft;
              issueDate := 0; dueDate := 14 * msPerDay;
              subtotal := ofZ 800; taxRate := ofZ 0;
              tax := ofZ 0; total := ofZ 800;
              notes := None; terms := None; currency := "USD";
              clientId := 3%N; userId := 2%N;
              reminderCount := 0; lastRemindedAt := None;
              paymentLink := None |}];
     items :=
       items seedStore
       ++ [{| item_id := 3%N; invoiceId := 2%N; description := "Consulting";
              quantity := ofZ 2; rate := ofZ 400; amount := ofZ 800 |}];
     payments := [] |}.

(** A day at the desk of the seeded account: a new invoice, a part
    payment, a send, a sweep after the due date, a copy, a deletion and
    an online payment of the rest. *)
Definition busyDay : list Request :=
  [ CreateInvoice 1%N (oneLine 2%N "Hosting" (ofZ 3) (ofZ 10));
    RecordPayment 1%N 1%N (payBy (ofZ 100)) 1000;
    SendInvoice 1%N 2%N;
    SweepOverdue 1%N (40 * msPerDay);
    DuplicateInvoice 1%N 1%N 5000;
    DeleteInvoice 1%N 2%N;
    PayOnline 1%N anyPayer 6000 "k3x9" ].

(** The same day, and then INV-015 rewritten by its owner. *)
Definition busyWeek : list Request :=
  busyDay ++ [UpdateInvoice 1%N 1%N rewrite].

Definition localhost : string := "http://localhost:3000".

(** An update that replaces the lines by one and moves the invoice to a
    client that does not exist. *)
Definition moveToNowhere : UpdateInvoiceInput :=
  {| u_clientId := Some 99%N; u_issueDate := None; u_dueDate := None;
     u_notes := None; u_terms := None; u_currency := None;
     u_taxRate := None; u_status := None;
     u_items := Some [{| in_description := "Retainer";
                         in_quantity := ofZ 1; in_rate := ofZ 1 |}] |}.

(** An update whose one line overflows: 2^1023 (about 9 * 10^307) units
    at 10 each. *)
Definition overflowing : UpdateInvoiceInput :=
  {| u_clientId := None; u_issueDate := None; u_dueDate := None;
     u_notes := None; u_terms := None; u_currency := None;
     u_taxRate := None; u_status := None;
     u_items := Some [{| in_description := "Fleet";
                         in_quantity := FloatOps.Z.ldexp PrimFloat.one 1023;
                         in_rate := ofZ 10 |}] |}.

(** * Properties *)

Section Reconciliation.
Context {A : Arith}.
Local Open Scope num_scope.

Lemma findInvoice_updateInvoiceRow (db : Store) (id : Id) (p : InvoicePatch) :
  findInvoice (updateInvoiceRow db id p) id
  = option_map (applyPatch p) (findInvoice db id).
Proof.
  unfold findInvoice, updateInvoiceRow; simpl.
  induction (invoices db) as [|i l IH]; simpl; [reflexivity|].
  destruct (N.eqb (inv_id i) id) eqn:E; simpl.
  - rewrite E. reflexivity.
  - rewrite E. exact IH.
Qed.

Lemma findInvoice_setPayments (db : Store) (l : list Payment) (id : Id) :
  findInvoice (setPayments db l) id = findInvoice db id.
Proof. reflexivity. Qed.

Lemma recordPayment_not_found (db : Store) (uid id : Id) (body : PaymentInput)
  (now : Date) :
  findOwnedInvoice db id uid = None ->
  recordPayment db uid id body now = (db, notFound "Invoice not found").
Proof. intros H. unfold recordPayment. rewrite H. reflexivity. Qed.

Lemma recordPayment_invalid (db : Store) (uid id : Id) (body : PaymentInput)
  (now : Date) (inv : Invoice) (message : string) :
  findOwnedInvoice db id uid = Some inv ->
  createPaymentSchema body = Some message ->
  recordPayment db uid id body now = (db, badRequest message).
Proof. intros H V. unfold recordPayment. rewrite H, V. reflexivity. Qed.

Lemma recordPayment_overpaid (db : Store) (uid id : Id) (body : PaymentInput)
  (now : Date) (inv : Invoice) :
  findOwnedInvoice db id uid = Some inv ->
  createPaymentSchema body = None ->
  (cumulativePaid db id + pi_amount body >? total inv) = true ->
  recordPayment db uid id body now
  = (db, badRequest "Payment amount exceeds remaining balance").
Proof.
  intros H V O. unfold recordPayment. rewrite H, V.
  unfold cumulativePaid in O. rewrite O. reflexivity.
Qed.

Lemma recordPayment_no_date (db : Store) (uid id : Id) (body : PaymentInput)
  (now : Date) (inv : Invoice) :
  findOwnedInvoice db id uid = Some inv ->
  createPaymentSchema body = None ->
  (cumulativePaid db id + pi_amount body >? total inv) = false ->
  dateOr (pi_paidAt body) = false ->
  recordPayment db uid id body now = (db, Error 500 invalidValue).
Proof.
  intros H V O D. unfold recordPayment. rewrite H, V.
  unfold cumulativePaid in *. rewrite O, D. reflexivity.
Qed.

Lemma recordPayment_accepted (db : Store) (uid id : Id) (body : PaymentInput)
  (now : Date) (inv : Invoice) :
  findOwnedInvoice db id uid = Some inv ->
  createPaymentSchema body = None ->
  (cumulativePaid db id + pi_amount body >? total inv) = false ->
  dateOr (pi_paidAt body) = true ->
  recordPayment db uid id body now
  = ((if nabs (cumulativePaid db id + pi_amount body - total inv) <? dec 1 2
      then updateInvoiceRow
             (setPayments db (payments db ++ [paymentRow db id body now]))
             id (setStatus paid)
      else setPayments db (payments db ++ [paymentRow db id body now])),
     Ok 201 (paymentRow db id body now)).
Proof.
  intros H V O D. unfold recordPayment. rewrite H, V.
  unfold cumulativePaid in *. rewrite O, D. reflexivity.
Qed.

(** The four ways a request for an invoice of the caller can go. *)
Lemma recordPayment_cases (db : Store) (uid id : Id) (body : PaymentInput)
  (now : Date) (inv : Invoice) :
  findOwnedInvoice db id uid = Some inv ->
  (exists message, recordPayment db uid id body now = (db, Error 400 message))
  \/ recordPayment db uid id body now = (db, Error 500 invalidValue)
  \/ (createPaymentSchema body = None
      /\ (cumulativePaid db id + pi_amount body >? total inv) = false
      /\ dateOr (pi_paidAt body) = true
      /\ recordPayment db uid id body now
         = ((if nabs (cumulativePaid db id + pi_amount body - total inv)
                <? dec 1 2
             then updateInvoiceRow
                    (setPayments db
                       (payments db ++ [paymentRow db id body now]))
                    id (setStatus paid)
             else setPayments db (payments db ++ [paymentRow db id body now])),
            Ok 201 (paymentRow db id body now))).
Proof.
  intros F.
  destruct (createPaymentSchema body) as [m|] eqn:V.
  { left. exists m. exact (recordPayment_invalid db uid id body now inv m F V). }
  destruct (cumulativePaid db id + pi_amount body >? total inv) eqn:O.
  { left. eexists. exact (recordPayment_overpaid db uid id body now inv F V O). }
  destruct (dateOr (pi_paidAt body)) eqn:D.
  - right. right. repeat split; try reflexivity.
    exact (recordPayment_accepted db uid id body now inv F V O D).
  - right. left. exact (recordPayment_no_date db uid id body now inv F V O D).
Qed.

Lemma createPaymentSchema_rejects_nonpositive (body : PaymentInput) :
  (pi_amount body <=? ofZ 0) = true ->
  exists message, createPaymentSchema body = Some message.
Proof.
  intros H. unfold createPaymentSchema, zNumber, zPositive. cbn [firstIssue].
  destruct (isNaN (pi_amount body)); [eauto|].
  rewrite H. eauto.
Qed.

(** C2. [recordPayment] refuses a request whose amount is at most 0, and
    one whose amount added to what is already paid exceeds the invoice
    total (with the message "Payment amount exceeds remaining balance"
    when the request passed validation); whatever the reason of a
    refusal, the store is returned as it was: no payment row is added
    and no invoice is touched. *)
Theorem C2_recordPayment_rejects (db : Store) (uid id : Id)
  (body : PaymentInput) (now : Date) (inv : Invoice) :
  findOwnedInvoice db id uid = Some inv ->
  ((pi_amount body <=? ofZ 0) = true ->
   exists message, recordPayment db uid id body now = (db, Error 400 message))
  /\ ((cumulativePaid db id + pi_amount body >? total inv) = true ->
      (exists message,
          recordPayment db uid id body now = (db, Error 400 message))
      /\ (createPaymentSchema body = None ->
          recordPayment db uid id body now
          = (db, Error 400 "Payment amount exceeds remaining balance")))
  /\ (forall db' code message,
         recordPayment db uid id body now = (db', Error code message) ->
         db' = db).
Proof.
  intros Hfind. repeat split.
  - intros Hle. destruct (createPaymentSchema_rejects_nonpositive body Hle) as [m V].
    exists m. exact (recordPayment_invalid db uid id body now inv m Hfind V).
  - destruct (createPaymentSchema body) as [m|] eqn:V.
    + exists m. exact (recordPayment_invalid db uid id body now inv m Hfind V).
    + eexists. exact (recordPayment_overpaid db uid id body now inv Hfind V H).
  - intros V. exact (recordPayment_overpaid db uid id body now inv Hfind V H).
  - intros db' code message R.
    destruct (recordPayment_cases db uid id body now inv Hfind)
      as [[m E] | [E | (_ & _ & _ & E)]]; rewrite E in R.
    + inversion R. reflexivity.
    + inversion R. reflexivity.
    + inversion R.
Qed.

Lemma findOwnedInvoice_found (db : Store) (uid id : Id) (inv : Invoice) :
  findOwnedInvoice db id uid = Some inv ->
  exists row, findInvoice db id = Some row.
Proof.
  unfold findOwnedInvoice, findInvoice.
  induction (invoices db) as [|i l IH]; simpl; [discriminate|].
  destruct (N.eqb (inv_id i) id); simpl.
  - intros _. eauto.
  - exact IH.
Qed.

Lemma statusOf_marked (db : Store) (id : Id) (s : InvoiceStatus)
  (row : Invoice) :
  findInvoice db id = Some row ->
  statusOf (updateInvoiceRow db id (setStatus s)) id = Some s.
Proof.
  intros H. unfold statusOf.
  rewrite findInvoice_updateInvoiceRow, H. reflexivity.
Qed.

Lemma createPaymentSchema_passes (body : PaymentInput) :
  createPaymentSchema body = None <->
  isNaN (pi_amount body) = false
  /\ (pi_amount body <=? ofZ 0) = false
  /\ In (pi_method body) paymentMethods.
Proof.
  assert (existsb (String.eqb (pi_method body)) paymentMethods = true
          <-> In (pi_method body) paymentMethods) as Hmem.
  { rewrite existsb_exists. split.
    - intros [m [Hin Heq]]. apply String.eqb_eq in Heq. subst m. exact Hin.
    - intros Hin. exists (pi_method body). split; [exact Hin|].
      apply String.eqb_refl. }
  unfold createPaymentSchema, zNumber, zPositive.
  remember (existsb (String.eqb (pi_method body)) paymentMethods) as known.
  clear Heqknown. cbn [firstIssue].
  destruct (isNaN (pi_amount body)).
  { split; [discriminate | intros [H _]; discriminate]. }
  destruct (pi_amount body <=? ofZ 0).
  { split; [discriminate | intros [_ [H _]]; discriminate]. }
  destruct known.
  - split; [|reflexivity]. intros _. repeat split. apply Hmem. reflexivity.
  - split; [discriminate|]. intros [_ [_ Hin]].
    apply Hmem in Hin. discriminate.
Qed.

Lemma dateOr_spec (o : option DateString) :
  dateOr o = true <-> o <> Some noDate.
Proof.
  destruct o as [[d|]|]; simpl; split; intros H;
    try discriminate; try reflexivity.
  exfalso. apply H. reflexivity.
Qed.

(** C10 (amended). [recordPayment] never looks at the invoice status.
    It answers with the stored payment exactly when the invoice exists
    for the caller, the request passes validation (a number, above 0,
    with one of the six methods), the amount does not take the payments
    above the total, and [paidAt], when given, is a date; then one row
    is added, whatever the status, and the invoice is marked paid when
    the payments are within 0.01 of the total and left as it is when
    they are not.  A request that passes the first three and whose
    [paidAt] is no date is answered 500 and stores nothing.  What counts
    as paid so far is the sum of the payments of the invoice, in the
    order they were made. *)
Theorem C10_recordPayment_ignores_status (db : Store) (uid id : Id)
  (body : PaymentInput) (now : Date) :
  (isOk (snd (recordPayment db uid id body now)) = true <->
   exists inv,
     findOwnedInvoice db id uid = Some inv
     /\ (isNaN (pi_amount body) = false
         /\ (pi_amount body <=? ofZ 0) = false
         /\ In (pi_method body) paymentMethods)
     /\ (cumulativePaid db id + pi_amount body >? total inv) = false
     /\ pi_paidAt body <> Some noDate)
  /\ (forall inv,
         findOwnedInvoice db id uid = Some inv ->
         createPaymentSchema body = None ->
         (cumulativePaid db id + pi_amount body >? total inv) = false ->
         (pi_paidAt body <> Some noDate ->
          snd (recordPayment db uid id body now)
          = Ok 201 (paymentRow db id body now)
          /\ payments (fst (recordPayment db uid id body now))
             = (payments db ++ [paymentRow db id body now])%list
          /\ statusOf (fst (recordPayment db uid id body now)) id
             = if nabs (cumulativePaid db id + pi_amount body - total inv)
                  <? dec 1 2
               then Some paid else statusOf db id)
         /\ (pi_paidAt body = Some noDate ->
             recordPayment db uid id body now = (db, Error 500 invalidValue)))
  /\ cumulativePaid db id
     = orZero
         match paymentsOf db id with
         | [] => None
         | first :: rest =>
             Some (fold_left (fun sum p => sum + pay_amount p) rest
                             (pay_amount first))
         end.
Proof.
  split; [|split].
  - split.
    + intros Hok.
      destruct (findOwnedInvoice db id uid) as [inv|] eqn:F.
      2:{ rewrite (recordPayment_not_found db uid id body now F) in Hok.
          discriminate. }
      destruct (recordPayment_cases db uid id body now inv F)
        as [[m E] | [E | (V & O & D & E)]];
        try (rewrite E in Hok; discriminate).
      exists inv. split; [reflexivity|].
      split; [apply createPaymentSchema_passes; exact V|].
      split; [exact O | apply dateOr_spec; exact D].
    + intros [inv [F [V [O D]]]]. apply createPaymentSchema_passes in V.
      apply dateOr_spec in D.
      rewrite (recordPayment_accepted db uid id body now inv F V O D).
      reflexivity.
  - intros inv F V O. split.
    + intros D. apply dateOr_spec in D.
      rewrite (recordPayment_accepted db uid id body now inv F V O D). simpl.
      split; [reflexivity|].
      destruct (findOwnedInvoice_found db uid id inv F) as [row Hrow].
      destruct (nabs (cumulativePaid db id + pi_amount body - total inv)
                <? dec 1 2); simpl.
      * split; [reflexivity|].
        apply (statusOf_marked _ id paid row).
        rewrite findInvoice_setPayments. exact Hrow.
      * split; reflexivity.
    + intros D.
      apply (recordPayment_no_date db uid id body now inv F V O).
      rewrite D. reflexivity.
  - unfold cumulativePaid, aggregateSum.
    destruct (paymentsOf db id) as [|p rest]; [reflexivity|]. simpl.
    f_equal. f_equal. generalize (pay_amount p).
    induction rest as [|q rest IH]; intros a; simpl; [reflexivity|].
    apply IH.
Qed.

(** *** The online payment *)

End Reconciliation.

Section Lifecycle.
Context {A : Arith}.
Local Open Scope num_scope.

Lemma status_eqb_eq (a b : InvoiceStatus) : status_eqb a b = true <-> a = b.
Proof. destruct a, b; simpl; split; intros H; congruence. Qed.

Lemma applyPatch_setStatus (s : InvoiceStatus) (i : Invoice) :
  applyPatch (setStatus s) i = withStatus s i.
Proof. reflexivity. Qed.

Lemma withStatus_same (i : Invoice) : withStatus (status i) i = i.
Proof. destruct i; reflexivity. Qed.

Lemma isOverdueNow_spec (uid : Id) (now : Date) (i : Invoice) :
  isOverdueNow uid now i = true <-> dueFor uid now i.
Proof.
  unfold isOverdueNow, dueFor.
  rewrite !andb_true_iff, N.eqb_eq, status_eqb_eq, Z.ltb_lt. tauto.
Qed.

Lemma isOverdueNow_marked (uid : Id) (now now' : Date) (i : Invoice) :
  isOverdueNow uid now' (if isOverdueNow uid now i
                         then applyPatch (setStatus overdue) i else i)
  = becameDue uid now now' i.
Proof.
  unfold becameDue.
  destruct (isOverdueNow uid now i) eqn:E.
  - rewrite applyPatch_setStatus. unfold isOverdueNow in *. simpl.
    apply andb_true_iff in E. destruct E as [E1 E3].
    apply andb_true_iff in E1. destruct E1 as [E1 E2].
    apply Z.ltb_lt in E3.
    rewrite E1, E2. simpl.
    assert ((now <=? dueDate i)%Z = false) as H by (apply Z.leb_gt; exact E3).
    rewrite H. reflexivity.
  - unfold isOverdueNow in *.
    destruct (N.eqb (userId i) uid); simpl in *; [|reflexivity].
    destruct (status_eqb (status i) sent); simpl in *; [|reflexivity].
    apply Z.ltb_ge in E.
    assert ((now <=? dueDate i)%Z = true) as H by (apply Z.leb_le; exact E).
    rewrite H. reflexivity.
Qed.

Lemma becameDue_same (uid : Id) (now : Date) (i : Invoice) :
  becameDue uid now now i = false.
Proof.
  unfold becameDue.
  destruct (now <=? dueDate i)%Z eqn:E.
  - apply Z.leb_le in E.
    assert ((dueDate i <? now)%Z = false) as H by (apply Z.ltb_ge; exact E).
    rewrite H. apply andb_false_r.
  - rewrite andb_false_r. reflexivity.
Qed.

Lemma filter_none {T} (f : T -> bool) (l : list T) :
  (forall x, In x l -> f x = false) -> filter f l = [].
Proof.
  induction l as [|x l IH]; simpl; intros H; [reflexivity|].
  rewrite (H x (or_introl eq_refl)). apply IH. intros y Hy. apply H. now right.
Qed.

Lemma map_fixed {T} (f : T -> T) (l : list T) :
  (forall x, In x l -> f x = x) -> map f l = l.
Proof.
  induction l as [|x l IH]; simpl; intros H; [reflexivity|].
  rewrite (H x (or_introl eq_refl)). f_equal. apply IH.
  intros y Hy. apply H. now right.
Qed.

Lemma sweep_rows (uid : Id) (now : Date) (l : list Invoice) :
  Forall2 (fun i i' => (dueFor uid now i -> i' = withStatus overdue i)
                       /\ (~ dueFor uid now i -> i' = i))
          l
          (map (fun i => if isOverdueNow uid now i
                         then applyPatch (setStatus overdue) i else i) l).
Proof.
  induction l as [|i l IH]; simpl; constructor; [|exact IH].
  destruct (isOverdueNow uid now i) eqn:E.
  - split; [intros _; apply applyPatch_setStatus|].
    intros N. exfalso. apply N. apply isOverdueNow_spec. exact E.
  - split; [|reflexivity].
    intros D. apply isOverdueNow_spec in D. congruence.
Qed.

Lemma sweep_again (uid : Id) (now now' : Date) (l : list Invoice) :
  filter (isOverdueNow uid now')
         (map (fun i => if isOverdueNow uid now i
                        then applyPatch (setStatus overdue) i else i) l)
  = map (fun i => if isOverdueNow uid now i
                  then applyPatch (setStatus overdue) i else i)
        (filter (becameDue uid now now') l).
Proof.
  induction l as [|i l IH]; simpl; [reflexivity|].
  rewrite isOverdueNow_marked.
  destruct (becameDue uid now now' i); simpl; rewrite IH; reflexivity.
Qed.

(** C7 (amended). The sweep turns exactly the owner's sent invoices that
    are due before [now] into overdue ones, leaves every other row and
    every other table as it was, and returns how many it turned.  Run
    again with the same clock reading it turns none and changes nothing;
    run again at another reading [now'] it turns exactly the owner's
    sent invoices with [now <= dueDate < now']. *)
Theorem C7_sweep_overdue (db : Store) (uid : Id) (now now' : Date) :
  let db1 := fst (checkOverdueInvoices db uid now) in
  Forall2 (fun i i' => (dueFor uid now i -> i' = withStatus overdue i)
                       /\ (~ dueFor uid now i -> i' = i))
          (invoices db) (invoices db1)
  /\ (users db1 = users db /\ clients db1 = clients db
      /\ items db1 = items db /\ payments db1 = payments db)
  /\ (forall i, isOverdueNow uid now i = true <-> dueFor uid now i)
  /\ snd (checkOverdueInvoices db uid now)
     = List.length (filter (isOverdueNow uid now) (invoices db))
  /\ checkOverdueInvoices db1 uid now = (db1, 0%nat)
  /\ snd (checkOverdueInvoices db1 uid now')
     = List.length (filter (becameDue uid now now') (invoices db)).
Proof.
  cbv zeta. unfold checkOverdueInvoices; simpl.
  split; [apply sweep_rows|].
  split; [repeat split|].
  split; [intros i; apply isOverdueNow_spec|].
  split; [reflexivity|].
  split.
  - f_equal.
    + unfold setInvoices; simpl. f_equal.
      apply map_fixed. intros x Hx.
      apply in_map_iff in Hx. destruct Hx as [i [Hi _]]. subst x.
      rewrite isOverdueNow_marked, becameDue_same. reflexivity.
    + rewrite sweep_again, length_map.
      rewrite (filter_none (becameDue uid now now)); [reflexivity|].
      intros x _. apply becameDue_same.
  - rewrite sweep_again, length_map. reflexivity.
Qed.

Lemma find_by_key (l : list Invoice) (inv : Invoice) :
  NoDup (map inv_id l) -> In inv l ->
  find (fun i => N.eqb (inv_id i) (inv_id inv)) l = Some inv.
Proof.
  induction l as [|i l IH]; simpl; intros U H; [contradiction|].
  inversion U as [|? ? Hnot U']; subst.
  destruct H as [H | H].
  - subst i. rewrite N.eqb_refl. reflexivity.
  - destruct (N.eqb (inv_id i) (inv_id inv)) eqn:E.
    + apply N.eqb_eq in E. exfalso. apply Hnot. rewrite E.
      apply in_map. exact H.
    + apply IH; assumption.
Qed.

Lemma findInvoice_unique (db : Store) (inv : Invoice) :
  uniqueIds db -> In inv (invoices db) ->
  findInvoice db (inv_id inv) = Some inv.
Proof. intros U H. apply find_by_key; assumption. Qed.

Lemma findOwnedInvoice_unique (db : Store) (uid : Id) (inv : Invoice) :
  uniqueIds db -> In inv (invoices db) ->
  findOwnedInvoice db (inv_id inv) uid
  = if N.eqb (userId inv) uid then Some inv else None.
Proof.
  unfold uniqueIds, findOwnedInvoice.
  induction (invoices db) as [|i l IH]; simpl; intros U H; [contradiction|].
  inversion U as [|? ? Hnot U']; subst.
  destruct H as [H | H].
  - subst i. rewrite N.eqb_refl. simpl.
    destruct (N.eqb (userId inv) uid) eqn:E; [reflexivity|].
    destruct (find _ l) as [j|] eqn:F; [|reflexivity].
    apply find_some in F. destruct F as [Hj Ej].
    apply andb_true_iff in Ej. destruct Ej as [Ej _].
    apply N.eqb_eq in Ej. exfalso. apply Hnot. rewrite <- Ej.
    apply in_map. exact Hj.
  - destruct (N.eqb (inv_id i) (inv_id inv)) eqn:E.
    + apply N.eqb_eq in E. exfalso. apply Hnot. rewrite E.
      apply in_map. exact H.
    + simpl. apply IH; assumption.
Qed.

Lemma terminal_not_sendable (inv : Invoice) :
  terminal inv ->
  negb (status_eqb (status inv) draft) && negb (status_eqb (status inv) sent)
  = true.
Proof. intros [H | H]; rewrite H; reflexivity. Qed.

Lemma terminal_not_remindable (inv : Invoice) :
  terminal inv ->
  negb (status_eqb (status inv) sent) && negb (status_eqb (status inv) overdue)
  = true.
Proof. intros [H | H]; rewrite H; reflexivity. Qed.

Lemma terminal_not_payable (inv : Invoice) :
  terminal inv ->
  status_eqb (status inv) paid || status_eqb (status inv) cancelled = true.
Proof. intros [H | H]; rewrite H; reflexivity. Qed.

Lemma terminal_not_due (uid : Id) (now : Date) (inv : Invoice) :
  terminal inv -> isOverdueNow uid now inv = false.
Proof.
  intros [H | H]; unfold isOverdueNow; rewrite H; simpl;
    rewrite andb_false_r; reflexivity.
Qed.

Lemma find_map_key (f : Invoice -> Invoice) (id : Id) (l : list Invoice) :
  (forall i, inv_id (f i) = inv_id i) ->
  find (fun i => N.eqb (inv_id i) id) (map f l)
  = option_map f (find (fun i => N.eqb (inv_id i) id) l).
Proof.
  intros K. induction l as [|i l IH]; simpl; [reflexivity|].
  rewrite K. destruct (N.eqb (inv_id i) id); [reflexivity | exact IH].
Qed.

(** C4 (amended). For an invoice that is paid or cancelled, in a table
    keyed by id: sending, reminding, either of these by mail, and the
    online payment are refused and leave the whole store as it was (the
    confirmation mail writes nothing either); the overdue sweep leaves
    the invoice row and the item table as they were; [recordPayment]
    leaves the item table as it was and the invoice row either as it was
    or as it was but for the status, now paid, so a paid invoice is left
    exactly as it was.  ([updateInvoice] is not covered: it has no status
    guard.) *)
Theorem C4_terminal_statuses (baseUrl : string) (db : Store) (inv : Invoice)
  (uid : Id) (now : Date) :
  uniqueIds db -> In inv (invoices db) -> terminal inv ->
  (fst (sendInvoice db uid (inv_id inv)) = db
   /\ isOk (snd (sendInvoice db uid (inv_id inv))) = false)
  /\ (fst (remindInvoice db uid (inv_id inv) now) = db
      /\ isOk (snd (remindInvoice db uid (inv_id inv) now)) = false)
  /\ (forall type,
         fst (emailInvoice baseUrl db uid (inv_id inv) type now) = db
         /\ (type <> confirmationEmail ->
             isOk (snd (emailInvoice baseUrl db uid (inv_id inv) type now))
             = false))
  /\ (forall body token,
         fst (processOnlinePayment db (inv_id inv) body now token) = db
         /\ isOk (snd (processOnlinePayment db (inv_id inv) body now token))
            = false)
  /\ (findInvoice (fst (checkOverdueInvoices db uid now)) (inv_id inv)
      = Some inv
      /\ items (fst (checkOverdueInvoices db uid now)) = items db)
  /\ (forall body,
         items (fst (recordPayment db uid (inv_id inv) body now)) = items db
         /\ (findInvoice (fst (recordPayment db uid (inv_id inv) body now))
                         (inv_id inv) = Some inv
             \/ findInvoice (fst (recordPayment db uid (inv_id inv) body now))
                            (inv_id inv) = Some (withStatus paid inv))
         /\ (status inv = paid ->
             findInvoice (fst (recordPayment db uid (inv_id inv) body now))
                         (inv_id inv) = Some inv)).
Proof.
  intros U Hin T.
  pose proof (findOwnedInvoice_unique db uid inv U Hin) as FO.
  pose proof (findInvoice_unique db inv U Hin) as FI.
  repeat apply conj.
  - unfold sendInvoice. rewrite FO.
    destruct (N.eqb (userId inv) uid); [|reflexivity].
    rewrite (terminal_not_sendable inv T). reflexivity.
  - unfold sendInvoice. rewrite FO.
    destruct (N.eqb (userId inv) uid); [|reflexivity].
    rewrite (terminal_not_sendable inv T). reflexivity.
  - unfold remindInvoice. rewrite FO.
    destruct (N.eqb (userId inv) uid); [|reflexivity].
    rewrite (terminal_not_remindable inv T). reflexivity.
  - unfold remindInvoice. rewrite FO.
    destruct (N.eqb (userId inv) uid); [|reflexivity].
    rewrite (terminal_not_remindable inv T). reflexivity.
  - intros type. unfold emailInvoice. rewrite FO.
    destruct (N.eqb (userId inv) uid); [|split; reflexivity].
    destruct type.
    + rewrite (terminal_not_sendable inv T). split; reflexivity.
    + rewrite (terminal_not_remindable inv T). split; reflexivity.
    + destruct (paymentsOf db (inv_id inv)); split; try reflexivity;
        intros N; contradiction.
  - intros body token. unfold processOnlinePayment. rewrite FI.
    pose proof (terminal_not_payable inv T) as P.
    destruct (status_eqb (status inv) paid); [split; reflexivity|].
    simpl in P. rewrite P. split; reflexivity.
  - unfold checkOverdueInvoices, findInvoice; simpl.
    rewrite find_map_key.
    + fold (findInvoice db (inv_id inv)). rewrite FI. simpl.
      rewrite (terminal_not_due uid now inv T). reflexivity.
    + intros i. destruct (isOverdueNow uid now i); reflexivity.
  - reflexivity.
  - intros body.
    assert (forall db',
              (db' = db
               \/ db' = setPayments db
                          (payments db ++ [paymentRow db (inv_id inv) body now])
               \/ db' = updateInvoiceRow
                          (setPayments db
                             (payments db
                              ++ [paymentRow db (inv_id inv) body now]))
                          (inv_id inv) (setStatus paid)) ->
              items db' = items db
              /\ (findInvoice db' (inv_id inv) = Some inv
                  \/ findInvoice db' (inv_id inv) = Some (withStatus paid inv))
              /\ (status inv = paid ->
                  findInvoice db' (inv_id inv) = Some inv)) as Cases.
    { intros db' [E | [E | E]]; subst db'.
      - repeat split; auto.
      - repeat split; auto.
      - split; [reflexivity|].
        rewrite findInvoice_updateInvoiceRow, findInvoice_setPayments, FI.
        simpl. rewrite applyPatch_setStatus.
        split; [right; reflexivity|].
        intros P. rewrite <- P. rewrite withStatus_same. reflexivity. }
    apply Cases.
    destruct (findOwnedInvoice db (inv_id inv) uid) as [own|] eqn:F.
    2:{ rewrite (recordPayment_not_found db uid _ body now F). now left. }
    destruct (recordPayment_cases db uid _ body now own F)
      as [[m E] | [E | (_ & _ & _ & E)]]; rewrite E; simpl; [now left..|].
    destruct (nabs (cumulativePaid db (inv_id inv) + pi_amount body - total own)
              <? dec 1 2); [right; right | right; left]; reflexivity.
Qed.
End Lifecycle.

Section Totals.
Context {A : Arith}.
Local Open Scope num_scope.

Lemma freshId_above (l : list Id) (x : Id) : In x l -> (x < freshId l)%N.
Proof.
  unfold freshId. induction l as [|y l IH]; simpl; [contradiction|].
  intros [H | H].
  - subst y. lia.
  - specialize (IH H). lia.
Qed.

Lemma freshId_fresh (l : list Id) : ~ In (freshId l) l.
Proof. intros H. apply freshId_above in H. lia. Qed.

Lemma filter_all {T} (f : T -> bool) (l : list T) :
  Forall (fun x => f x = true) l -> filter f l = l.
Proof.
  induction 1 as [|x l Hx _ IH]; simpl; [reflexivity|].
  rewrite Hx, IH. reflexivity.
Qed.

Lemma createItems_appends (l : list ItemData) :
  forall (rows : list InvoiceItem) (id : Id),
  exists new,
    createItems rows id l = (rows ++ new)%list
    /\ map copyItem new = l
    /\ Forall (fun it => invoiceId it = id) new.
Proof.
  induction l as [|d l IH]; intros rows id; simpl.
  - exists []. rewrite app_nil_r. repeat split. constructor.
  - destruct (IH (rows ++ [{| item_id := freshId (map item_id rows);
                              invoiceId := id;
                              description := d_description d;
                              quantity := d_quantity d;
                              rate := d_rate d;
                              amount := d_amount d |}])%list id)
      as [new [E [M F]]].
    eexists (_ :: new). rewrite E, <- app_assoc. simpl.
    split; [reflexivity|]. split.
    + rewrite M. destruct d; reflexivity.
    + constructor; [reflexivity | exact F].
Qed.

Lemma copied_amounts (new : list InvoiceItem) (lines : list ItemInput) :
  map copyItem new = map withAmount lines ->
  Forall (fun it => amount it = quantity it * rate it) new
  /\ map amount new = map d_amount (map withAmount lines)
  /\ map lineOf new = lines.
Proof.
  revert lines. induction new as [|it new IH]; intros [|x lines] H;
    simpl in *; try discriminate.
  - repeat split. constructor.
  - assert (copyItem it = withAmount x) as Hit by congruence.
    assert (map copyItem new = map withAmount lines) as Hrest by congruence.
    destruct (IH lines Hrest) as [F [M L]].
    destruct it, x; unfold copyItem, withAmount in Hit; simpl in *.
    injection Hit as -> -> -> ->.
    repeat split.
    + constructor; [reflexivity | exact F].
    + rewrite M. reflexivity.
    + unfold lineOf at 1; simpl. rewrite L. reflexivity.
Qed.

Lemma itemsOf_rows (db : Store) (rows : list InvoiceItem) (id : Id) :
  itemsOf (setItems db rows) id
  = filter (fun it => N.eqb (invoiceId it) id) rows.
Proof. reflexivity. Qed.

Lemma filter_new_same (new : list InvoiceItem) (id : Id) :
  Forall (fun it => invoiceId it = id) new ->
  filter (fun it => N.eqb (invoiceId it) id) new = new.
Proof.
  intros F. apply filter_all.
  eapply Forall_impl; [|exact F]. intros it E. simpl. rewrite E.
  apply N.eqb_refl.
Qed.

Lemma filter_new_other (new : list InvoiceItem) (id j : Id) :
  Forall (fun it => invoiceId it = id) new -> j <> id ->
  filter (fun it => N.eqb (invoiceId it) j) new = [].
Proof.
  intros F N. apply filter_none. intros it Hit.
  rewrite Forall_forall in F. rewrite (F it Hit).
  apply N.eqb_neq. congruence.
Qed.

Lemma totalsHold_fields (i i' : Invoice) (its : list InvoiceItem) :
  subtotal i' = subtotal i -> taxRate i' = taxRate i ->
  tax i' = tax i -> total i' = total i ->
  totalsHold i its -> totalsHold i' its.
Proof.
  unfold totalsHold. intros -> -> -> ->. tauto.
Qed.

Lemma insertInvoice_refused (nc : NumberConstraint) (db db' : Store)
  (row : Invoice) (lines : list ItemData) (code : Z) (message : string) :
  insertInvoice nc db row lines = (db', Error code message) -> db' = db.
Proof.
  unfold insertInvoice.
  destruct (negb (validRow row && forallb validLine lines)); [congruence|].
  destruct (numberTaken nc db (userId row) (number row)); [congruence|].
  destruct (findClient db (clientId row)); [discriminate | congruence].
Qed.

(** An insertion is accepted exactly when the store has nothing against
    the row. *)
Lemma insertInvoice_accepted (nc : NumberConstraint) (db : Store)
  (row : Invoice) (lines : list ItemData) :
  isOk (snd (insertInvoice nc db row lines)) = true
  <-> (validRow row = true /\ forallb validLine lines = true)
      /\ numberTaken nc db (userId row) (number row) = false
      /\ findClient db (clientId row) <> None.
Proof.
  unfold insertInvoice.
  destruct (validRow row); simpl.
  2:{ split; [discriminate | intros [[H _] _]; discriminate]. }
  destruct (forallb validLine lines); simpl.
  2:{ split; [discriminate | intros [[_ H] _]; discriminate]. }
  destruct (numberTaken nc db (userId row) (number row)); simpl.
  { split; [discriminate | intros [_ [H _]]; discriminate]. }
  destruct (findClient db (clientId row)); simpl.
  - split; [|reflexivity]. intros _. repeat split. discriminate.
  - split; [discriminate | intros [_ [_ H]]; congruence].
Qed.

Lemma insertInvoice_shape (nc : NumberConstraint) (db db' : Store)
  (row inv : Invoice) (lines : list ItemData) (code : Z)
  (its : list InvoiceItem) :
  insertInvoice nc db row lines = (db', Ok code (inv, its)) ->
  exists new,
    invoices db' = (invoices db ++ [inv])%list
    /\ items db' = (items db ++ new)%list
    /\ users db' = users db /\ payments db' = payments db
    /\ map copyItem new = lines
    /\ Forall (fun it => invoiceId it = inv_id inv) new
    /\ inv_id inv = freshId (map inv_id (invoices db))
    /\ its = itemsOf db' (inv_id inv)
    /\ (number inv = number row /\ status inv = status row
        /\ issueDate inv = issueDate row /\ dueDate inv = dueDate row
        /\ userId inv = userId row /\ clientId inv = clientId row)
    /\ (subtotal inv = subtotal row /\ taxRate inv = taxRate row
        /\ tax inv = tax row /\ total inv = total row).
Proof.
  unfold insertInvoice.
  destruct (negb (validRow row && forallb validLine lines)); [discriminate|].
  destruct (numberTaken nc db (userId row) (number row)); [discriminate|].
  destruct (findClient db (clientId row)); [|discriminate].
  intros H. injection H as Hdb _ Hinv Hits.
  destruct (createItems_appends lines (items db)
              (freshId (map inv_id (invoices db)))) as [new [E [M F]]].
  exists new. subst db' inv. simpl. rewrite E.
  repeat split; try assumption. subst its. simpl. rewrite E. reflexivity.
Qed.

Lemma belongs_not_fresh (db : Store) (it : InvoiceItem) :
  itemsBelong db -> In it (items db) ->
  invoiceId it <> freshId (map inv_id (invoices db)).
Proof.
  intros B H E. destruct (B it H) as [i [Hi Hid]].
  apply (freshId_fresh (map inv_id (invoices db))).
  rewrite <- E, <- Hid. apply in_map. exact Hi.
Qed.

Lemma insertInvoice_totals (nc : NumberConstraint) (db db' : Store)
  (row : Invoice) (lines : list ItemInput)
  (r : Response (Invoice * list InvoiceItem)) :
  totalsStored db ->
  subtotal row = sumAmounts (map d_amount (map withAmount lines)) ->
  tax row = subtotal row * (taxRate row / ofZ 100) ->
  total row = subtotal row + tax row ->
  insertInvoice nc db row (map withAmount lines) = (db', r) ->
  totalsStored db'
  /\ forall code inv its,
       r = Ok code (inv, its) ->
       In inv (invoices db')
       /\ its = itemsOf db' (inv_id inv)
       /\ map lineOf its = lines
       /\ taxRate inv = taxRate row
       /\ totalsHold inv its.
Proof.
  intros [B T] Hsub Htax Htot R.
  destruct r as [code [inv its] | code message].
  2:{ apply insertInvoice_refused in R. subst db'.
      split; [split; assumption | discriminate]. }
  destruct (insertInvoice_shape nc db db' row inv (map withAmount lines)
              code its R)
    as [new [Ei [Et [_ [_ [M [F [Eid [Eits [_ [Es [Er [Ex Eo]]]]]]]]]]]]].
  destruct (copied_amounts new lines M) as [Fa [Ma La]].
  assert (itemsOf db' (inv_id inv) = new) as Enew.
  { unfold itemsOf. rewrite Et, filter_app, (filter_new_same new _ F).
    rewrite filter_none; [reflexivity|].
    intros it Hit. apply N.eqb_neq. rewrite Eid.
    apply belongs_not_fresh; assumption. }
  assert (forall i, In i (invoices db) ->
                    itemsOf db' (inv_id i) = itemsOf db (inv_id i)) as Eold.
  { intros i Hi. unfold itemsOf.
    rewrite Et, filter_app, (filter_new_other new (inv_id inv)), app_nil_r;
      [reflexivity | exact F |].
    rewrite Eid. intros E.
    apply (freshId_fresh (map inv_id (invoices db))).
    rewrite <- E. apply in_map. exact Hi. }
  assert (totalsHold inv new) as Hnew.
  { unfold totalsHold. rewrite Es, Er, Ex, Eo, Ma.
    repeat split; assumption. }
  split.
  - split.
    + intros it Hit. rewrite Et in Hit. apply in_app_or in Hit.
      rewrite Ei. destruct Hit as [Hit | Hit].
      * destruct (B it Hit) as [i [Hi Hid]]. exists i.
        split; [apply in_or_app; now left | exact Hid].
      * exists inv. split; [apply in_or_app; right; now left|].
        rewrite Forall_forall in F. symmetry. apply F. exact Hit.
    + intros i Hi. rewrite Ei in Hi. apply in_app_or in Hi.
      destruct Hi as [Hi | [Hi | []]].
      * rewrite (Eold i Hi). apply T. exact Hi.
      * subst i. rewrite Enew. exact Hnew.
  - intros code' inv' its' E. injection E as _ <- <-.
    rewrite Eits, Enew.
    split; [rewrite Ei; apply in_or_app; right; now left|].
    split; [reflexivity|]. split; [exact La|]. split; [exact Er | exact Hnew].
Qed.

Lemma findOwnedInvoice_some (db : Store) (uid id : Id) (inv : Invoice) :
  findOwnedInvoice db id uid = Some inv ->
  In inv (invoices db) /\ inv_id inv = id.
Proof.
  intros H. apply find_some in H. destruct H as [Hin E].
  apply andb_true_iff in E. destruct E as [E _].
  apply N.eqb_eq in E. split; assumption.
Qed.

Lemma findInvoice_some (db : Store) (id : Id) (inv : Invoice) :
  findInvoice db id = Some inv -> In inv (invoices db) /\ inv_id inv = id.
Proof.
  intros H. apply find_some in H. destruct H as [Hin E].
  apply N.eqb_eq in E. split; assumption.
Qed.

(** Rewriting the rows of one invoice keeps the totals stored, when the
    rewritten row agrees with the lines the invoice has. *)
Lemma updateInvoiceRow_totals (db : Store) (id : Id) (p : InvoicePatch) :
  totalsStored db ->
  (forall i, In i (invoices db) -> inv_id i = id ->
             totalsHold (applyPatch p i) (itemsOf db id)) ->
  totalsStored (updateInvoiceRow db id p).
Proof.
  intros [B T] H. split.
  - intros it Hit. destruct (B it Hit) as [i [Hi Hid]].
    exists (if N.eqb (inv_id i) id then applyPatch p i else i). split.
    + simpl. apply in_map_iff. exists i. split; [reflexivity | exact Hi].
    + destruct (N.eqb (inv_id i) id); exact Hid.
  - intros i' Hi'. simpl in Hi'. apply in_map_iff in Hi'.
    destruct Hi' as [i [E Hi]]. subst i'.
    destruct (N.eqb (inv_id i) id) eqn:K.
    + apply N.eqb_eq in K. change (inv_id (applyPatch p i)) with (inv_id i).
      rewrite K. apply H; assumption.
    + apply T. exact Hi.
Qed.

(** The same when the lines of the invoice are replaced as well. *)
Lemma replaceItems_totals (db : Store) (id : Id) (p : InvoicePatch)
  (lines : list ItemInput) :
  totalsStored db ->
  (exists row, In row (invoices db) /\ inv_id row = id) ->
  (forall i new,
      map lineOf new = lines ->
      Forall (fun it => amount it = quantity it * rate it) new ->
      map amount new = map d_amount (map withAmount lines) ->
      totalsHold (applyPatch p i) new) ->
  let db2 := updateInvoiceRow (deleteItemsOf db id) id p in
  let db3 := setItems db2 (createItems (items db2) id (map withAmount lines)) in
  totalsStored db3 /\ map lineOf (itemsOf db3 id) = lines.
Proof.
  intros [B T] [row [Hrow Hid]] H db2 db3.
  destruct (createItems_appends (map withAmount lines) (items db2) id)
    as [new [E [M F]]].
  destruct (copied_amounts new lines M) as [Fa [Ma La]].
  assert (items db3 = (filter (fun it => negb (N.eqb (invoiceId it) id))
                              (items db) ++ new)%list) as Et.
  { unfold db3. simpl. exact E. }
  assert (itemsOf db3 id = new) as Enew.
  { unfold itemsOf. rewrite Et, filter_app, (filter_new_same new id F).
    rewrite filter_none; [reflexivity|].
    intros it Hit. apply filter_In in Hit. destruct Hit as [_ Hit].
    apply negb_true_iff in Hit. exact Hit. }
  assert (forall j, j <> id -> itemsOf db3 j = itemsOf db j) as Eold.
  { intros j Hj. unfold itemsOf.
    rewrite Et, filter_app, (filter_new_other new id j F Hj), app_nil_r.
    clear - Hj. induction (items db) as [|it l IH]; simpl; [reflexivity|].
    destruct (N.eqb (invoiceId it) id) eqn:K; simpl.
    - apply N.eqb_eq in K.
      assert (N.eqb (invoiceId it) j = false) as K'
        by (apply N.eqb_neq; congruence).
      rewrite K'. exact IH.
    - destruct (N.eqb (invoiceId it) j); [f_equal|]; exact IH. }
  split; [|rewrite Enew; exact La].
  split.
  - intros it Hit. rewrite Et in Hit. apply in_app_or in Hit.
    destruct Hit as [Hit | Hit].
    + apply filter_In in Hit. destruct Hit as [Hit _].
      destruct (B it Hit) as [i [Hi Hii]].
      exists (if N.eqb (inv_id i) id then applyPatch p i else i). split.
      * simpl. apply in_map_iff. exists i. split; [reflexivity | exact Hi].
      * destruct (N.eqb (inv_id i) id); exact Hii.
    + exists (if N.eqb (inv_id row) id then applyPatch p row else row). split.
      * simpl. apply in_map_iff. exists row. split; [reflexivity | exact Hrow].
      * rewrite Forall_forall in F. rewrite (F it Hit).
        destruct (N.eqb (inv_id row) id); exact Hid.
  - intros i' Hi'. simpl in Hi'. apply in_map_iff in Hi'.
    destruct Hi' as [i [Ei Hi]]. subst i'.
    destruct (N.eqb (inv_id i) id) eqn:K.
    + apply N.eqb_eq in K. change (inv_id (applyPatch p i)) with (inv_id i).
      rewrite K, Enew. apply H; assumption.
    + apply N.eqb_neq in K. rewrite (Eold _ K). apply T. exact Hi.
Qed.

Lemma updateInvoice_totals (db db' : Store) (uid id : Id)
  (body : UpdateInvoiceInput) (r : Response (Invoice * list InvoiceItem)) :
  totalsStored db ->
  updateInvoice db uid id body = (db', r) ->
  torn db db' id body r
  \/ (totalsStored db'
      /\ forall code inv its,
           r = Ok code (inv, its) ->
           In inv (invoices db')
           /\ inv_id inv = id
           /\ its = itemsOf db' id
           /\ (forall lines, u_items body = Some lines -> map lineOf its = lines)
           /\ (forall x, u_taxRate body = Some x -> taxRate inv = x)
           /\ totalsHold inv its).
Proof.
  intros S R. unfold updateInvoice in R.
  destruct (findOwnedInvoice db id uid) as [existing|] eqn:F.
  2:{ injection R as <- <-. right. split; [exact S | discriminate]. }
  destruct (updateInvoiceSchema body) as [m|].
  { injection R as <- <-. right. split; [exact S | discriminate]. }
  destruct (findOwnedInvoice_some db uid id existing F) as [Hex Hexid].
  assert (forall db2 : Store,
             totalsStored db2 ->
             (forall lines, u_items body = Some lines ->
                            map lineOf (itemsOf db2 id) = lines) ->
             (forall x i, u_taxRate body = Some x -> In i (invoices db2) ->
                          inv_id i = id -> taxRate i = x) ->
             match findInvoice db2 id with
             | Some inv => (db2, Ok 200 (inv, itemsOf db2 id))
             | None => (db2, Error 404 "Record not found")
             end = (db', r) ->
             totalsStored db'
             /\ forall code inv its,
                  r = Ok code (inv, its) ->
                  In inv (invoices db')
                  /\ inv_id inv = id
                  /\ its = itemsOf db' id
                  /\ (forall lines, u_items body = Some lines ->
                                    map lineOf its = lines)
                  /\ (forall x, u_taxRate body = Some x -> taxRate inv = x)
                  /\ totalsHold inv its) as Respond.
  { intros db2 S2 Hl Hx E.
    destruct (findInvoice db2 id) as [inv|] eqn:Fi.
    - injection E as <- <-. split; [exact S2|].
      intros code inv' its' E. injection E as _ <- <-.
      destruct (findInvoice_some db2 id inv Fi) as [Hin Hid].
      split; [exact Hin|]. split; [exact Hid|]. split; [reflexivity|].
      split; [exact Hl|]. split.
      + intros x Ex. apply (Hx x inv Ex Hin Hid).
      + rewrite <- Hid. apply (proj2 S2). exact Hin.
    - injection E as <- <-. split; [exact S2 | discriminate]. }
  destruct (u_items body) as [newItems|] eqn:Ui.
  - (* the lines are replaced *)
    cbv zeta in R.
    match type of R with
    | context [refusedUpdate ?d ?p ?l] =>
        destruct (refusedUpdate d p l) as [message|]
    end.
    { injection R as <- <-. left. exists newItems, message.
      split; [exact Ui | split; reflexivity]. }
    right.
    match type of R with
    | context [updateInvoiceRow _ _ ?p] =>
        pose proof (replaceItems_totals db id p newItems S
                      (ex_intro _ existing (conj Hex Hexid))) as P
    end.
    cbv zeta in P. destruct P as [S3 L3].
    { intros i new _ Fa Ma. unfold totalsHold, computeTax. simpl. rewrite Ma.
      repeat split. exact Fa. }
    apply (Respond _ S3); [| | exact R].
    + intros lines E. injection E as <-. exact L3.
    + intros x i Ex Hi Hid. simpl in Hi. apply in_map_iff in Hi.
      destruct Hi as [i0 [E0 Hi0]]. subst i.
      destruct (N.eqb (inv_id i0) id) eqn:K.
      * simpl. rewrite Ex. reflexivity.
      * apply N.eqb_neq in K. contradiction.
  - right. cbv zeta in R.
    destruct (refusedUpdate db (rowUpdate existing body) [])  as [message|].
    { injection R as <- <-. split; [exact S | discriminate]. }
    unfold rowUpdate in R.
    destruct (u_taxRate body) as [rate|] eqn:Ut.
    + (* only the tax rate changes *)
      cbv zeta in R.
      match type of R with
      | context [updateInvoiceRow db id ?p] =>
          apply (Respond (updateInvoiceRow db id p)); [| | | exact R]
      end.
      * apply updateInvoiceRow_totals; [exact S|].
        intros i Hi Hid.
        pose proof (proj2 S i Hi) as [Fi [Si _]].
        pose proof (proj2 S existing Hex) as [_ [Se _]].
        rewrite Hid in Fi, Si. rewrite Hexid in Se.
        assert (subtotal i = subtotal existing) as Eq by congruence.
        split; [exact Fi|]. split; [exact Si|]. split.
        -- change (computeTax (subtotal existing) rate
                   = subtotal i * (rate / ofZ 100)).
           rewrite Eq. reflexivity.
        -- change (subtotal existing + computeTax (subtotal existing) rate
                   = subtotal i + computeTax (subtotal existing) rate).
           rewrite Eq. reflexivity.
      * discriminate.
      * intros x i Ex Hi Hid. injection Ex as <-.
        simpl in Hi. apply in_map_iff in Hi.
        destruct Hi as [i0 [E0 Hi0]]. subst i.
        destruct (N.eqb (inv_id i0) id) eqn:K; [reflexivity|].
        apply N.eqb_neq in K. contradiction.
    + (* no total is written *)
      match type of R with
      | context [updateInvoiceRow db id ?p] =>
          apply (Respond (updateInvoiceRow db id p)); [| | | exact R]
      end.
      * apply updateInvoiceRow_totals; [exact S|].
        intros i Hi Hid. rewrite <- Hid.
        apply (totalsHold_fields i); try reflexivity.
        apply (proj2 S). exact Hi.
      * discriminate.
      * discriminate.
Qed.

Lemma createInvoice_totals (nc : NumberConstraint) (db db' : Store) (uid : Id)
  (body : CreateInvoiceInput) (r : Response (Invoice * list InvoiceItem)) :
  totalsStored db ->
  createInvoice nc db uid body = (db', r) ->
  totalsStored db'
  /\ forall code inv its,
       r = Ok code (inv, its) ->
       In inv (invoices db')
       /\ its = itemsOf db' (inv_id inv)
       /\ map lineOf its = c_items body
       /\ taxRate inv = orElse (c_taxRate body) (ofZ 0)
       /\ totalsHold inv its.
Proof.
  intros S R. unfold createInvoice in R.
  destruct (createInvoiceSchema body) as [m|].
  { injection R as <- <-. split; [exact S | discriminate]. }
  cbv zeta in R.
  destruct (c_issueDate body) as [issue|].
  2:{ injection R as <- <-. split; [exact S | discriminate]. }
  destruct (c_dueDate body) as [due|].
  2:{ injection R as <- <-. split; [exact S | discriminate]. }
  apply (insertInvoice_totals nc db db' _ (c_items body) r S) in R;
    try reflexivity.
  exact R.
Qed.

(** What does hold of a copy made by [duplicateInvoice]: it is a draft
    under a key no invoice had, issued now and due 30 days later, with
    the lines of its source and without any payment. *)
Lemma duplicateInvoice_copy (nc : NumberConstraint) (db db' : Store)
  (uid id : Id) (now : Date) (code : Z) (copy : Invoice)
  (lines : list InvoiceItem) :
  duplicateInvoice nc db uid id now = (db', Ok code (copy, lines)) ->
  status copy = draft
  /\ issueDate copy = now
  /\ dueDate copy = addDays now 30
  /\ ~ In (inv_id copy) (map inv_id (invoices db))
  /\ (itemsBelong db -> map copyItem lines = map copyItem (itemsOf db id))
  /\ (paymentsBelong db -> paymentsOf db' (inv_id copy) = []).
Proof.
  unfold duplicateInvoice.
  destruct (findOwnedInvoice db id uid) as [invoice|]; [|discriminate].
  destruct (findUser db uid) as [userData|]; [|discriminate].
  match goal with
  | |- context [insertInvoice nc ?d ?r ?l] =>
      destruct (insertInvoice nc d r l) as [db2 [c b | c m]] eqn:I
  end; [|discriminate].
  intros H. injection H as <- <- ->.
  destruct (insertInvoice_shape nc _ db2 _ copy _ c lines I)
    as [new [Ei [Et [_ [Ep [M [F [Eid [El [[_ [Es [Ed [Edue _]]]] _]]]]]]]]]].
  simpl in Ei, Et, Ep, Eid.
  split; [exact Es|]. split; [exact Ed|]. split; [exact Edue|]. split.
  { rewrite Eid. apply freshId_fresh. }
  split.
  - intros B. rewrite El. unfold itemsOf at 1.
    rewrite Et, filter_app, (filter_new_same new _ F).
    rewrite filter_none; [exact M|].
    intros it Hit. apply N.eqb_neq. rewrite Eid.
    apply belongs_not_fresh; assumption.
  - intros B. unfold paymentsOf. rewrite Ep. apply filter_none.
    intros p Hp. apply N.eqb_neq. rewrite Eid. intros E.
    destruct (B p Hp) as [i [Hi Hid]].
    apply (freshId_fresh (map inv_id (invoices db))).
    rewrite <- E, <- Hid. apply in_map. exact Hi.
Qed.

(** An update that carries no lines leaves the lines alone. *)
Lemma updateInvoice_keeps_lines (db : Store) (uid id : Id)
  (body : UpdateInvoiceInput) :
  u_items body = None ->
  items (fst (updateInvoice db uid id body)) = items db.
Proof.
  intros N. unfold updateInvoice.
  destruct (findOwnedInvoice db id uid) as [existing|]; [|reflexivity].
  destruct (updateInvoiceSchema body); [reflexivity|].
  rewrite N. cbv zeta.
  destruct (refusedUpdate db (rowUpdate existing body) []); [reflexivity|].
  destruct (findInvoice _ id); reflexivity.
Qed.

(** C1 (amended). Starting from a store whose invoices all have their
    totals in agreement with their lines, an accepted [createInvoice]
    and an accepted [updateInvoice] leave such a store, and the invoice
    they return carries the lines and the tax rate of the request with
    the stored fields recomputed in the arithmetic of the program:
    amount = quantity * rate on every line, subtotal = the amounts
    added up from 0 in order, tax = subtotal * (taxRate / 100), total =
    subtotal + tax, each exactly as binary64 rounds it.  This covers the
    update that replaces the lines, the update that changes only the tax
    rate (which keeps the lines and the stored subtotal and recomputes
    tax and total from it), and the update that touches neither. *)
Theorem C1_totals_recomputed (nc : NumberConstraint) (db : Store) (uid : Id) :
  totalsStored db ->
  (forall body db' code inv its,
      createInvoice nc db uid body = (db', Ok code (inv, its)) ->
      totalsStored db'
      /\ In inv (invoices db')
      /\ its = itemsOf db' (inv_id inv)
      /\ map lineOf its = c_items body
      /\ taxRate inv = orElse (c_taxRate body) (ofZ 0)
      /\ totalsHold inv its)
  /\ (forall id body db' code inv its,
         updateInvoice db uid id body = (db', Ok code (inv, its)) ->
         totalsStored db'
         /\ In inv (invoices db')
         /\ inv_id inv = id
         /\ its = itemsOf db' id
         /\ (forall lines,
                u_items body = Some lines -> map lineOf its = lines)
         /\ (u_items body = None -> its = itemsOf db id)
         /\ (forall x, u_taxRate body = Some x -> taxRate inv = x)
         /\ totalsHold inv its).
Proof.
  intros S. split.
  - intros body db' code inv its R.
    destruct (createInvoice_totals nc db db' uid body _ S R) as [S' H].
    split; [exact S'|]. exact (H code inv its eq_refl).
  - intros id body db' code inv its R.
    destruct (updateInvoice_totals db db' uid id body _ S R)
      as [(lines & message & _ & _ & E) | [S' H]]; [discriminate|].
    destruct (H code inv its eq_refl) as (Hin & Hid & Hits & Hl & Hx & Ht).
    repeat (split; [assumption|]). split; [|split; assumption].
    intros N. rewrite Hits. unfold itemsOf.
    pose proof (updateInvoice_keeps_lines db uid id body N) as K.
    rewrite R in K. simpl in K. rewrite K. reflexivity.
Qed.
End Totals.

Section Duplicates.
Context {A : Arith}.
Local Open Scope num_scope.

Lemma inWindow_spec (uid cid : Id) (candidateDate : Date) (i : Invoice) :
  inWindow uid cid candidateDate i = true
  <-> inWindowOf uid cid candidateDate i.
Proof.
  unfold inWindow, inWindowOf, windowDays.
  rewrite !andb_true_iff, !N.eqb_eq, !Z.leb_le, negb_true_iff.
  assert (status_eqb (status i) cancelled = false <-> status i <> cancelled)
    as Hs.
  { split.
    - intros E H. apply status_eqb_eq in H. congruence.
    - intros H. destruct (status_eqb (status i) cancelled) eqn:E;
        [|reflexivity]. apply status_eqb_eq in E. contradiction. }
  rewrite Hs. tauto.
Qed.

Lemma existingInvoices_spec (db : Store) (uid cid : Id) (candidateDate : Date)
  (i : Invoice) :
  In i (existingInvoices db uid cid candidateDate)
  <-> In i (invoices db) /\ inWindowOf uid cid candidateDate i.
Proof.
  unfold existingInvoices.
  rewrite <- in_rev, filter_In, inWindow_spec. reflexivity.
Qed.

Lemma existsb_insertSorted {T} (cmp : T -> T -> Z) (f : T -> bool) (x : T)
  (l : list T) :
  existsb f (insertSorted cmp x l) = f x || existsb f l.
Proof.
  induction l as [|y l IH]; simpl; [reflexivity|].
  destruct (cmp x y <=? 0)%Z; simpl; [reflexivity|].
  rewrite IH. destruct (f x), (f y); reflexivity.
Qed.

Lemma existsb_sortBy {T} (cmp : T -> T -> Z) (f : T -> bool) (l : list T) :
  existsb f (sortBy cmp l) = existsb f l.
Proof.
  induction l as [|x l IH]; simpl; [reflexivity|].
  rewrite existsb_insertSorted, IH. reflexivity.
Qed.

Lemma head_insertSorted (x : SimilarInvoice) (l : list SimilarInvoice) :
  (0 <= similarity x)%Z ->
  headSimilarity (insertSorted bySimilarity x l)
  = Z.max (similarity x) (headSimilarity l).
Proof.
  intros Hx. destruct l as [|y l]; simpl; [lia|].
  unfold bySimilarity.
  destruct (similarity y - similarity x <=? 0)%Z eqn:E; simpl.
  - apply Z.leb_le in E. lia.
  - apply Z.leb_gt in E. lia.
Qed.

Lemma head_sortBy (l : list SimilarInvoice) :
  Forall (fun s => (0 <= similarity s)%Z) l ->
  headSimilarity (sortBy bySimilarity l)
  = fold_right Z.max 0%Z (map similarity l).
Proof.
  induction 1 as [|x l Hx _ IH]; simpl; [reflexivity|].
  rewrite head_insertSorted, IH; [reflexivity | exact Hx].
Qed.

Lemma kept_scores {T} (f : T -> SimilarInvoice) (l : list T) :
  map similarity (filter (fun s => (30 <=? similarity s)%Z) (map f l))
  = filter (fun s => (30 <=? s)%Z) (map (fun x => similarity (f x)) l).
Proof.
  induction l as [|x l IH]; simpl; [reflexivity|].
  destruct (30 <=? similarity (f x))%Z; simpl; rewrite IH; reflexivity.
Qed.

(** C8. When the client has no invoice of the owner that is not
    cancelled and issued within 30 days of the candidate, the check
    answers not-duplicate with confidence 95.  Otherwise it answers
    duplicate exactly when one of these invoices scores 75 or more
    against the candidate, and the confidence is the highest score when
    it is a duplicate, else 95 less half the highest of the scores that
    reach 30 (0 standing for the highest when no score reaches 30). *)
Theorem C8_detectDuplicate (db : Store) (uid cid : Id) (candidateTotal : num)
  (candidateDate : Date) (newItems : list ItemInput) :
  let r := detectDuplicateInvoice db uid cid candidateTotal candidateDate
             newItems in
  let score := similarityOf db candidateTotal candidateDate newItems in
  let highest :=
    highestKept (map score (existingInvoices db uid cid candidateDate)) in
  ((forall i, In i (invoices db) -> ~ inWindowOf uid cid candidateDate i) ->
   isDuplicate r = false /\ dc_confidence r = ofZ 95
   /\ similarInvoices r = [])
  /\ ((exists i, In i (invoices db) /\ inWindowOf uid cid candidateDate i) ->
      (isDuplicate r = true <->
       exists i, In i (invoices db) /\ inWindowOf uid cid candidateDate i
                 /\ (75 <= score i)%Z)
      /\ dc_confidence r
         = if isDuplicate r then ofZ highest
           else ofZ 95 - ofZ highest * dec 5 1).
Proof.
  cbv zeta. unfold detectDuplicateInvoice.
  set (score := similarityOf db candidateTotal candidateDate newItems).
  set (mk := scored db candidateTotal candidateDate newItems).
  destruct (existingInvoices db uid cid candidateDate) as [|e l] eqn:E.
  - split; [intros _; repeat split|].
    intros [i [Hi Hw]].
    assert (In i (existingInvoices db uid cid candidateDate)) as Hin
      by (apply existingInvoices_spec; split; assumption).
    rewrite E in Hin. contradiction.
  - split.
    + intros Hnone. exfalso.
      assert (In e (existingInvoices db uid cid candidateDate)) as Hin
        by (rewrite E; now left).
      apply existingInvoices_spec in Hin. destruct Hin as [Hi Hw].
      exact (Hnone e Hi Hw).
    + intros _.
      set (kept := filter (fun s => (30 <=? similarity s)%Z) (map mk (e :: l))).
      assert (headSimilarity (sortBy bySimilarity kept)
              = highestKept (map score (e :: l))) as Hhead.
      { rewrite head_sortBy.
        - unfold kept, highestKept. rewrite kept_scores. reflexivity.
        - apply Forall_forall. intros s Hs. unfold kept in Hs.
          apply filter_In in Hs. destruct Hs as [_ Hs].
          apply Z.leb_le in Hs. lia. }
      cbn [isDuplicate dc_confidence].
      fold (headSimilarity (sortBy bySimilarity kept)).
      rewrite Hhead, existsb_sortBy. split; [|reflexivity].
      rewrite existsb_exists. split.
      * intros [s [Hs H75]]. unfold kept in Hs.
        apply filter_In in Hs. destruct Hs as [Hs _].
        apply in_map_iff in Hs. destruct Hs as [i [Ei Hi]]. subst s.
        assert (In i (existingInvoices db uid cid candidateDate)) as Hin
          by (rewrite E; exact Hi).
        apply existingInvoices_spec in Hin. destruct Hin as [Hdb Hw].
        exists i. split; [exact Hdb|]. split; [exact Hw|].
        apply Z.leb_le in H75. exact H75.
      * intros [i [Hdb [Hw H75]]].
        assert (In i (e :: l)) as Hi.
        { rewrite <- E. apply existingInvoices_spec. split; assumption. }
        exists (mk i). split.
        -- unfold kept. apply filter_In. split.
           ++ apply in_map. exact Hi.
           ++ apply Z.leb_le. change (similarity (mk i)) with (score i). lia.
        -- apply Z.leb_le. exact H75.
Qed.
End Duplicates.

Section Suggestions.
Context {A : Arith}.
Local Open Scope num_scope.

Lemma In_insertSorted {T} (cmp : T -> T -> Z) (x y : T) (l : list T) :
  In y (insertSorted cmp x l) -> y = x \/ In y l.
Proof.
  induction l as [|z l IH]; simpl.
  - intros [H | []]. left. congruence.
  - destruct (cmp x z <=? 0)%Z; simpl.
    + intros [H | H]; [left; congruence | right; exact H].
    + intros [H | H]; [right; left; exact H|].
      destruct (IH H) as [K | K]; [left; exact K | right; right; exact K].
Qed.

Lemma In_sortBy {T} (cmp : T -> T -> Z) (y : T) (l : list T) :
  In y (sortBy cmp l) -> In y l.
Proof.
  induction l as [|x l IH]; simpl; [tauto|].
  intros H. apply In_insertSorted in H.
  destruct H as [H | H]; [left; congruence | right; apply IH; exact H].
Qed.

Lemma In_applySearch (filterText : option string) (s : LineItemSuggestion)
  (l : list LineItemSuggestion) :
  In s (applySearch filterText l) -> In s l.
Proof.
  unfold applySearch. destruct (searchText filterText); [|tauto].
  intros H. apply filter_In in H. tauto.
Qed.

Lemma In_objectValues (m : ObjectMap) (e : Entry) :
  In e (objectValues m) -> exists k, In (k, e) m.
Proof.
  unfold objectValues. intros H. apply in_map_iff in H.
  destruct H as [[k e'] [E H]]. simpl in E. subst e'. exists k.
  apply in_app_or in H. destruct H as [H | H].
  - apply In_sortBy in H. apply filter_In in H. tauto.
  - apply filter_In in H. tauto.
Qed.

Lemma In_storeKey (m : ObjectMap) (key k : string) (e e' : Entry) :
  In (k, e) (storeKey m key e') -> In (k, e) m \/ e = e'.
Proof.
  induction m as [|[k0 e0] m IH]; simpl.
  - intros [H | []]. right. congruence.
  - destruct (String.eqb k0 key); simpl.
    + intros [H | H]; [right; congruence | left; right; exact H].
    + intros [H | H]; [left; left; exact H|].
      destruct (IH H) as [K | K]; [left; right; exact K | right; exact K].
Qed.

Lemma lookupKey_In (m : ObjectMap) (key : string) (e : Entry) :
  lookupKey m key = Some e -> exists k, In (k, e) m.
Proof.
  induction m as [|[k0 e0] m IH]; simpl; [discriminate|].
  destruct (String.eqb k0 key).
  - intros H. injection H as <-. exists k0. now left.
  - intros H. destruct (IH H) as [k K]. exists k. now right.
Qed.

Lemma addItem_described (keep : bool) (lines : list InvoiceItem)
  (m m' : ObjectMap) (it : InvoiceItem) :
  In it lines -> described lines m ->
  addItem keep (Some m) it = Some m' -> described lines m'.
Proof.
  intros Hit D H. unfold addItem in H.
  destruct (lookupKey m (itemKey it)) as [e0|] eqn:L.
  - injection H as <-. intros k e Hin.
    apply In_storeKey in Hin. destruct Hin as [Hin | ->].
    + exact (D k e Hin).
    + destruct (lookupKey_In m _ e0 L) as [k0 K0]. exact (D k0 e0 K0).
  - destruct (inheritedKey (itemKey it)); [discriminate|].
    injection H as <-. intros k e Hin.
    apply In_storeKey in Hin. destruct Hin as [Hin | ->].
    + exact (D k e Hin).
    + exists it. split; [exact Hit | reflexivity].
Qed.

Lemma fold_addItem_thrown (keep : bool) (its : list InvoiceItem) :
  fold_left (addItem keep) its None = None.
Proof. induction its as [|it its IH]; simpl; [reflexivity | exact IH]. Qed.

Lemma fold_addItem_described (keep : bool) (lines its : list InvoiceItem) :
  (forall it, In it its -> In it lines) ->
  forall (acc : option ObjectMap) (m' : ObjectMap),
    (forall m, acc = Some m -> described lines m) ->
    fold_left (addItem keep) its acc = Some m' -> described lines m'.
Proof.
  induction its as [|it its IH]; simpl; intros Hsub acc m' D H.
  - apply D. exact H.
  - destruct acc as [m|].
    2:{ change (addItem keep None it) with (@None ObjectMap) in H.
        rewrite fold_addItem_thrown in H. discriminate. }
    apply (IH (fun x Hx => Hsub x (or_intror Hx)) (addItem keep (Some m) it));
      [|exact H].
    intros m1 E.
    apply (addItem_described keep lines m m1 it);
      [apply Hsub; now left | apply D; reflexivity | exact E].
Qed.

Lemma fold_invoices_described (keep : bool) (db : Store)
  (lines : list InvoiceItem) (invs : list Invoice) :
  (forall inv, In inv invs ->
               forall it, In it (itemsOf db (inv_id inv)) -> In it lines) ->
  forall (acc : option ObjectMap) (m : ObjectMap),
    (forall m0, acc = Some m0 -> described lines m0) ->
    fold_left
      (fun acc inv => fold_left (addItem keep) (itemsOf db (inv_id inv)) acc)
      invs acc = Some m ->
    described lines m.
Proof.
  induction invs as [|inv invs IH]; simpl; intros Hsub acc m D H.
  - apply D. exact H.
  - apply (IH (fun i Hi => Hsub i (or_intror Hi))
              (fold_left (addItem keep) (itemsOf db (inv_id inv)) acc));
      [|exact H].
    intros m1 E.
    apply (fold_addItem_described keep lines (itemsOf db (inv_id inv))
             (Hsub inv (or_introl eq_refl)) acc m1 D E).
Qed.

Lemma aggregateItems_described (keep : bool) (db : Store) (invs : list Invoice)
  (m : ObjectMap) :
  aggregateItems keep db invs = Some m ->
  described (flat_map (fun inv => itemsOf db (inv_id inv)) invs) m.
Proof.
  unfold aggregateItems. apply fold_invoices_described.
  - intros inv Hinv it Hit. apply in_flat_map. exists inv. split; assumption.
  - intros m0 E. injection E as <-. intros k e [].
Qed.

Lemma aggregateItems_no_lines (keep : bool) (db : Store) (invs : list Invoice) :
  flat_map (fun inv => itemsOf db (inv_id inv)) invs = [] ->
  aggregateItems keep db invs = Some [].
Proof.
  unfold aggregateItems. generalize (Some (@nil (string * Entry))).
  induction invs as [|inv invs IH]; simpl; intros acc H; [reflexivity|].
  apply app_eq_nil in H. destruct H as [H1 H2].
  rewrite H1. simpl. apply IH. exact H2.
Qed.

(** When the fallback is used, and the two confidence formulas. *)
Lemma fallback_when_nothing_is_left (db : Store) (uid cid : Id)
  (filterText : option string) :
  (forall l,
      clientSuggestions db uid cid filterText = Some l ->
      (l = [] ->
       suggestLineItems db uid cid filterText
       = option_map (firstn 10) (globalSuggestions db uid filterText))
      /\ (l <> [] ->
          suggestLineItems db uid cid filterText = Some (firstn 10 l))
      /\ (forall s, In s l ->
                    confidence s = Z.min 95 (50 + frequency s * 10)
                    /\ exists it, In it (clientLines db uid cid)
                                  /\ description it = s_description s))
  /\ (clientLines db uid cid = [] ->
      clientSuggestions db uid cid filterText = Some [])
  /\ (forall g s,
         globalSuggestions db uid filterText = Some g -> In s g ->
         s_quantity s = ofZ 1
         /\ confidence s = Z.min 70 (30 + frequency s * 5)).
Proof.
  split; [|split].
  - intros l H. split; [|split].
    + intros ->. unfold suggestLineItems. rewrite H.
      destruct (globalSuggestions db uid filterText); reflexivity.
    + intros N. unfold suggestLineItems. rewrite H.
      destruct l; [contradiction | reflexivity].
    + intros s Hs. unfold clientSuggestions in H.
      destruct (aggregateItems true db (clientInvoices db uid cid))
        as [itemMap|] eqn:Agg; [|discriminate].
      injection H as <-.
      apply In_applySearch, In_sortBy, in_map_iff in Hs.
      destruct Hs as [e [<- He]]. split; [reflexivity|].
      apply In_objectValues in He. destruct He as [k Hk].
      exact (aggregateItems_described true db _ itemMap Agg k e Hk).
  - intros H. unfold clientSuggestions.
    rewrite (aggregateItems_no_lines true db _ H).
    unfold applySearch. destruct (searchText filterText); reflexivity.
  - intros g s H Hs. unfold globalSuggestions in H.
    destruct (aggregateItems false db (allInvoices db uid)) as [globalMap|];
      [|discriminate].
    injection H as <-.
    apply In_applySearch, In_sortBy, in_map_iff in Hs.
    destruct Hs as [e [<- He]]. split; reflexivity.
Qed.
End Suggestions.

(** * Worked examples (binary64) *)

(** The helpers on a few inputs. *)

Example round_ties_up :
  map (@round Binary64) [dec 35 1; dec 25 1; dec (-25) 1; dec 104999 4]
  = [ofZ 4; ofZ 3; ofZ (-2); ofZ 10].
Proof. vm_compute. reflexivity. Qed.

Example round_keeps_the_sign_of_zero :
  map (@round Binary64) [dec (-5) 1; dec (-3) 1; dec 3 1]
  = [PrimFloat.neg_zero; PrimFloat.neg_zero; PrimFloat.zero].
Proof. vm_compute. reflexivity. Qed.

Example toZ_of_scores :
  map (@toZ Binary64) [ofZ 0; ofZ 20; ofZ 40; ofZ (-17)] = [0; 20; 40; -17].
Proof. vm_compute. reflexivity. Qed.

Example formatNumber_pads :
  map formatNumber [1; 16; 999; 1000]
  = ["INV-001"; "INV-016"; "INV-999"; "INV-1000"].
Proof. reflexivity. Qed.

(** Counters past what binary64 holds: 2^53 + 1 is read as 2^53, and
    adding 1 to that gives 2^53 again; 10^21 - 1 is read as 10^21, which
    is written in exponent notation and then read as 1. *)
Example counters_beyond_binary64 :
  (parseInt "9007199254740993",
   formatCount (plusOne (parseInt "9007199254740993")),
   formatCount (plusOne (parseInt "999999999999999999999")),
   option_map (fun ds => formatCount (plusOne (parseInt ds)))
     (matchInv "INV-1e+21"))
  = (Some 9007199254740992, "INV-9007199254740992", "INV-1e+21",
     Some "INV-002").
Proof. vm_compute. reflexivity. Qed.

Example showNumber_forms :
  map showNumber [0; 1762041600000; -5; 2 ^ 53; 10 ^ 21; 15 * 10 ^ 21; 2 ^ 70]
  = ["0"; "1762041600000"; "-5"; "9007199254740992"; "1e+21"; "1.5e+22";
     "1.1805916207174113e+21"].
Proof. vm_compute. reflexivity. Qed.

(** Binary64 numbers read as rationals, and integers rounded to
    binary64 by the machine and by [nearestDouble]. *)
Example to_Q_reads_floats :
  map (fun x => Qred (F64.to_Q x)) [ofZ 7; dec 1375 1; ofZ (-3); dec 1 3]
  = [7 # 1; 275 # 2; -3 # 1;
     1152921504606847 # 1152921504606846976]%Q.
Proof. vm_compute. reflexivity. Qed.

Example nearestDouble_is_binary64 :
  let machine z :=
    F64.to_Q (FloatOps.SF2Prim
                (SpecFloat.binary_normalize FloatOps.prec FloatOps.emax
                   z 0 false)) in
  let tests := [2 ^ 53 + 1; 2 ^ 53 + 3; 2 ^ 54 + 2; 2 ^ 54 + 6;
                10 ^ 21 - 1; 10 ^ 23; 123456789012345678901234567890;
                2 ^ 1024 - 2 ^ 971] in
  map (fun z => Some (machine z)) tests
  = map (fun z => option_map inject_Z (nearestDouble z)) tests.
Proof. vm_compute. reflexivity. Qed.

Example matchInv_first_match :
  map matchInv ["INV-015"; "2024/INV-7b"; "INV-"; "draft"]
  = [Some "015"; Some "7"; None; None].
Proof. reflexivity. Qed.

Example trim_and_split :
  (trim "  Web Design  ", splitSpace "a  b", includes "web design" "")
  = ("Web Design", ["a"; ""; "b"], true).
Proof. reflexivity. Qed.

Example objectValues_index_keys_first :
  map (@e_description (@num Binary64))
    (objectValues
       [("hosting", {| e_description := "Hosting"; rates := []; quantities := [];
                       count := 1 |});
        ("10", {| e_description := "10"; rates := []; quantities := [];
                  count := 1 |});
        ("2", {| e_description := "2"; rates := []; quantities := [];
                 count := 1 |})])
  = ["2"; "10"; "Hosting"].
Proof. reflexivity. Qed.

Lemma seedStore_totals : totalsStored seedStore.
Proof.
  split.
  - intros it Hit. simpl in Hit.
    destruct Hit as [<- | [<- | []]]; eexists;
      (split; [left; reflexivity | reflexivity]).
  - intros i Hi. simpl in Hi. destruct Hi as [<- | []].
    split; [|split; [|split]]; try (vm_compute; reflexivity).
    vm_compute. repeat (constructor; [reflexivity|]). constructor.
Qed.

Lemma seedStore_keys : uniqueIds seedStore.
Proof. unfold uniqueIds. simpl. repeat constructor. intros []. Qed.

(** C1, as stated, fails: the tolerance of 0.01 is absolute, and
    binary64 does not resolve a cent next to large amounts.  An invoice
    of one line of 10^16 at 7% is accepted; the tax it stores,
    [subtotal * (taxRate / 100)] as binary64 rounds it, is
    700000000000000.125, an eighth above subtotal * taxRate / 100. *)
Lemma C1_counterexample :
  exists db' inv its,
    createInvoice NoConstraint seedStore 1%N tenQuadrillion
    = (db', Ok 201 (inv, its))
    /\ In inv (invoices db')
    /\ (subtotal inv, taxRate inv) = (ofZ (10 ^ 16), ofZ 7)
    /\ (F64.to_Q (tax inv)
        - F64.to_Q (subtotal inv) * F64.to_Q (taxRate inv) / 100 == 1 # 8)%Q
    /\ withinCents (tax inv)
         (F64.to_Q (subtotal inv) * F64.to_Q (taxRate inv) / 100) = false
    /\ totalsClaimed inv its = false.
Proof.
  destruct (createInvoice NoConstraint seedStore 1%N tenQuadrillion)
    as [db' [code [inv its] | code m]] eqn:E;
    [|vm_compute in E; discriminate].
  exists db', inv, its.
  vm_compute in E. injection E as <- <- <- <-.
  split; [reflexivity|]. split; [right; left; reflexivity|].
  repeat split; vm_compute; reflexivity.
Qed.

(** C1 (amended), on the seeded ledger: raising the tax rate of INV-015
    (lines 2 x 50 and 1 x 25) from 10 to 20 is accepted and stores tax
    25 and total 150 next to the unchanged subtotal 125 and lines. *)
Lemma C1_witness :
  totalsStored seedStore
  /\ exists db' inv its,
       updateInvoice seedStore 1%N 1%N (changeTaxRate (ofZ 20))
       = (db', Ok 200 (inv, its))
       /\ totalsStored db'
       /\ totalsHold inv its
       /\ its = itemsOf seedStore 1%N
       /\ (subtotal inv, taxRate inv, tax inv, total inv)
          = (ofZ 125, ofZ 20, ofZ 25, ofZ 150).
Proof.
  split; [exact seedStore_totals|].
  destruct (updateInvoice seedStore 1%N 1%N (changeTaxRate (ofZ 20)))
    as [db' [code [inv its] | code m]] eqn:E;
    [|vm_compute in E; discriminate].
  exists db', inv, its.
  destruct (proj2 (C1_totals_recomputed NoConstraint seedStore 1%N
                     seedStore_totals) 1%N _ db' code inv its E)
    as (S' & _ & _ & _ & _ & K & _ & T).
  vm_compute in E. injection E as Edb Ecode Einv Eits.
  subst code. split; [reflexivity|]. split; [exact S'|]. split; [exact T|].
  split; [apply K; reflexivity|].
  subst inv. reflexivity.
Defined.

(** C2, on a ledger where 100 of 137.50 is paid: a payment of 50 is
    refused and the ledger is returned as it was. *)
Lemma C2_witness :
  option_map total (findOwnedInvoice partPaidStore 1%N 1%N)
  = Some (dec 1375 1)
  /\ cumulativePaid partPaidStore 1%N = ofZ 100
  /\ recordPayment partPaidStore 1%N 1%N (payBy (ofZ 50)) 2000
     = (partPaidStore, Error 400 "Payment amount exceeds remaining balance").
Proof.
  split; [vm_compute; reflexivity|]. split; [vm_compute; reflexivity|].
  destruct (findOwnedInvoice partPaidStore 1%N 1%N) as [inv|] eqn:F;
    [|vm_compute in F; discriminate].
  refine (proj2 (proj1 (proj2 (C2_recordPayment_rejects partPaidStore 1%N 1%N
                                 (payBy (ofZ 50)) 2000 inv F)) _) _).
  - vm_compute in F. injection F as <-. vm_compute. reflexivity.
  - vm_compute. reflexivity.
Defined.

(** C3. Two payments of exactly the balance due that do not mark the
    invoice paid.  On INV-016, total 0.82 with 0.30 paid, the balance
    due is 0.52; the payment of 0.52 is refused as exceeding the
    remaining balance, because 0.30 + 0.52 is 0.8200000000000001 in
    binary64.  On an invoice of 2^46 + 2^-6 with 2^-7 paid, the balance
    due is 2^46; the payment is accepted, and the sum falls 0.015625
    short of the total, outside the 0.01 tolerance: the invoice stays
    sent. *)
Theorem C3_balance_due_payment :
  (exists inv,
      findInvoice centsLedger 2%N = Some inv
      /\ total inv = dec 82 2
      /\ cumulativePaid centsLedger 2%N = dec 3 1
      /\ balanceDueOf centsLedger inv = dec 52 2
      /\ nsub (total inv) (cumulativePaid centsLedger 2%N) = dec 52 2
      /\ recordPayment centsLedger 1%N 2%N (payBy (dec 52 2)) 2000
         = (centsLedger,
            Error 400 "Payment amount exceeds remaining balance"))
  /\ (exists inv,
         findInvoice largeLedger 2%N = Some inv
         /\ total inv = largeTotal
         /\ cumulativePaid largeLedger 2%N = dec 78125 7
         /\ balanceDueOf largeLedger inv = ofZ (2 ^ 46)
         /\ nsub (total inv) (cumulativePaid largeLedger 2%N) = ofZ (2 ^ 46)
         /\ isOk (snd (recordPayment largeLedger 1%N 2%N
                         (payBy (ofZ (2 ^ 46))) 2000)) = true
         /\ statusOf largeLedger 2%N = Some sent
         /\ statusOf (fst (recordPayment largeLedger 1%N 2%N
                             (payBy (ofZ (2 ^ 46))) 2000)) 2%N = Some sent).
Proof.
  split; eexists; (split; [vm_compute; reflexivity|]);
    repeat split; vm_compute; reflexivity.
Qed.

(** C4, as stated, fails: [updateInvoice] reopens the paid INV-015 as a
    draft with other lines and another tax, and [recordPayment] turns
    the cancelled INV-015 into a paid invoice. *)
Lemma C4_counterexample :
  (statusOf paidStore 1%N = Some paid
   /\ map description (itemsOf paidStore 1%N) = ["Design"; "Review"]
   /\ option_map tax (findInvoice paidStore 1%N) = Some (dec 125 1)
   /\ isOk (snd (updateInvoice paidStore 1%N 1%N rewrite)) = true
   /\ statusOf (fst (updateInvoice paidStore 1%N 1%N rewrite)) 1%N
      = Some draft
   /\ map description (itemsOf (fst (updateInvoice paidStore 1%N 1%N rewrite))
                         1%N) = ["Retainer"]
   /\ option_map tax
        (findInvoice (fst (updateInvoice paidStore 1%N 1%N rewrite)) 1%N)
      = Some (dec 5 1))
  /\ (statusOf cancelledStore 1%N = Some cancelled
      /\ statusOf (fst (recordPayment cancelledStore 1%N 1%N
                          (payBy (dec 1375 1)) 2000)) 1%N = Some paid)
  /\ statusOf (fst (updateInvoice paidStore 1%N 1%N rewrite)) 1%N
     <> statusOf paidStore 1%N
  /\ statusOf (fst (recordPayment cancelledStore 1%N 1%N
                      (payBy (dec 1375 1)) 2000)) 1%N
     <> statusOf cancelledStore 1%N.
Proof.
  repeat split; try (vm_compute; reflexivity); vm_compute; discriminate.
Qed.

(** C4 (amended), on the paid INV-015: sending, reminding, paying
    online, sweeping and recording a payment leave it as it is. *)
Lemma C4_witness :
  uniqueIds paidStore
  /\ (exists inv,
         In inv (invoices paidStore) /\ inv_id inv = 1%N /\ terminal inv
         /\ fst (sendInvoice paidStore 1%N (inv_id inv)) = paidStore
         /\ fst (remindInvoice paidStore 1%N (inv_id inv) 5000) = paidStore
         /\ fst (processOnlinePayment paidStore (inv_id inv) anyPayer 5000
                   "k3x9q2ab") = paidStore
         /\ findInvoice (fst (checkOverdueInvoices paidStore 1%N
                                (100 * msPerDay))) (inv_id inv) = Some inv
         /\ findInvoice (fst (recordPayment paidStore 1%N (inv_id inv)
                                (payBy (ofZ 1)) 5000)) (inv_id inv)
            = Some inv).
Proof.
  assert (uniqueIds paidStore) as U.
  { unfold uniqueIds. vm_compute. repeat constructor. intros []. }
  split; [exact U|].
  destruct (findInvoice paidStore 1%N) as [inv|] eqn:F;
    [|vm_compute in F; discriminate].
  assert (In inv (invoices paidStore) /\ inv_id inv = 1%N) as [Hin Hid]
    by (apply findInvoice_some; exact F).
  assert (terminal inv) as T.
  { left. vm_compute in F. injection F as <-. reflexivity. }
  exists inv.
  pose proof (C4_terminal_statuses "http://localhost:3000" paidStore inv 1%N
                5000 U Hin T) as [[S _] [[R _] [_ [P [_ Pay]]]]].
  pose proof (C4_terminal_statuses "http://localhost:3000" paidStore inv 1%N
                (100 * msPerDay) U Hin T) as [_ [_ [_ [_ [[Sw _] _]]]]].
  repeat split; try assumption.
  - exact (proj1 (P anyPayer "k3x9q2ab")).
  - apply (proj2 (proj2 (Pay (payBy (ofZ 1))))).
    vm_compute in F. injection F as <-. reflexivity.
Defined.

(** C5. On the seeded ledger (counter 15, last invoice INV-015)
    [createInvoice] numbers the next invoice INV-016 from the last
    invoice and leaves the counter at 15; [duplicateInvoice] then
    numbers the copy from the counter, INV-016 again: the copy of
    INV-016 comes back with the number of its source when the table
    allows it, and is refused (nothing is stored) when the table keeps
    numbers unique. *)
Theorem C5_duplicate_repeats_number :
  (forall nc,
      fst (createInvoice nc seedStore 1%N
             (oneLine 1%N "Hosting" (ofZ 1) (dec 82 2))) = centsInvoiced)
  /\ option_map number (findInvoice centsInvoiced 2%N) = Some "INV-016"
  /\ map invoiceCounter (users centsInvoiced) = [15]
  /\ (exists db' copy lines,
         duplicateInvoice NoConstraint centsInvoiced 1%N 2%N 5000
         = (db', Ok 201 (copy, lines))
         /\ inv_id copy = 3%N
         /\ status copy = draft
         /\ number copy = "INV-016"
         /\ map number (invoices db') = ["INV-015"; "INV-016"; "INV-016"])
  /\ duplicateInvoice UniquePerUser centsInvoiced 1%N 2%N 5000
     = (centsInvoiced, Error 409 "A record with this value already exists")
  /\ duplicateInvoice UniqueGlobally centsInvoiced 1%N 2%N 5000
     = (centsInvoiced, Error 409 "A record with this value already exists").
Proof.
  split; [intros nc; destruct nc; vm_compute; reflexivity|].
  split; [vm_compute; reflexivity|].
  split; [vm_compute; reflexivity|].
  split.
  - eexists. eexists. eexists. split; [vm_compute; reflexivity|].
    repeat split.
  - split; vm_compute; reflexivity.
Qed.


(** C7, as stated, fails for a later clock reading: INV-015 is sent and
    due at day 30; a sweep at that very instant turns nothing, and the
    sweep run right after it, a millisecond later, turns one invoice. *)
Lemma C7_counterexample :
  (30 * msPerDay <= 30 * msPerDay + 1)%Z
  /\ snd (checkOverdueInvoices seedStore 1%N (30 * msPerDay)) = 0%nat
  /\ snd (checkOverdueInvoices
            (fst (checkOverdueInvoices seedStore 1%N (30 * msPerDay)))
            1%N (30 * msPerDay + 1)) = 1%nat
  /\ snd (checkOverdueInvoices
            (fst (checkOverdueInvoices seedStore 1%N (30 * msPerDay)))
            1%N (30 * msPerDay + 1)) <> 0%nat.
Proof. repeat split; vm_compute; congruence. Qed.

(** C8, on the seeded ledger: the second client has no invoice, so a
    candidate for it is no duplicate, confidence 95; a candidate for the
    first client with the total of INV-015, issued a day later, with one
    of its two lines, scores 40 + 15 + 20 = 75 and is a duplicate of
    confidence 75. *)
Lemma C8_witness :
  (isDuplicate (detectDuplicateInvoice seedStore 1%N 2%N (dec 1375 1) 0 [])
   = false
   /\ dc_confidence (detectDuplicateInvoice seedStore 1%N 2%N (dec 1375 1) 0 [])
      = ofZ 95)
  /\ (isDuplicate
        (detectDuplicateInvoice seedStore 1%N 1%N (dec 1375 1) msPerDay
           [{| in_description := "design";
               in_quantity := ofZ 2; in_rate := ofZ 50 |}]) = true
      /\ dc_confidence
           (detectDuplicateInvoice seedStore 1%N 1%N (dec 1375 1) msPerDay
              [{| in_description := "design";
                  in_quantity := ofZ 2; in_rate := ofZ 50 |}]) = ofZ 75).
Proof.
  split.
  - destruct (proj1 (C8_detectDuplicate seedStore 1%N 2%N (dec 1375 1) 0 []))
      as [Hd [Hc _]]; [|split; assumption].
    intros i Hi [_ [Hc _]]. simpl in Hi. destruct Hi as [<- | []].
    discriminate.
  - destruct (proj2 (C8_detectDuplicate seedStore 1%N 1%N (dec 1375 1)
                       msPerDay
                       [{| in_description := "design";
                           in_quantity := ofZ 2; in_rate := ofZ 50 |}]))
      as [Hd Hc].
    + eexists. split; [left; reflexivity|].
      repeat split; try discriminate; vm_compute; congruence.
    + assert (isDuplicate
                (detectDuplicateInvoice seedStore 1%N 1%N (dec 1375 1)
                   msPerDay
                   [{| in_description := "design";
                       in_quantity := ofZ 2; in_rate := ofZ 50 |}]) = true)
        as D.
      { apply Hd. eexists. split; [left; reflexivity|]. split.
        - repeat split; try discriminate; vm_compute; congruence.
        - vm_compute. congruence. }
      split; [exact D|]. rewrite Hc, D. vm_compute. reflexivity.
Defined.

(** C9, as stated, fails: the first client has a history (lines Design
    and Review), yet with the filter text "host" the suggestions come
    from the user-wide fallback: the line Hosting of the other client,
    with quantity 1 although its only use had quantity 3 (which the
    client-specific aggregation reports to that client), and with the
    fallback's confidence 35. *)
Lemma C9_counterexample :
  map description (clientLines twoClients 1%N 1%N) = ["Design"; "Review"]
  /\ clientLines twoClients 1%N 1%N <> []
  /\ suggestLineItems twoClients 1%N 1%N (Some "host")
     = Some [{| s_description := "Hosting"; s_quantity := ofZ 1;
                s_rate := ofZ 10; frequency := 1; confidence := 35 |}]
  /\ suggestLineItems twoClients 1%N 1%N (Some "host")
     = option_map (firstn 10) (globalSuggestions twoClients 1%N (Some "host"))
  /\ suggestLineItems twoClients 1%N 2%N None
     = Some [{| s_description := "Hosting"; s_quantity := ofZ 3;
                s_rate := ofZ 10; frequency := 1; confidence := 60 |}].
Proof.
  repeat split; try (vm_compute; reflexivity). vm_compute. discriminate.
Qed.

(** C10, as stated, fails: a payment of 10 in cash for INV-015 (137.50,
    nothing paid) passes validation, names an invoice of the caller and
    does not exceed the balance, and yet it is refused, with 500,
    because its [paidAt] is no date. *)
Lemma C10_counterexample :
  (exists inv, findOwnedInvoice seedStore 1%N 1%N = Some inv
               /\ (cumulativePaid seedStore 1%N + pi_amount undated
                     >? total inv)%num = false)
  /\ createPaymentSchema undated = None
  /\ recordPayment seedStore 1%N 1%N undated 2000
     = (seedStore, Error 500 invalidValue).
Proof.
  split; [|split; vm_compute; reflexivity].
  eexists. split; [vm_compute; reflexivity|]. vm_compute. reflexivity.
Qed.

(** C10 (amended), on the cancelled INV-015 of which 100 is paid: a
    payment of the remaining 37.50 is accepted, stored as the second
    payment, and marks the invoice paid. *)
Lemma C10_witness :
  statusOf cancelledPartPaid 1%N = Some cancelled
  /\ cumulativePaid cancelledPartPaid 1%N = ofZ 100
  /\ isOk (snd (recordPayment cancelledPartPaid 1%N 1%N (payBy (dec 375 1))
                  2000)) = true
  /\ List.length (payments (fst (recordPayment cancelledPartPaid 1%N 1%N
                                   (payBy (dec 375 1)) 2000))) = 2%nat
  /\ statusOf (fst (recordPayment cancelledPartPaid 1%N 1%N
                      (payBy (dec 375 1)) 2000)) 1%N = Some paid.
Proof.
  split; [vm_compute; reflexivity|].
  split; [vm_compute; reflexivity|].
  destruct (findOwnedInvoice cancelledPartPaid 1%N 1%N) as [inv|] eqn:F;
    [|vm_compute in F; discriminate].
  assert (total inv = dec 1375 1) as Ht
    by (vm_compute in F; injection F as <-; vm_compute; reflexivity).
  assert (createPaymentSchema (payBy (dec 375 1)) = None) as V
    by (vm_compute; reflexivity).
  assert (nltb (total inv)
               (nadd (cumulativePaid cancelledPartPaid 1%N)
                     (pi_amount (payBy (dec 375 1)))) = false) as O
    by (rewrite Ht; vm_compute; reflexivity).
  assert (pi_paidAt (payBy (dec 375 1)) <> Some noDate) as D by discriminate.
  destruct (proj1 (proj1 (proj2 (C10_recordPayment_ignores_status
                                   cancelledPartPaid 1%N 1%N
                                   (payBy (dec 375 1)) 2000)) inv F V O) D)
    as [R [P S]].
  split; [rewrite R; reflexivity|].
  split; [rewrite P; vm_compute; reflexivity|].
  rewrite S, Ht. vm_compute. reflexivity.
Defined.

(** * Properties of the request sequence *)

Section Invariants.
Context {A : Arith}.
Local Open Scope num_scope.
Variable nc : NumberConstraint.
Variable baseUrl : string.

Lemma run_invariant (P : Store -> Prop) :
  (forall db r, P db -> P (serve nc baseUrl db r)) ->
  forall requests db, P db -> P (run nc baseUrl db requests).
Proof.
  intros step requests. unfold run.
  induction requests as [|r rs IH]; intros db H; simpl; [exact H|].
  apply IH, step, H.
Qed.

Lemma moneyKept_id : moneyKept (fun i => i).
Proof. intros i. repeat split. Qed.

Lemma moneyKept_patch (id : Id) (p : InvoicePatch) :
  p_subtotal p = None -> p_taxRate p = None -> p_tax p = None ->
  p_total p = None ->
  moneyKept (fun i => if N.eqb (inv_id i) id then applyPatch p i else i).
Proof.
  intros H1 H2 H3 H4 i. destruct (N.eqb (inv_id i) id); simpl;
    rewrite ?H1, ?H2, ?H3, ?H4; repeat split.
Qed.

Lemma moneyKept_sweep (uid : Id) (now : Date) :
  moneyKept (fun i => if isOverdueNow uid now i
                      then applyPatch (setStatus overdue) i else i).
Proof. intros i. destruct (isOverdueNow uid now i); repeat split. Qed.

Lemma rewritten_refl (db : Store) : rewritten db db.
Proof.
  exists (fun i => i), []. split; [apply moneyKept_id|].
  rewrite map_id, app_nil_r. repeat split. left. reflexivity.
Qed.

Lemma rewritten_patch (db : Store) (id : Id) (p : InvoicePatch) :
  p_subtotal p = None -> p_taxRate p = None -> p_tax p = None ->
  p_total p = None ->
  rewritten db (updateInvoiceRow db id p).
Proof.
  intros H1 H2 H3 H4.
  exists (fun i => if N.eqb (inv_id i) id then applyPatch p i else i), [].
  split; [apply moneyKept_patch; assumption|].
  simpl. rewrite app_nil_r. repeat split. left. reflexivity.
Qed.

Lemma light_rewritten (db : Store) (r : Request) :
  light r = true -> rewritten db (serve nc baseUrl db r).
Proof.
  destruct r as [uid body|uid id body|uid id|uid id|uid id now
                |uid id type now|uid now|uid id body now|id body now token
                |uid id now]; try discriminate; intros _; simpl.
  - (* send *)
    unfold sendInvoice.
    destruct (findOwnedInvoice db id uid) as [invoice|];
      [|apply rewritten_refl].
    destruct (negb (status_eqb (status invoice) draft)
              && negb (status_eqb (status invoice) sent));
      [apply rewritten_refl|].
    unfold returnRow.
    destruct (findInvoice (updateInvoiceRow db id (setStatus sent)) id);
      apply rewritten_patch; reflexivity.
  - (* remind *)
    unfold remindInvoice.
    destruct (findOwnedInvoice db id uid) as [invoice|];
      [|apply rewritten_refl].
    destruct (negb (status_eqb (status invoice) sent)
              && negb (status_eqb (status invoice) overdue));
      [apply rewritten_refl|].
    destruct (findInvoice (updateInvoiceRow db id (reminderPatch invoice now)) id);
      apply rewritten_patch; reflexivity.
  - (* email *)
    unfold emailInvoice.
    destruct (findOwnedInvoice db id uid) as [invoice|];
      [|apply rewritten_refl].
    destruct type.
    + destruct (negb (status_eqb (status invoice) draft)
                && negb (status_eqb (status invoice) sent));
        [apply rewritten_refl | apply rewritten_patch; reflexivity].
    + destruct (negb (status_eqb (status invoice) sent)
                && negb (status_eqb (status invoice) overdue));
        [apply rewritten_refl | apply rewritten_patch; reflexivity].
    + destruct (paymentsOf db id); apply rewritten_refl.
  - (* sweep *)
    exists (fun i => if isOverdueNow uid now i
                     then applyPatch (setStatus overdue) i else i), [].
    split; [apply moneyKept_sweep|].
    rewrite app_nil_r. repeat split. left. reflexivity.
  - (* recordPayment *)
    unfold recordPayment.
    destruct (findOwnedInvoice db id uid) as [invoice|] eqn:F;
      [|apply rewritten_refl].
    destruct (createPaymentSchema body) eqn:V; [apply rewritten_refl|].
    match goal with
    | |- context [if ?c then (db, _) else _] => destruct c
    end; [apply rewritten_refl|].
    destruct (negb (dateOr (pi_paidAt body))); [apply rewritten_refl|].
    apply createPaymentSchema_passes in V. destruct V as [_ [Hpos _]].
    apply findOwnedInvoice_some in F. destruct F as [Hin Hid].
    unfold insertPayment.
    match goal with
    | |- context [if ?c then updateInvoiceRow _ _ _ else _] => destruct c
    end; simpl.
    + exists (fun i => if N.eqb (inv_id i) id
                       then applyPatch (setStatus paid) i else i).
      eexists. split; [apply moneyKept_patch; reflexivity|].
      repeat split. right. eexists. split; [reflexivity|]. simpl.
      split; [reflexivity|]. split; [|exact Hpos].
      exists invoice. split; assumption.
    + exists (fun i => i). eexists. split; [apply moneyKept_id|].
      rewrite map_id. repeat split. right. eexists.
      split; [reflexivity|]. simpl.
      split; [reflexivity|]. split; [|exact Hpos].
      exists invoice. split; assumption.
  - (* processOnlinePayment *)
    unfold processOnlinePayment.
    destruct (findInvoice db id) as [invoice|] eqn:F; [|apply rewritten_refl].
    destruct (status_eqb (status invoice) paid); [apply rewritten_refl|].
    destruct (status_eqb (status invoice) cancelled); [apply rewritten_refl|].
    destruct (balanceDueOf db invoice <=? ofZ 0) eqn:B; [apply rewritten_refl|].
    apply findInvoice_some in F. destruct F as [Hin Hid].
    unfold insertPayment. simpl.
    exists (fun i => if N.eqb (inv_id i) id
                     then applyPatch (setStatus paid) i else i).
    eexists. split; [apply moneyKept_patch; reflexivity|].
    repeat split. right. eexists. split; [reflexivity|]. simpl.
    split; [reflexivity|]. split; [|exact B].
    exists invoice. split; assumption.
Qed.

(** *** What a rewriting keeps *)

Lemma map_id_rewritten (f : Invoice -> Invoice) (l : list Invoice) :
  moneyKept f -> map inv_id (map f l) = map inv_id l.
Proof.
  intros K. rewrite map_map. apply map_ext. intros i. apply (K i).
Qed.

Lemma NoDup_fresh (used : list Id) : NoDup used -> NoDup (used ++ [freshId used]).
Proof.
  intros H. apply NoDup_app; [exact H | repeat constructor; intros [] |].
  intros x Hx [E|[]]. subst x. exact (freshId_fresh used Hx).
Qed.

Lemma rewritten_keys (db db' : Store) :
  rewritten db db' -> keysUnique db -> keysUnique db'.
Proof.
  intros [f [extra [K [Ei [Et [_ [_ [Ep Ha]]]]]]]] [U1 [U2 U3]].
  unfold keysUnique. rewrite Ei, Et, Ep, (map_id_rewritten f _ K).
  split; [exact U1|]. split; [exact U2|].
  destruct Ha as [->|[p [-> [Hid _]]]].
  - rewrite app_nil_r. exact U3.
  - rewrite map_app. simpl. rewrite Hid. apply NoDup_fresh, U3.
Qed.

Lemma rewritten_invoice (db db' : Store) (i : Invoice) :
  rewritten db db' -> In i (invoices db) ->
  exists i', In i' (invoices db') /\ inv_id i' = inv_id i.
Proof.
  intros [f [extra [K [Ei _]]]] Hi. exists (f i). split; [|apply (K i)].
  rewrite Ei. apply in_map, Hi.
Qed.

Lemma rewritten_itemsBelong (db db' : Store) :
  rewritten db db' -> itemsBelong db -> itemsBelong db'.
Proof.
  intros R B it Hit. pose proof R as [f [extra [_ [_ [Et _]]]]].
  rewrite Et in Hit. destruct (B it Hit) as [i [Hi Hid]].
  destruct (rewritten_invoice db db' i R Hi) as [i' [Hi' E]].
  exists i'. split; [exact Hi' | congruence].
Qed.

Lemma rewritten_paymentsBelong (db db' : Store) :
  rewritten db db' -> paymentsBelong db -> paymentsBelong db'.
Proof.
  intros R B p Hp. pose proof R as [f [extra [_ [_ [_ [_ [_ [Ep Ha]]]]]]]].
  rewrite Ep in Hp. apply in_app_or in Hp.
  assert (exists i, In i (invoices db) /\ inv_id i = pay_invoiceId p)
    as [i [Hi Hid]].
  { destruct Hp as [Hp|Hp]; [exact (B p Hp)|].
    destruct Ha as [->|[q [-> [_ [Hq _]]]]]; [destruct Hp|].
    destruct Hp as [<-|[]]. exact Hq. }
  destruct (rewritten_invoice db db' i R Hi) as [i' [Hi' E]].
  exists i'. split; [exact Hi' | congruence].
Qed.

Lemma rewritten_positive (db db' : Store) :
  rewritten db db' -> positivePayments db -> positivePayments db'.
Proof.
  intros [f [extra [_ [_ [_ [_ [_ [Ep Ha]]]]]]]] P p Hp.
  rewrite Ep in Hp. apply in_app_or in Hp.
  destruct Hp as [Hp|Hp]; [exact (P p Hp)|].
  destruct Ha as [->|[q [-> [_ [_ Hq]]]]]; [destruct Hp|].
  destruct Hp as [<-|[]]. exact Hq.
Qed.

Lemma rewritten_totals (db db' : Store) :
  rewritten db db' -> totalsStored db -> totalsStored db'.
Proof.
  intros R [B T]. split; [exact (rewritten_itemsBelong db db' R B)|].
  destruct R as [f [extra [K [Ei [Et _]]]]].
  intros i' Hi'. rewrite Ei in Hi'. apply in_map_iff in Hi'.
  destruct Hi' as [i [<- Hi]].
  destruct (K i) as [Kid [_ [K1 [K2 [K3 K4]]]]].
  unfold itemsOf. rewrite Et, Kid.
  exact (totalsHold_fields i (f i) _ K1 K2 K3 K4 (T i Hi)).
Qed.

(** *** The handlers that insert and delete rows *)

Lemma NoDup_map_filter {T K} (key : T -> K) (f : T -> bool) (l : list T) :
  NoDup (map key l) -> NoDup (map key (filter f l)).
Proof.
  induction l as [|x l IH]; simpl; intros H; [constructor|].
  inversion H as [|? ? Hx Hl]; subst.
  destruct (f x); simpl; [|exact (IH Hl)].
  constructor; [|exact (IH Hl)].
  intros Hin. apply Hx. apply in_map_iff in Hin.
  destruct Hin as [y [E Hy]]. apply filter_In in Hy.
  apply in_map_iff. exists y. tauto.
Qed.

Lemma createItems_keys (l : list ItemData) :
  forall (rows : list InvoiceItem) (id : Id),
    NoDup (map item_id rows) -> NoDup (map item_id (createItems rows id l)).
Proof.
  induction l as [|d l IH]; intros rows id H; simpl; [exact H|].
  apply IH. rewrite map_app. simpl. apply NoDup_fresh, H.
Qed.

Lemma insertInvoice_items (db db' : Store) (row : Invoice)
  (lines : list ItemData) (r : Response (Invoice * list InvoiceItem)) :
  insertInvoice nc db row lines = (db', r) ->
  NoDup (map item_id (items db)) -> NoDup (map item_id (items db')).
Proof.
  unfold insertInvoice.
  destruct (negb (validRow row && forallb validLine lines)); [congruence|].
  destruct (numberTaken nc db (userId row) (number row)); [congruence|].
  destruct (findClient db (clientId row)); [|congruence].
  intros H U. injection H as <- _. simpl. apply createItems_keys, U.
Qed.

Lemma rewritten_wellKeyed (db db' : Store) :
  rewritten db db' -> wellKeyed db -> wellKeyed db'.
Proof.
  intros R [K [I P]]. split; [exact (rewritten_keys db db' R K)|].
  split; [exact (rewritten_itemsBelong db db' R I)
         | exact (rewritten_paymentsBelong db db' R P)].
Qed.

Lemma insertInvoice_wellKeyed (db db' : Store) (row : Invoice)
  (lines : list ItemData) (r : Response (Invoice * list InvoiceItem)) :
  insertInvoice nc db row lines = (db', r) -> wellKeyed db -> wellKeyed db'.
Proof.
  intros I W. destruct r as [code [inv its]|code message];
    [|rewrite (insertInvoice_refused nc db db' row lines code message I);
      exact W].
  pose proof (insertInvoice_items db db' row lines _ I) as Hk.
  destruct (insertInvoice_shape nc db db' row inv lines code its I)
    as [new [Ei [Et [_ [Ep [_ [F [Eid _]]]]]]]].
  destruct W as [[U1 [U2 U3]] [B P]]. split; [|split].
  - unfold keysUnique. rewrite Ep. split; [|split; [exact (Hk U2) | exact U3]].
    rewrite Ei, map_app. simpl. rewrite Eid. apply NoDup_fresh, U1.
  - intros it Hit. rewrite Et in Hit. rewrite Ei.
    apply in_app_or in Hit. destruct Hit as [Hit|Hit].
    + destruct (B it Hit) as [i [Hi Hid]]. exists i.
      split; [apply in_or_app; left; exact Hi | exact Hid].
    + exists inv. split; [apply in_or_app; right; left; reflexivity|].
      symmetry. exact (proj1 (Forall_forall _ _) F it Hit).
  - intros p Hp. rewrite Ep in Hp. rewrite Ei.
    destruct (P p Hp) as [i [Hi Hid]]. exists i.
    split; [apply in_or_app; left; exact Hi | exact Hid].
Qed.

Lemma setCounter_wellKeyed (db : Store) (uid : Id) (n : Z) :
  wellKeyed db -> wellKeyed (setCounter db uid n).
Proof. intros W. exact W. Qed.

Lemma In_patched (db : Store) (id : Id) (p : InvoicePatch) (i : Invoice) :
  In i (invoices db) ->
  exists i', In i' (invoices (updateInvoiceRow db id p)) /\ inv_id i' = inv_id i.
Proof.
  intros Hi. exists (if N.eqb (inv_id i) id then applyPatch p i else i).
  split; [|destruct (N.eqb (inv_id i) id); reflexivity].
  simpl. apply in_map_iff. exists i. split; [reflexivity | exact Hi].
Qed.

Lemma patched_ids (db : Store) (id : Id) (p : InvoicePatch) :
  map inv_id (invoices (updateInvoiceRow db id p)) = map inv_id (invoices db).
Proof.
  simpl. rewrite map_map. apply map_ext. intros i.
  destruct (N.eqb (inv_id i) id); reflexivity.
Qed.

Lemma updateInvoiceRow_nothing (db : Store) (id : Id) :
  updateInvoiceRow db id emptyPatch = db.
Proof.
  destruct db as [us cs invs its ps]. unfold updateInvoiceRow, setInvoices.
  simpl. f_equal. apply map_fixed. intros i _.
  destruct (N.eqb (inv_id i) id); [destruct i|]; reflexivity.
Qed.

(** The store [updateInvoice] leaves: the one it found, one row patched,
    or one row patched and its lines replaced; the row is written with
    the status of the body, or not at all.  (The store of a refused
    update that carried lines is of the third kind: nothing is written
    to the row and no line takes the place of the deleted ones.) *)
Lemma updateInvoice_store (db : Store) (uid id : Id) (body : UpdateInvoiceInput) :
  fst (updateInvoice db uid id body) = db
  \/ exists existing p,
       findOwnedInvoice db id uid = Some existing
       /\ (p_status p = u_status body \/ p_status p = None)
       /\ (fst (updateInvoice db uid id body) = updateInvoiceRow db id p
           \/ exists lines,
                fst (updateInvoice db uid id body)
                = setItems (updateInvoiceRow (deleteItemsOf db id) id p)
                    (createItems
                       (items (updateInvoiceRow (deleteItemsOf db id) id p))
                       id lines)).
Proof.
  unfold updateInvoice.
  destruct (findOwnedInvoice db id uid) as [existing|]; [|left; reflexivity].
  destruct (updateInvoiceSchema body); [left; reflexivity|].
  cbv zeta.
  destruct (u_items body) as [newItems|].
  - match goal with
    | |- context [refusedUpdate ?d ?q ?l] => destruct (refusedUpdate d q l)
    end.
    + right. exists existing, emptyPatch. split; [reflexivity|].
      split; [right; reflexivity|]. right. exists []. simpl fst.
      rewrite updateInvoiceRow_nothing. destruct db; reflexivity.
    + right. exists existing. eexists. split; [reflexivity|].
      split; [left|right; eexists;
        match goal with
        | |- fst (match findInvoice ?d id with _ => _ end) = _ =>
            destruct (findInvoice d id); reflexivity
        end]. reflexivity.
  - destruct (refusedUpdate db (rowUpdate existing body) []);
      [left; reflexivity|].
    right. exists existing, (rowUpdate existing body).
    split; [reflexivity|]. split.
    + left. unfold rowUpdate. destruct (u_taxRate body); reflexivity.
    + left. destruct (findInvoice _ id); reflexivity.
Qed.

Lemma updateInvoice_wellKeyed (db : Store) (uid id : Id)
  (body : UpdateInvoiceInput) :
  wellKeyed db -> wellKeyed (fst (updateInvoice db uid id body)).
Proof.
  intros W.
  destruct (updateInvoice_store db uid id body)
    as [->|[existing [p [F [_ [->|[lines ->]]]]]]]; [exact W| |].
  - destruct W as [[U1 [U2 U3]] [B P]]. split; [|split].
    + unfold keysUnique. rewrite patched_ids. repeat split; assumption.
    + intros it Hit. destruct (B it Hit) as [i [Hi Hid]].
      destruct (In_patched db id p i Hi) as [i' [Hi' E]].
      exists i'. split; [exact Hi' | congruence].
    + intros q Hq. destruct (P q Hq) as [i [Hi Hid]].
      destruct (In_patched db id p i Hi) as [i' [Hi' E]].
      exists i'. split; [exact Hi' | congruence].
  - destruct W as [[U1 [U2 U3]] [B P]].
    apply findOwnedInvoice_some in F. destruct F as [Hex Hexid].
    set (db2 := updateInvoiceRow (deleteItemsOf db id) id p).
    destruct (createItems_appends lines (items db2) id) as [new [E [_ Fn]]].
    split; [|split].
    + unfold keysUnique. simpl. split; [|split; [|exact U3]].
      * change (NoDup (map inv_id (invoices (updateInvoiceRow db id p)))).
        rewrite patched_ids. exact U1.
      * apply createItems_keys. simpl. apply NoDup_map_filter, U2.
    + intros it Hit. simpl in Hit.
      change (createItems _ id lines) with (createItems (items db2) id lines)
        in Hit.
      rewrite E in Hit. apply in_app_or in Hit.
      change (exists i, In i (invoices (updateInvoiceRow db id p))
                        /\ inv_id i = invoiceId it).
      destruct Hit as [Hit|Hit].
      * simpl in Hit. apply filter_In in Hit. destruct Hit as [Hit _].
        destruct (B it Hit) as [i [Hi Hid]].
        destruct (In_patched db id p i Hi) as [i' [Hi' E']].
        exists i'. split; [exact Hi' | congruence].
      * destruct (In_patched db id p existing Hex) as [i' [Hi' E']].
        exists i'. split; [exact Hi'|].
        rewrite (proj1 (Forall_forall _ _) Fn it Hit). congruence.
    + intros q Hq. simpl in Hq. destruct (P q Hq) as [i [Hi Hid]].
      destruct (In_patched db id p i Hi) as [i' [Hi' E']].
      exists i'. split; [exact Hi' | congruence].
Qed.

Lemma deleteInvoice_store (db : Store) (uid id : Id) :
  fst (deleteInvoice db uid id) = db
  \/ (exists existing, findOwnedInvoice db id uid = Some existing)
     /\ invoices (fst (deleteInvoice db uid id))
        = filter (fun i => negb (N.eqb (inv_id i) id)) (invoices db)
     /\ items (fst (deleteInvoice db uid id))
        = filter (fun it => negb (N.eqb (invoiceId it) id)) (items db)
     /\ payments (fst (deleteInvoice db uid id))
        = filter (fun p => negb (N.eqb (pay_invoiceId p) id)) (payments db)
     /\ users (fst (deleteInvoice db uid id)) = users db
     /\ clients (fst (deleteInvoice db uid id)) = clients db.
Proof.
  unfold deleteInvoice.
  destruct (findOwnedInvoice db id uid) as [existing|]; [|left; reflexivity].
  right. split; [exists existing; reflexivity|]. repeat split.
Qed.

Lemma deleteInvoice_wellKeyed (db : Store) (uid id : Id) :
  wellKeyed db -> wellKeyed (fst (deleteInvoice db uid id)).
Proof.
  intros W.
  destruct (deleteInvoice_store db uid id)
    as [->|[_ [Ei [Et [Ep _]]]]]; [exact W|].
  destruct W as [[U1 [U2 U3]] [B P]]. split; [|split].
  - unfold keysUnique. rewrite Ei, Et, Ep.
    repeat split; apply NoDup_map_filter; assumption.
  - intros it Hit. rewrite Et in Hit. apply filter_In in Hit.
    destruct Hit as [Hit Hn]. destruct (B it Hit) as [i [Hi Hid]].
    exists i. split; [|exact Hid]. rewrite Ei. apply filter_In.
    split; [exact Hi|]. rewrite Hid. exact Hn.
  - intros q Hq. rewrite Ep in Hq. apply filter_In in Hq.
    destruct Hq as [Hq Hn]. destruct (P q Hq) as [i [Hi Hid]].
    exists i. split; [|exact Hid]. rewrite Ei. apply filter_In.
    split; [exact Hi|]. rewrite Hid. exact Hn.
Qed.

Lemma firstIssue_none (checks : list (option string)) (c : option string) :
  firstIssue checks = None -> In c checks -> c = None.
Proof.
  induction checks as [|[m|] rest IH]; simpl; intros H Hin;
    [destruct Hin | discriminate |].
  destruct Hin as [<-|Hin]; [reflexivity | exact (IH H Hin)].
Qed.

(** [createInvoice] either leaves the store or inserts a row of the
    session user, as a draft or as sent. *)
Lemma createInvoice_store (db : Store) (uid : Id) (body : CreateInvoiceInput) :
  fst (createInvoice nc db uid body) = db
  \/ exists row code b,
       userId row = uid
       /\ (status row = draft \/ status row = sent)
       /\ insertInvoice nc db row (map withAmount (c_items body))
          = (fst (createInvoice nc db uid body), Ok code b).
Proof.
  unfold createInvoice.
  destruct (createInvoiceSchema body) eqn:V; [left; reflexivity|].
  cbv zeta.
  destruct (c_issueDate body) as [issue|]; [|left; reflexivity].
  destruct (c_dueDate body) as [due|]; [|left; reflexivity].
  match goal with
  | |- context [insertInvoice nc db ?r ?l] =>
      destruct (insertInvoice nc db r l) as [db' [c b|c m]] eqn:I
  end.
  - right. eexists. exists c, b. split; [|split; [|exact I]]; simpl.
    + reflexivity.
    + unfold createInvoiceSchema in V.
      pose proof (firstIssue_none _ _ V
                    (in_or_app _ _ _
                       (or_introl (in_cons _ _ _ (in_eq _ _))))) as S.
      destruct (c_status body) as [[]|]; try discriminate;
        simpl; auto.
  - left. simpl. exact (insertInvoice_refused nc db db' _ _ c m I).
Qed.

(** [duplicateInvoice] either leaves the store or advances the owner's
    counter and inserts the copy. *)
Lemma duplicateInvoice_store (db : Store) (uid id : Id) (now : Date) :
  fst (duplicateInvoice nc db uid id now) = db
  \/ exists invoice userData row code b,
       findOwnedInvoice db id uid = Some invoice
       /\ findUser db uid = Some userData
       /\ subtotal row = subtotal invoice /\ taxRate row = taxRate invoice
       /\ tax row = tax invoice /\ total row = total invoice
       /\ userId row = uid /\ status row = draft
       /\ insertInvoice nc (setCounter db uid (invoiceCounter userData + 1)%Z)
            row (map copyItem (itemsOf db id))
          = (fst (duplicateInvoice nc db uid id now), Ok code b)
       /\ snd (duplicateInvoice nc db uid id now) = Ok code b.
Proof.
  unfold duplicateInvoice.
  destruct (findOwnedInvoice db id uid) as [invoice|]; [|left; reflexivity].
  destruct (findUser db uid) as [userData|]; [|left; reflexivity].
  match goal with
  | |- context [insertInvoice nc ?d ?r ?l] =>
      destruct (insertInvoice nc d r l) as [db2 [c b | c m]] eqn:I
  end; [|left; reflexivity].
  right. exists invoice, userData. eexists. exists c, b.
  split; [reflexivity|]. split; [reflexivity|].
  split; [|split; [|split; [|split; [|split; [|split;
    [|split; [exact I|reflexivity]]]]]]]; reflexivity.
Qed.

Lemma serve_wellKeyed (db : Store) (r : Request) :
  wellKeyed db -> wellKeyed (serve nc baseUrl db r).
Proof.
  intros W. destruct (light r) eqn:L;
    [exact (rewritten_wellKeyed _ _ (light_rewritten db r L) W)|].
  destruct r as [uid body|uid id body|uid id|uid id|uid id now
                |uid id type now|uid now|uid id body now|id body now token
                |uid id now]; try discriminate; simpl.
  - unfold createInvoice.
    destruct (createInvoiceSchema body); [exact W|]. cbv zeta.
    destruct (c_issueDate body) as [issue|]; [|exact W].
    destruct (c_dueDate body) as [due|]; [|exact W].
    match goal with
    | |- context [insertInvoice nc db ?r ?l] =>
        destruct (insertInvoice nc db r l) as [db' res] eqn:I
    end.
    exact (insertInvoice_wellKeyed _ _ _ _ _ I W).
  - apply updateInvoice_wellKeyed, W.
  - apply deleteInvoice_wellKeyed, W.
  - destruct (duplicateInvoice_store db uid id now)
      as [->|(invoice & userData & row & code & b & _ & _ & _ & _ & _ & _ & _
           & _ & I & _)];
      [exact W|].
    exact (insertInvoice_wellKeyed _ _ _ _ _ I
             (setCounter_wellKeyed db uid _ W)).
Qed.

(** *** Totals *)

(** An insertion keeps the totals when the row agrees with the lines it
    comes with, whichever way the lines were made. *)
Lemma insertInvoice_lines_totals (db db' : Store) (row : Invoice)
  (lines : list ItemData) (r : Response (Invoice * list InvoiceItem)) :
  totalsStored db ->
  Forall (fun d => d_amount d = d_quantity d * d_rate d) lines ->
  subtotal row = sumAmounts (map d_amount lines) ->
  tax row = subtotal row * (taxRate row / ofZ 100) ->
  total row = subtotal row + tax row ->
  insertInvoice nc db row lines = (db', r) -> totalsStored db'.
Proof.
  intros [B T] Hl Hs Ht Hto I.
  destruct r as [code [inv its]|code message];
    [|rewrite (insertInvoice_refused nc db db' row lines code message I);
      split; assumption].
  destruct (insertInvoice_shape nc db db' row inv lines code its I)
    as [new [Ei [Et [_ [_ [M [F [Eid [_ [_ [E1 [E2 [E3 E4]]]]]]]]]]]]].
  split.
  - intros it Hit. rewrite Et in Hit. rewrite Ei.
    apply in_app_or in Hit. destruct Hit as [Hit|Hit].
    + destruct (B it Hit) as [i [Hi Hid]]. exists i.
      split; [apply in_or_app; left; exact Hi | exact Hid].
    + exists inv. split; [apply in_or_app; right; left; reflexivity|].
      symmetry. exact (proj1 (Forall_forall _ _) F it Hit).
  - intros i Hi. rewrite Ei in Hi. unfold itemsOf. rewrite Et, filter_app.
    apply in_app_or in Hi. destruct Hi as [Hi|[<-|[]]].
    + rewrite (filter_new_other new (inv_id inv) (inv_id i) F), app_nil_r;
        [exact (T i Hi)|].
      rewrite Eid. intros E.
      apply (freshId_fresh (map inv_id (invoices db))).
      rewrite <- E. apply in_map, Hi.
    + rewrite (filter_new_same new _ F).
      rewrite filter_none;
        [|intros it Hit; apply N.eqb_neq; rewrite Eid;
          apply belongs_not_fresh; assumption].
      simpl. split; [|split; [|split]].
      * apply Forall_forall. intros it Hit.
        assert (In (copyItem it) lines) as Hc
            by (rewrite <- M; apply in_map, Hit).
        exact (proj1 (Forall_forall _ _) Hl _ Hc).
      * rewrite E1, Hs, <- M, map_map. reflexivity.
      * rewrite E3, E1, E2. exact Ht.
      * rewrite E4, E1, E3. exact Hto.
Qed.

Lemma filter_within {T} (f g : T -> bool) (l : list T) :
  (forall x, f x = true -> g x = true) -> filter f (filter g l) = filter f l.
Proof.
  intros H. induction l as [|x l IH]; [reflexivity|]. simpl.
  destruct (f x) eqn:F.
  - rewrite (H x F). simpl. rewrite F, IH. reflexivity.
  - destruct (g x); simpl; [rewrite F|]; exact IH.
Qed.

Lemma deleteInvoice_totals (db : Store) (uid id : Id) :
  totalsStored db -> totalsStored (fst (deleteInvoice db uid id)).
Proof.
  intros W.
  destruct (deleteInvoice_store db uid id)
    as [->|[_ [Ei [Et _]]]]; [exact W|].
  destruct W as [B T]. split.
  - intros it Hit. rewrite Et in Hit. apply filter_In in Hit.
    destruct Hit as [Hit Hn]. destruct (B it Hit) as [i [Hi Hid]].
    exists i. split; [|exact Hid]. rewrite Ei. apply filter_In.
    split; [exact Hi|]. rewrite Hid. exact Hn.
  - intros i Hi. rewrite Ei in Hi. apply filter_In in Hi.
    destruct Hi as [Hi Hn]. unfold itemsOf. rewrite Et.
    rewrite filter_within; [exact (T i Hi)|].
    intros it K. apply N.eqb_eq in K. rewrite K. exact Hn.
Qed.

Lemma serve_totals (db : Store) (r : Request) :
  tornUpdate db r = false ->
  totalsStored db -> totalsStored (serve nc baseUrl db r).
Proof.
  intros Kc W. destruct (light r) eqn:L;
    [exact (rewritten_totals _ _ (light_rewritten db r L) W)|].
  destruct r as [uid body|uid id body|uid id|uid id|uid id now
                |uid id type now|uid now|uid id body now|id body now token
                |uid id now]; try discriminate; simpl.
  - exact (proj1 (createInvoice_totals nc db _ uid body _ W
                    (surjective_pairing _))).
  - destruct (updateInvoice_totals db _ uid id body _ W
                (surjective_pairing _))
      as [(lines & message & Hl & _ & Hr) | [S _]]; [|exact S].
    simpl in Kc. rewrite Hl, Hr in Kc. discriminate.
  - apply deleteInvoice_totals, W.
  - destruct (duplicateInvoice_store db uid id now)
      as [->|(invoice & userData & row & code & b & F & _ & E1 & E2 & E3 & E4
              & _ & _ & I & _)]; [exact W|].
    apply findOwnedInvoice_some in F. destruct F as [Hin Hid].
    destruct (proj2 W invoice Hin) as [Ha [Hs [Ht Hto]]]. rewrite Hid in Ha, Hs.
    refine (insertInvoice_lines_totals _ _ row _ _ _ _ _ _ _ I).
    + exact W.
    + apply Forall_forall. intros d Hd. apply in_map_iff in Hd.
      destruct Hd as [it [<- Hit]]. simpl.
      exact (proj1 (Forall_forall _ _) Ha it Hit).
    + rewrite E1, Hs, map_map. reflexivity.
    + rewrite E3, E1, E2. exact Ht.
    + rewrite E4, E1, E3. exact Hto.
Qed.

(** No handler of the invoice API writes the client table. *)
Lemma insertInvoice_clients (db db' : Store) (row : Invoice)
  (lines : list ItemData) (r : Response (Invoice * list InvoiceItem)) :
  insertInvoice nc db row lines = (db', r) -> clients db' = clients db.
Proof.
  unfold insertInvoice.
  destruct (negb (validRow row && forallb validLine lines)); [congruence|].
  destruct (numberTaken nc db (userId row) (number row)); [congruence|].
  destruct (findClient db (clientId row)); [|congruence].
  intros H. injection H as <- _. reflexivity.
Qed.

Lemma serve_clients (db : Store) (r : Request) :
  clients (serve nc baseUrl db r) = clients db.
Proof.
  destruct (light r) eqn:L.
  { destruct (light_rewritten db r L) as (f & extra & _ & _ & _ & _ & Ec & _).
    exact Ec. }
  destruct r as [uid body|uid id body|uid id|uid id|uid id now
                |uid id type now|uid now|uid id body now|id body now token
                |uid id now]; try discriminate; simpl.
  - destruct (createInvoice_store db uid body)
      as [->|(row & code & b & _ & _ & I)]; [reflexivity|].
    exact (insertInvoice_clients _ _ _ _ _ I).
  - destruct (updateInvoice_store db uid id body)
      as [->|[existing [p [F [_ [->|[lines ->]]]]]]]; reflexivity.
  - destruct (deleteInvoice_store db uid id)
      as [->|(_ & _ & _ & _ & _ & Ec)]; [reflexivity | exact Ec].
  - destruct (duplicateInvoice_store db uid id now)
      as [->|(invoice & userData & row & code & b & _ & _ & _ & _ & _ & _ & _
              & _ & I & _)]; [reflexivity|].
    exact (insertInvoice_clients _ _ _ _ _ I).
Qed.

(** *** Payments *)

Lemma serve_positive (db : Store) (r : Request) :
  positivePayments db -> positivePayments (serve nc baseUrl db r).
Proof.
  intros W. destruct (light r) eqn:L;
    [exact (rewritten_positive _ _ (light_rewritten db r L) W)|].
  destruct r as [uid body|uid id body|uid id|uid id|uid id now
                |uid id type now|uid now|uid id body now|id body now token
                |uid id now]; try discriminate; simpl.
  - destruct (createInvoice_store db uid body)
      as [->|(row & code & [inv its] & _ & _ & I)]; [exact W|].
    destruct (insertInvoice_shape nc db _ _ inv _ code its I)
      as [new [_ [_ [_ [Ep _]]]]].
    unfold positivePayments. rewrite Ep. exact W.
  - destruct (updateInvoice_store db uid id body)
      as [->|[existing [p [F [_ [->|[lines ->]]]]]]]; exact W.
  - destruct (deleteInvoice_store db uid id)
      as [->|[_ [_ [_ [Ep _]]]]]; [exact W|].
    intros q Hq. rewrite Ep in Hq. apply filter_In in Hq. apply W, Hq.
  - destruct (duplicateInvoice_store db uid id now)
      as [->|(invoice & userData & row & code & [inv its] & _ & _ & _ & _ & _
              & _ & _ & _ & I & _)]; [exact W|].
    destruct (insertInvoice_shape nc _ _ _ inv _ code its I)
      as [new [_ [_ [_ [Ep _]]]]].
    unfold positivePayments. rewrite Ep. exact W.
Qed.

(** X1. Whatever requests are served, in whatever order, the primary
    keys of the invoice, line and payment tables stay unique, every line
    belongs to a stored invoice and every payment belongs to a stored
    invoice: no handler (deletion included) leaves an orphan row or
    reuses a key. *)
Theorem run_keeps_keys_and_references (db : Store) (requests : list Request) :
  keysUnique db -> itemsBelong db -> paymentsBelong db ->
  keysUnique (run nc baseUrl db requests)
  /\ itemsBelong (run nc baseUrl db requests)
  /\ paymentsBelong (run nc baseUrl db requests).
Proof.
  intros K I P.
  apply (run_invariant wellKeyed serve_wellKeyed requests db).
  split; [exact K | split; [exact I | exact P]].
Qed.

(** X2. The handlers of the invoice API keep the totals, with one
    exception.  If each stored invoice agrees with its lines (amount =
    quantity * rate, subtotal = the amounts added up, tax = subtotal *
    (taxRate / 100), total = subtotal + tax, each as the program
    computes it), it still does after any sequence of requests
    (creating, updating, duplicating and deleting invoices, sending,
    reminding, sweeping and paying in any order) in which no update that
    carries lines is answered 500.  (Such an update is what X21 is
    about.) *)
Theorem run_keeps_totals (db : Store) (requests : list Request) :
  totalsStored db -> noneTorn nc baseUrl db requests ->
  totalsStored (run nc baseUrl db requests).
Proof.
  unfold run. revert db.
  induction requests as [|r rs IH]; intros db W K; simpl; [exact W|].
  destruct K as [Kr Krs].
  apply IH; [exact (serve_totals db r Kr W) | exact Krs].
Qed.

(** X3. No handler ever stores a payment of an amount that is zero or
    negative: if the payment table holds none, it holds none after any
    sequence of requests. *)
Theorem run_keeps_payments_positive (db : Store) (requests : list Request) :
  positivePayments db -> positivePayments (run nc baseUrl db requests).
Proof. exact (run_invariant positivePayments serve_positive requests db). Qed.

End Invariants.

Section Requests.
Context {A : Arith}.
Local Open Scope num_scope.
Variable nc : NumberConstraint.
Variable baseUrl : string.

Lemma find_patched (db : Store) (id : Id) (p : InvoicePatch) (inv : Invoice) :
  uniqueIds db -> In inv (invoices db) ->
  findInvoice (updateInvoiceRow db id p) (inv_id inv)
  = Some (if N.eqb (inv_id inv) id then applyPatch p inv else inv).
Proof.
  intros U H. unfold findInvoice, updateInvoiceRow. simpl.
  rewrite (find_map_key
             (fun i => if N.eqb (inv_id i) id then applyPatch p i else i)).
  - change (find _ (invoices db)) with (findInvoice db (inv_id inv)).
    rewrite (findInvoice_unique db inv U H). reflexivity.
  - intros i. destruct (N.eqb (inv_id i) id); reflexivity.
Qed.

Lemma same_key (db : Store) (i j : Invoice) :
  uniqueIds db -> In i (invoices db) -> In j (invoices db) ->
  inv_id i = inv_id j -> i = j.
Proof.
  intros U Hi Hj E. pose proof (findInvoice_unique db i U Hi) as F.
  rewrite E, (findInvoice_unique db j U Hj) in F. congruence.
Qed.

(** A handler that works on one invoice: the row it found, the patch it
    writes to it (if any) and the payment it appends (if any). *)
Lemma light_target (db : Store) (r : Request) :
  light r = true ->
  (exists uid now, r = SweepOverdue uid now)
  \/ serve nc baseUrl db r = db
  \/ exists found p extra,
       In found (invoices db)
       /\ plain p
       /\ (forall uid, actor r = Some uid -> userId found = uid)
       /\ (invoices (serve nc baseUrl db r) = invoices db
           \/ invoices (serve nc baseUrl db r)
              = invoices (updateInvoiceRow db (inv_id found) p)
              /\ transition r (status found) (status (applyPatch p found)))
       /\ items (serve nc baseUrl db r) = items db
       /\ payments (serve nc baseUrl db r) = (payments db ++ extra)%list
       /\ Forall (fun q => pay_invoiceId q = inv_id found) extra.
Proof.
  destruct r as [uid body|uid id body|uid id|uid id|uid id now
                |uid id type now|uid now|uid id body now|id body now token
                |uid id now]; try discriminate; intros _; simpl.
  - (* send *)
    unfold sendInvoice.
    destruct (findOwnedInvoice db id uid) as [invoice|] eqn:F;
      [|right; left; reflexivity].
    destruct (negb (status_eqb (status invoice) draft)
              && negb (status_eqb (status invoice) sent)) eqn:G;
      [right; left; reflexivity|].
    pose proof (findOwnedInvoice_some db uid id invoice F) as [Hin Hid].
    right; right. exists invoice, (setStatus sent), []. rewrite Hid.
    split; [exact Hin|]. split; [repeat split|]. split.
    { intros u E. injection E as <-. unfold findOwnedInvoice in F.
      apply find_some in F. destruct F as [_ F].
      apply andb_prop in F. apply N.eqb_eq, F. }
    rewrite app_nil_r. unfold returnRow.
    destruct (findInvoice (updateInvoiceRow db id (setStatus sent)) id);
      (split; [right; split; [reflexivity|]
              | split; [reflexivity | split; [reflexivity | constructor]]]);
      simpl; destruct (status invoice); try discriminate;
      (left; reflexivity) || (right; split; reflexivity).
  - (* remind *)
    unfold remindInvoice.
    destruct (findOwnedInvoice db id uid) as [invoice|] eqn:F;
      [|right; left; reflexivity].
    destruct (negb (status_eqb (status invoice) sent)
              && negb (status_eqb (status invoice) overdue)) eqn:G;
      [right; left; reflexivity|].
    pose proof (findOwnedInvoice_some db uid id invoice F) as [Hin Hid].
    right; right. exists invoice, (reminderPatch invoice now), []. rewrite Hid.
    split; [exact Hin|]. split; [repeat split|]. split.
    { intros u E. injection E as <-. unfold findOwnedInvoice in F.
      apply find_some in F. destruct F as [_ F].
      apply andb_prop in F. apply N.eqb_eq, F. }
    rewrite app_nil_r.
    destruct (findInvoice (updateInvoiceRow db id (reminderPatch invoice now)) id);
      (split; [right; split; [reflexivity | left; reflexivity]
              | split; [reflexivity | split; [reflexivity | constructor]]]).
  - (* email *)
    unfold emailInvoice.
    destruct (findOwnedInvoice db id uid) as [invoice|] eqn:F;
      [|right; left; reflexivity].
    pose proof (findOwnedInvoice_some db uid id invoice F) as [Hin Hid].
    assert (forall u, Some uid = Some u -> userId invoice = u) as Hown.
    { intros u E. injection E as <-. unfold findOwnedInvoice in F.
      apply find_some in F. destruct F as [_ F].
      apply andb_prop in F. apply N.eqb_eq, F. }
    destruct type.
    + destruct (negb (status_eqb (status invoice) draft)
                && negb (status_eqb (status invoice) sent)) eqn:G;
        [right; left; reflexivity|].
      right; right. exists invoice, (sentPatch baseUrl id), []. rewrite Hid.
      split; [exact Hin|]. split; [repeat split|]. split; [exact Hown|]. rewrite app_nil_r.
      split; [right; split; [reflexivity|]
             | split; [reflexivity | split; [reflexivity | constructor]]].
      simpl. destruct (status invoice); try discriminate;
        (left; reflexivity) || (right; split; reflexivity).
    + destruct (negb (status_eqb (status invoice) sent)
                && negb (status_eqb (status invoice) overdue)) eqn:G;
        [right; left; reflexivity|].
      right; right. exists invoice, (reminderPatch invoice now), [].
      rewrite Hid.
      split; [exact Hin|]. split; [repeat split|]. split; [exact Hown|]. rewrite app_nil_r.
      split; [right; split; [reflexivity | left; reflexivity]
             | split; [reflexivity | split; [reflexivity | constructor]]].
    + right; left. destruct (paymentsOf db id); reflexivity.
  - (* sweep *)
    left. exists uid, now. reflexivity.
  - (* recordPayment *)
    unfold recordPayment.
    destruct (findOwnedInvoice db id uid) as [invoice|] eqn:F;
      [|right; left; reflexivity].
    destruct (createPaymentSchema body) eqn:V; [right; left; reflexivity|].
    match goal with
    | |- context [if ?c then (db, _) else _] => destruct c
    end; [right; left; reflexivity|].
    destruct (negb (dateOr (pi_paidAt body))); [right; left; reflexivity|].
    pose proof (findOwnedInvoice_some db uid id invoice F) as [Hin Hid].
    right; right. exists invoice, (setStatus paid). eexists. rewrite Hid.
    split; [exact Hin|]. split; [repeat split|]. split.
    { intros u E. injection E as <-. unfold findOwnedInvoice in F.
      apply find_some in F. destruct F as [_ F].
      apply andb_prop in F. apply N.eqb_eq, F. }
    unfold insertPayment.
    match goal with
    | |- context [if ?c then updateInvoiceRow _ _ _ else _] => destruct c
    end; simpl.
    + split; [right; split; [reflexivity | right; reflexivity]|].
      split; [reflexivity|]. split; [reflexivity|].
      constructor; [reflexivity | constructor].
    + split; [left; reflexivity|].
      split; [reflexivity|]. split; [reflexivity|].
      constructor; [reflexivity | constructor].
  - (* processOnlinePayment *)
    unfold processOnlinePayment.
    destruct (findInvoice db id) as [invoice|] eqn:F;
      [|right; left; reflexivity].
    destruct (status_eqb (status invoice) paid); [right; left; reflexivity|].
    destruct (status_eqb (status invoice) cancelled) eqn:C;
      [right; left; reflexivity|].
    destruct (balanceDueOf db invoice <=? ofZ 0) eqn:B;
      [right; left; reflexivity|].
    pose proof (findInvoice_some db id invoice F) as [Hin Hid].
    right; right. exists invoice, (setStatus paid). eexists. rewrite Hid.
    split; [exact Hin|]. split; [repeat split|]. split; [discriminate|].
    unfold insertPayment. simpl.
    split; [right; split; [reflexivity|right; split; [|reflexivity]]|].
    { intros E. rewrite E in C. discriminate. }
    split; [reflexivity|]. split; [reflexivity|].
    constructor; [reflexivity | constructor].
Qed.

Lemma find_app_some {T} (f : T -> bool) (l l' : list T) (x : T) :
  find f l = Some x -> find f (l ++ l') = Some x.
Proof.
  induction l as [|y l IH]; simpl; [discriminate|].
  destruct (f y); [auto | exact IH].
Qed.

Lemma rewritten_ids (db db' : Store) :
  rewritten db db' -> map inv_id (invoices db') = map inv_id (invoices db).
Proof.
  intros [f [extra [K [Ei _]]]]. rewrite Ei. apply map_id_rewritten, K.
Qed.

Lemma find_swept (db : Store) (uid : Id) (now : Date) (inv : Invoice) :
  uniqueIds db -> In inv (invoices db) ->
  findInvoice (fst (checkOverdueInvoices db uid now)) (inv_id inv)
  = Some (if isOverdueNow uid now inv
          then applyPatch (setStatus overdue) inv else inv).
Proof.
  intros U H. unfold findInvoice. simpl.
  rewrite (find_map_key
             (fun i => if isOverdueNow uid now i
                       then applyPatch (setStatus overdue) i else i)).
  - change (find _ (invoices db)) with (findInvoice db (inv_id inv)).
    rewrite (findInvoice_unique db inv U H). reflexivity.
  - intros i. destruct (isOverdueNow uid now i); reflexivity.
Qed.

(** X4. The invoice lifecycle as the handlers implement it.  An invoice
    that exists changes status only as the request at hand allows: send
    and the invoice mail take a draft to sent, the sweep takes sent to
    overdue, a recorded payment can take any status to paid, an online
    payment any status but cancelled, an update writes the status of its
    body; reminders, confirmation mails, creations, duplications and
    deletions change the status of no invoice that stays.  A row that is
    new in the table is a draft or sent, and only creation and
    duplication make one. *)
Theorem lifecycle_transitions (db : Store) (r : Request) :
  uniqueIds db ->
  (forall inv inv',
      In inv (invoices db) ->
      findInvoice (serve nc baseUrl db r) (inv_id inv) = Some inv' ->
      transition r (status inv) (status inv'))
  /\ (forall i',
         In i' (invoices (serve nc baseUrl db r)) ->
         ~ In (inv_id i') (map inv_id (invoices db)) ->
         (status i' = draft \/ status i' = sent)
         /\ ((exists uid body, r = CreateInvoice uid body)
             \/ exists uid id now, r = DuplicateInvoice uid id now)).
Proof.
  intros U.
  assert (forall inv inv', In inv (invoices db) ->
            findInvoice db (inv_id inv) = Some inv' ->
            transition r (status inv) (status inv')) as Same.
  { intros inv inv' Hin F. rewrite (findInvoice_unique db inv U Hin) in F.
    injection F as <-. left. reflexivity. }
  assert (forall (l : list Invoice) (new : Invoice) inv inv',
            In inv (invoices db) ->
            find (fun i => N.eqb (inv_id i) (inv_id inv))
                 (invoices db ++ [new]) = Some inv' ->
            transition r (status inv) (status inv')) as Grown.
  { intros _ new inv inv' Hin F.
    rewrite (find_app_some _ _ [new] inv (findInvoice_unique db inv U Hin)) in F.
    injection F as <-. left. reflexivity. }
  destruct (light r) eqn:L.
  { split.
    - intros inv inv' Hin F.
      destruct (light_target db r L)
        as [[uid [now ->]]|[E|(found & p & extra & Hf & _ & _ & Hi & _)]].
      + change (serve nc baseUrl db (SweepOverdue uid now))
          with (fst (checkOverdueInvoices db uid now)) in F.
        rewrite (find_swept db uid now inv U Hin) in F.
        injection F as <-.
        destruct (isOverdueNow uid now inv) eqn:O; [|left; reflexivity].
        apply isOverdueNow_spec in O. destruct O as [_ [O _]].
        right. split; [exact O | reflexivity].
      + rewrite E in F. exact (Same inv inv' Hin F).
      + unfold findInvoice in F. destruct Hi as [Hi|[Hi T]]; rewrite Hi in F.
        * exact (Same inv inv' Hin F).
        * change (findInvoice (updateInvoiceRow db (inv_id found) p)
                              (inv_id inv) = Some inv') in F.
          rewrite (find_patched db _ p inv U Hin) in F. injection F as <-.
          destruct (N.eqb (inv_id inv) (inv_id found)) eqn:K;
            [|left; reflexivity].
          apply N.eqb_eq in K.
          rewrite (same_key db inv found U Hin Hf K). exact T.
    - intros i' Hi' Hnew. exfalso. apply Hnew.
      rewrite <- (rewritten_ids db _ (light_rewritten nc baseUrl db r L)).
      apply in_map, Hi'. }
  destruct r as [uid body|uid id body|uid id|uid id|uid id now
                |uid id type now|uid now|uid id body now|id body now token
                |uid id now]; try discriminate; simpl.
  - (* create *)
    destruct (createInvoice_store nc db uid body)
      as [->|(row & code & [inv0 its] & _ & Hs & I)].
    { split; [exact Same|]. intros i' Hi' Hnew. exfalso.
      apply Hnew, in_map, Hi'. }
    destruct (insertInvoice_shape nc db _ row inv0 _ code its I)
      as (new & Ei & _ & _ & _ & _ & _ & _ & _ & (_ & Es & _) & _).
    split.
    + intros inv inv' Hin F. unfold findInvoice in F. rewrite Ei in F.
      exact (Grown [] inv0 inv inv' Hin F).
    + intros i' Hi' Hnew. rewrite Ei in Hi'. apply in_app_or in Hi'.
      destruct Hi' as [Hi'|[<-|[]]]; [exfalso; apply Hnew, in_map, Hi'|].
      rewrite Es. split; [exact Hs|]. left. exists uid, body. reflexivity.
  - (* update *)
    split.
    + intros inv inv' Hin F.
      destruct (updateInvoice_store db uid id body)
        as [E|(existing & p & _ & Hp & E)].
      { rewrite E in F. exact (Same inv inv' Hin F). }
      assert (findInvoice (updateInvoiceRow db id p) (inv_id inv) = Some inv')
        as F'.
      { destruct E as [E|[lines E]]; rewrite E in F; exact F. }
      rewrite (find_patched db id p inv U Hin) in F'. injection F' as <-.
      destruct (N.eqb (inv_id inv) id); [|left; reflexivity].
      unfold transition. change (status (applyPatch p inv))
        with (orElse (p_status p) (status inv)).
      destruct Hp as [Hp|Hp]; rewrite Hp; [|left; reflexivity].
      destruct (u_status body) as [s'|]; [right | left]; reflexivity.
    + intros i' Hi' Hnew. exfalso. apply Hnew.
      destruct (updateInvoice_store db uid id body)
        as [E|(existing & p & _ & _ & E)].
      { rewrite E in Hi'. apply in_map, Hi'. }
      rewrite <- (patched_ids db id p). apply in_map.
      destruct E as [E|[lines E]]; rewrite E in Hi'; exact Hi'.
  - (* delete *)
    destruct (deleteInvoice_store db uid id) as [->|(_ & Ei & _)].
    { split; [exact Same|]. intros i' Hi' Hnew. exfalso.
      apply Hnew, in_map, Hi'. }
    split.
    + intros inv inv' Hin F. apply findInvoice_some in F.
      destruct F as [F Fid]. rewrite Ei in F. apply filter_In in F.
      rewrite (same_key db inv' inv U (proj1 F) Hin Fid). left. reflexivity.
    + intros i' Hi' Hnew. exfalso. rewrite Ei in Hi'. apply filter_In in Hi'.
      apply Hnew, in_map, Hi'.
  - (* duplicate *)
    destruct (duplicateInvoice_store nc db uid id now)
      as [->|(invoice & userData & row & code & [inv0 its] & _ & _ & _ & _ & _
              & _ & _ & Hs & I & _)].
    { split; [exact Same|]. intros i' Hi' Hnew. exfalso.
      apply Hnew, in_map, Hi'. }
    destruct (insertInvoice_shape nc _ _ row inv0 _ code its I)
      as (new & Ei & _ & _ & _ & _ & _ & _ & _ & (_ & Es & _) & _).
    simpl in Ei.
    split.
    + intros inv inv' Hin F. unfold findInvoice in F. rewrite Ei in F.
      exact (Grown [] inv0 inv inv' Hin F).
    + intros i' Hi' Hnew. rewrite Ei in Hi'. apply in_app_or in Hi'.
      destruct Hi' as [Hi'|[<-|[]]]; [exfalso; apply Hnew, in_map, Hi'|].
      rewrite Es, Hs. split; [left; reflexivity|].
      right. exists uid, id, now. reflexivity.
Qed.

Lemma other_key (db : Store) (uid id : Id) (found inv : Invoice) :
  uniqueIds db -> In inv (invoices db) -> userId inv <> uid ->
  findOwnedInvoice db id uid = Some found -> inv_id inv <> id.
Proof.
  intros U Hin Hown F E. subst id.
  rewrite (findOwnedInvoice_unique db uid inv U Hin) in F.
  destruct (N.eqb (userId inv) uid) eqn:K; [|discriminate].
  apply N.eqb_eq in K. exact (Hown K).
Qed.

Lemma inserted_apart (db db' : Store) (row inv0 : Invoice)
  (lines : list ItemData) (code : Z) (its : list InvoiceItem) (inv : Invoice) :
  uniqueIds db -> In inv (invoices db) ->
  insertInvoice nc db row lines = (db', Ok code (inv0, its)) ->
  findInvoice db' (inv_id inv) = Some inv
  /\ itemsOf db' (inv_id inv) = itemsOf db (inv_id inv)
  /\ paymentsOf db' (inv_id inv) = paymentsOf db (inv_id inv).
Proof.
  intros U Hin I.
  destruct (insertInvoice_shape nc db db' row inv0 lines code its I)
    as (new & Ei & Et & _ & Ep & _ & F & Eid & _).
  unfold findInvoice, itemsOf, paymentsOf. rewrite Ei, Et, Ep.
  split; [exact (find_app_some _ _ _ inv (findInvoice_unique db inv U Hin))|].
  split; [|reflexivity].
  rewrite filter_app, (filter_new_other new (inv_id inv0) (inv_id inv) F),
    app_nil_r; [reflexivity|].
  rewrite Eid. intros E. apply (freshId_fresh (map inv_id (invoices db))).
  rewrite <- E. apply in_map, Hin.
Qed.

(** X5. Tenant isolation.  A request made as one user changes nothing
    of an invoice that belongs to another user: the row, its lines and
    its payments are the same after the request, whatever the request
    (create, update, delete, send, remind, mail, sweep, record a
    payment, duplicate) and whatever id it names. *)
Theorem tenant_isolation (db : Store) (r : Request) (uid : Id) (inv : Invoice) :
  uniqueIds db -> actor r = Some uid ->
  In inv (invoices db) -> userId inv <> uid ->
  findInvoice (serve nc baseUrl db r) (inv_id inv) = Some inv
  /\ itemsOf (serve nc baseUrl db r) (inv_id inv) = itemsOf db (inv_id inv)
  /\ paymentsOf (serve nc baseUrl db r) (inv_id inv)
     = paymentsOf db (inv_id inv).
Proof.
  intros U Ha Hin Hown.
  pose proof (findInvoice_unique db inv U Hin) as Here.
  destruct (light r) eqn:L.
  { destruct (light_target db r L)
      as [[u [now ->]]|[->|(found & p & extra & Hf & _ & Ho & Hi & Et & Ep & Fx)]].
    - injection Ha as ->. split; [|split; reflexivity].
      change (serve nc baseUrl db (SweepOverdue uid now))
        with (fst (checkOverdueInvoices db uid now)).
      rewrite (find_swept db uid now inv U Hin).
      destruct (isOverdueNow uid now inv) eqn:O; [|reflexivity].
      apply isOverdueNow_spec in O. destruct O as [O _].
      destruct (Hown O).
    - split; [exact Here | split; reflexivity].
    - assert (inv_id inv <> inv_id found) as Hk.
      { intros K. apply Hown. rewrite (same_key db inv found U Hin Hf K).
        exact (Ho uid Ha). }
      unfold findInvoice, itemsOf, paymentsOf. rewrite Et, Ep. split; [|split].
      + destruct Hi as [->|[-> _]]; [exact Here|].
        change (findInvoice (updateInvoiceRow db (inv_id found) p) (inv_id inv)
                = Some inv).
        rewrite (find_patched db _ p inv U Hin).
        apply N.eqb_neq in Hk. rewrite Hk. reflexivity.
      + reflexivity.
      + rewrite filter_app. rewrite (filter_none _ extra), app_nil_r;
          [reflexivity|].
        intros q Hq. apply N.eqb_neq.
        rewrite (proj1 (Forall_forall _ _) Fx q Hq). congruence. }
  destruct r as [u body|u id body|u id|u id|u id now
                |u id type now|u now|u id body now|id body now token
                |u id now]; try discriminate; injection Ha as ->; simpl.
  - (* create *)
    destruct (createInvoice_store nc db uid body)
      as [->|(row & code & [inv0 its] & _ & _ & I)];
      [split; [exact Here | split; reflexivity]|].
    exact (inserted_apart db _ row inv0 _ code its inv U Hin I).
  - (* update *)
    destruct (updateInvoice_store db uid id body)
      as [->|(existing & p & F & _ & E)];
      [split; [exact Here | split; reflexivity]|].
    pose proof (other_key db uid id existing inv U Hin Hown F) as Hk.
    assert (findInvoice (updateInvoiceRow db id p) (inv_id inv) = Some inv)
      as Hrow.
    { rewrite (find_patched db id p inv U Hin).
      apply N.eqb_neq in Hk. rewrite Hk. reflexivity. }
    destruct E as [->|[lines ->]]; [split; [exact Hrow | split; reflexivity]|].
    split; [exact Hrow|]. split; [|reflexivity].
    destruct (createItems_appends lines
                (items (updateInvoiceRow (deleteItemsOf db id) id p)) id)
      as [new [E [_ Fn]]].
    rewrite itemsOf_rows, E, filter_app.
    rewrite (filter_new_other new id (inv_id inv) Fn Hk), app_nil_r.
    simpl. apply filter_within.
    intros it K. apply N.eqb_eq in K. rewrite K.
    apply negb_true_iff, N.eqb_neq, Hk.
  - (* delete *)
    destruct (deleteInvoice_store db uid id)
      as [->|([existing F] & Ei & Et & Ep & _)];
      [split; [exact Here | split; reflexivity]|].
    pose proof (other_key db uid id existing inv U Hin Hown F) as Hk.
    assert (forall x, N.eqb x (inv_id inv) = true -> negb (N.eqb x id) = true)
      as Hsub.
    { intros x K. apply N.eqb_eq in K. rewrite K.
      apply negb_true_iff, N.eqb_neq, Hk. }
    unfold findInvoice, itemsOf, paymentsOf. rewrite Ei, Et, Ep.
    split; [|split].
    + apply find_by_key; [apply NoDup_map_filter, U|].
      apply filter_In. split; [exact Hin|].
      apply negb_true_iff, N.eqb_neq, Hk.
    + apply filter_within. intros it. apply Hsub.
    + apply filter_within. intros q. apply Hsub.
  - (* duplicate *)
    destruct (duplicateInvoice_store nc db uid id now)
      as [->|(invoice & userData & row & code & [inv0 its] & _ & _ & _ & _ & _
              & _ & _ & _ & I & _)];
      [split; [exact Here | split; reflexivity]|].
    exact (inserted_apart (setCounter db uid _) _ row inv0 _ code its inv
             U Hin I).
Qed.

Lemma plain_content (p : InvoicePatch) (i : Invoice) :
  plain p -> contentOf (applyPatch p i) = contentOf i.
Proof.
  intros (H1 & H2 & H3 & H4 & H5 & H6 & H7 & H8 & H9 & H10).
  unfold contentOf. simpl.
  rewrite H1, H2, H3, H4, H5, H6, H7, H8, H9, H10. reflexivity.
Qed.

Lemma found_owner (db : Store) (uid id : Id) (inv : Invoice) :
  findOwnedInvoice db id uid = Some inv -> userId inv = uid.
Proof.
  unfold findOwnedInvoice. intros F. apply find_some in F.
  destruct F as [_ F]. apply andb_prop in F. apply N.eqb_eq, F.
Qed.

(** X20. Only an update changes what an invoice says.  Whatever the
    request, an invoice that stays in the table keeps its number and
    its owner; and unless the request is an update of this very invoice
    by its owner, it also keeps its client, its dates, its subtotal, tax
    rate, tax and total, its notes, terms and currency: sending,
    reminding, mailing, sweeping, paying, duplicating and deleting
    (another invoice) write none of them. *)
Theorem content_changes_only_by_update (db : Store) (r : Request)
  (inv inv' : Invoice) :
  uniqueIds db -> In inv (invoices db) ->
  findInvoice (serve nc baseUrl db r) (inv_id inv) = Some inv' ->
  number inv' = number inv
  /\ userId inv' = userId inv
  /\ ((forall body, r <> UpdateInvoice (userId inv) (inv_id inv) body) ->
      contentOf inv' = contentOf inv).
Proof.
  intros U Hin F.
  assert (forall x, x = inv ->
            number x = number inv /\ userId x = userId inv
            /\ ((forall body, r <> UpdateInvoice (userId inv) (inv_id inv) body)
                -> contentOf x = contentOf inv)) as Same
      by (intros x ->; repeat split).
  assert (forall p, plain p ->
            number (applyPatch p inv) = number inv
            /\ userId (applyPatch p inv) = userId inv
            /\ ((forall body,
                    r <> UpdateInvoice (userId inv) (inv_id inv) body)
                -> contentOf (applyPatch p inv) = contentOf inv)) as Patched
      by (intros p Hp; split; [reflexivity|]; split; [reflexivity|];
          intros _; exact (plain_content p inv Hp)).
  pose proof (findInvoice_unique db inv U Hin) as Here.
  destruct (light r) eqn:L.
  { destruct (light_target db r L)
      as [[uid [now ->]]|[E|(found & p & extra & Hf & Hp & _ & Hi & _)]].
    - change (serve nc baseUrl db (SweepOverdue uid now))
        with (fst (checkOverdueInvoices db uid now)) in F.
      rewrite (find_swept db uid now inv U Hin) in F. injection F as <-.
      destruct (isOverdueNow uid now inv); [|apply Same; reflexivity].
      apply Patched. repeat split.
    - rewrite E, Here in F. injection F as <-. apply Same. reflexivity.
    - unfold findInvoice in F. destruct Hi as [Hi|[Hi _]]; rewrite Hi in F.
      + change (findInvoice db (inv_id inv) = Some inv') in F.
        rewrite Here in F. injection F as <-. apply Same. reflexivity.
      + change (findInvoice (updateInvoiceRow db (inv_id found) p)
                            (inv_id inv) = Some inv') in F.
        rewrite (find_patched db _ p inv U Hin) in F. injection F as <-.
        destruct (N.eqb (inv_id inv) (inv_id found));
          [apply Patched, Hp | apply Same; reflexivity]. }
  destruct r as [uid body|uid id body|uid id|uid id|uid id now
                |uid id type now|uid now|uid id body now|id body now token
                |uid id now]; try discriminate; simpl in F.
  - (* create *)
    destruct (createInvoice_store nc db uid body)
      as [E|(row & code & [inv0 its] & _ & _ & I)].
    { rewrite E, Here in F. injection F as <-. apply Same. reflexivity. }
    rewrite (proj1 (inserted_apart db _ row inv0 _ code its inv U Hin I)) in F.
    injection F as <-. apply Same. reflexivity.
  - (* update *)
    destruct (updateInvoice_store db uid id body)
      as [E|(existing & p & Fo & _ & E)].
    { rewrite E, Here in F. injection F as <-. apply Same. reflexivity. }
    assert (findInvoice (updateInvoiceRow db id p) (inv_id inv) = Some inv')
      as F'.
    { destruct E as [E|[lines E]]; rewrite E in F; exact F. }
    rewrite (find_patched db id p inv U Hin) in F'. injection F' as <-.
    destruct (N.eqb (inv_id inv) id) eqn:K; [|apply Same; reflexivity].
    apply N.eqb_eq in K. split; [reflexivity|]. split; [reflexivity|].
    intros Hnot. exfalso. apply (Hnot body).
    pose proof (findOwnedInvoice_some db uid id existing Fo) as [Hex Hid].
    rewrite <- K in Hid.
    rewrite <- (same_key db existing inv U Hex Hin Hid).
    rewrite (found_owner db uid id existing Fo), Hid, K. reflexivity.
  - (* delete *)
    destruct (deleteInvoice_store db uid id) as [E|(_ & Ei & _)].
    { rewrite E, Here in F. injection F as <-. apply Same. reflexivity. }
    apply findInvoice_some in F. destruct F as [F Fid]. rewrite Ei in F.
    apply filter_In in F. apply Same.
    exact (same_key db inv' inv U (proj1 F) Hin Fid).
  - (* duplicate *)
    destruct (duplicateInvoice_store nc db uid id now)
      as [E|(invoice & userData & row & code & [inv0 its] & _ & _ & _ & _ & _
              & _ & _ & _ & I & _)].
    { rewrite E, Here in F. injection F as <-. apply Same. reflexivity. }
    rewrite (proj1 (inserted_apart (setCounter db uid _) _ row inv0 _ code its
                      inv U Hin I)) in F.
    injection F as <-. apply Same. reflexivity.
Qed.

End Requests.

Section Operations.
Context {A : Arith}.
Local Open Scope num_scope.

Lemma find_filter_within {T} (f g : T -> bool) (l : list T) :
  (forall x, f x = true -> g x = true) -> find f (filter g l) = find f l.
Proof.
  intros H. induction l as [|x l IH]; [reflexivity|]. simpl.
  destruct (f x) eqn:F.
  - rewrite (H x F). simpl. rewrite F. reflexivity.
  - destruct (g x); simpl; [rewrite F|]; exact IH.
Qed.

Lemma find_filter_out {T} (f g : T -> bool) (l : list T) :
  (forall x, f x = true -> g x = false) -> find f (filter g l) = None.
Proof.
  intros H. induction l as [|x l IH]; [reflexivity|]. simpl.
  destruct (g x) eqn:G; [|exact IH]. simpl.
  destruct (f x) eqn:F; [|exact IH]. rewrite (H x F) in G. discriminate.
Qed.

Lemma filter_filter_out {T} (f g : T -> bool) (l : list T) :
  (forall x, f x = true -> g x = false) -> filter f (filter g l) = [].
Proof.
  intros H. apply filter_none. intros x Hx. apply filter_In in Hx.
  destruct (f x) eqn:F; [|reflexivity].
  rewrite (H x F) in Hx. destruct Hx. discriminate.
Qed.

(** X6. Deleting an invoice.  For an id that is not an invoice of the
    session user the answer is 404 and the store is untouched.  Else
    the invoice is gone together with all its lines and all its
    payments, and nothing else is: every other invoice keeps its row,
    its lines and its payments, and users and clients are as before. *)
Theorem deleteInvoice_removes (db : Store) (uid id : Id) :
  (findOwnedInvoice db id uid = None ->
   deleteInvoice db uid id = (db, Error 404 "Invoice not found"))
  /\ (forall existing,
         findOwnedInvoice db id uid = Some existing ->
         snd (deleteInvoice db uid id) = Ok 200 true
         /\ findInvoice (fst (deleteInvoice db uid id)) id = None
         /\ itemsOf (fst (deleteInvoice db uid id)) id = []
         /\ paymentsOf (fst (deleteInvoice db uid id)) id = []
         /\ (forall j, j <> id ->
               findInvoice (fst (deleteInvoice db uid id)) j = findInvoice db j
               /\ itemsOf (fst (deleteInvoice db uid id)) j = itemsOf db j
               /\ paymentsOf (fst (deleteInvoice db uid id)) j
                  = paymentsOf db j)
         /\ users (fst (deleteInvoice db uid id)) = users db
         /\ clients (fst (deleteInvoice db uid id)) = clients db).
Proof.
  unfold deleteInvoice. split; [intros ->; reflexivity|].
  intros existing ->. simpl.
  assert (forall x, N.eqb x id = true -> negb (N.eqb x id) = false) as Out
      by (intros x ->; reflexivity).
  split; [reflexivity|].
  split; [apply find_filter_out; intros i; apply Out|].
  split; [apply filter_filter_out; intros it; apply Out|].
  split; [apply filter_filter_out; intros q; apply Out|].
  split; [|split; reflexivity].
  intros j Hj.
  assert (forall x, N.eqb x j = true -> negb (N.eqb x id) = true) as In'.
  { intros x K. apply N.eqb_eq in K. subst x.
    apply negb_true_iff, N.eqb_neq, Hj. }
  split; [apply find_filter_within; intros i; apply In'|].
  split; apply filter_within; intros x; apply In'.
Qed.

Lemma refusedUpdate_none (db : Store) (p : InvoicePatch)
  (lines : list ItemData) :
  refusedUpdate db p lines = None
  <-> validPatch p = true
      /\ forallb validLine lines = true
      /\ (forall c, p_clientId p = Some c -> findClient db c <> None).
Proof.
  unfold refusedUpdate.
  destruct (validPatch p); simpl.
  2:{ split; [discriminate | intros [H _]; discriminate]. }
  destruct (forallb validLine lines); simpl.
  2:{ split; [discriminate | intros [_ [H _]]; discriminate]. }
  destruct (p_clientId p) as [c|].
  - destruct (findClient db c) eqn:Fc.
    + split; [|reflexivity]. intros _. repeat split.
      intros c' E. injection E as <-. rewrite Fc. discriminate.
    + split; [discriminate|]. intros [_ [_ H]].
      destruct (H c eq_refl Fc).
  - split; [|reflexivity]. intros _. repeat split. discriminate.
Qed.

(** X21. Replacing the lines of an invoice is not atomic.  An update of
    an own invoice that passes validation and carries new lines is
    accepted exactly when the client it names, if any, exists, its dates
    are dates, and the numbers it writes (the lines, subtotal, tax, tax
    rate and total) are finite.  Otherwise it is answered 500, but not
    without effect: the lines of the invoice have been deleted and stay
    deleted, while its row, stored subtotal, tax and total included, is
    as before; so the totals no longer agree with the lines unless the
    subtotal was 0.  The lines of the other invoices are untouched.  A
    later update that carries no lines and is accepted answers with the
    invoice without lines, under the subtotal it had. *)
Theorem replacing_lines_is_not_atomic (db : Store) (uid id : Id)
  (body : UpdateInvoiceInput) (existing : Invoice) (lines : list ItemInput) :
  findOwnedInvoice db id uid = Some existing ->
  updateInvoiceSchema body = None ->
  u_items body = Some lines ->
  let rate := orElse (u_taxRate body) (taxRate existing) in
  let sub := sumAmounts (map d_amount (map withAmount lines)) in
  let tx := computeTax sub rate in
  (isOk (snd (updateInvoice db uid id body)) = true
   <-> (forall c, u_clientId body = Some c -> findClient db c <> None)
       /\ (u_issueDate body <> Some noDate /\ u_dueDate body <> Some noDate)
       /\ forallb validLine (map withAmount lines) = true
       /\ (isFinite sub && isFinite tx && isFinite rate
           && isFinite (sub + tx)) = true)
  /\ (isOk (snd (updateInvoice db uid id body)) = false ->
      (exists message,
          updateInvoice db uid id body
          = (deleteItemsOf db id, Error 500 message))
      /\ itemsOf (deleteItemsOf db id) id = []
      /\ invoices (deleteItemsOf db id) = invoices db
      /\ (forall j, j <> id -> itemsOf (deleteItemsOf db id) j = itemsOf db j)
      /\ (totalsStored (deleteItemsOf db id) -> subtotal existing = ofZ 0)
      /\ (forall later db' code inv its,
             u_items later = None ->
             updateInvoice (deleteItemsOf db id) uid id later
             = (db', Ok code (inv, its)) ->
             its = []
             /\ (uniqueIds db -> subtotal inv = subtotal existing))).
Proof.
  intros F V Hl rate sub tx.
  set (data := withTotals (plainFields body) (Some sub) tx rate (sub + tx)).
  assert (updateInvoice db uid id body
          = match refusedUpdate (deleteItemsOf db id) data
                    (map withAmount lines) with
            | Some message => (deleteItemsOf db id, Error 500 message)
            | None =>
                let db2 := updateInvoiceRow (deleteItemsOf db id) id data in
                let db3 := setItems db2 (createItems (items db2) id
                                           (map withAmount lines)) in
                match findInvoice db3 id with
                | Some inv => (db3, Ok 200 (inv, itemsOf db3 id))
                | None => (db3, Error 404 "Record not found")
                end
            end) as Key.
  { unfold updateInvoice. rewrite F, V, Hl. reflexivity. }
  assert (itemsOf (deleteItemsOf db id) id = []) as Gone.
  { unfold itemsOf, deleteItemsOf. simpl. apply filter_filter_out.
    intros it ->. reflexivity. }
  pose proof (refusedUpdate_none (deleteItemsOf db id) data
                (map withAmount lines)) as Why.
  assert (validPatch data = true
          <-> (u_issueDate body <> Some noDate
               /\ u_dueDate body <> Some noDate)
              /\ (isFinite sub && isFinite tx && isFinite rate
                  && isFinite (sub + tx)) = true) as Valid.
  { unfold validPatch, data. simpl.
    rewrite !andb_true_iff, !dateOr_spec. tauto. }
  split.
  - rewrite Key.
    destruct (refusedUpdate (deleteItemsOf db id) data (map withAmount lines))
      as [message|] eqn:Rf.
    + split; [discriminate|]. intros (Hc & Hd & Hv & Hf). exfalso.
      assert (Some message = @None string) as Absurd; [|discriminate].
      apply Why. split; [apply Valid; split; assumption|].
      split; [exact Hv | exact Hc].
    + destruct (proj1 Why eq_refl) as (Pv & Lv & Cv).
      apply Valid in Pv. destruct Pv as [Hd Hf].
      split; [intros _; repeat split; try assumption; tauto|]. intros _.
      destruct (findOwnedInvoice_found db uid id existing F) as [row Hrow].
      cbv zeta.
      match goal with
      | |- context [findInvoice ?d id] =>
          change (findInvoice d id)
            with (findInvoice (updateInvoiceRow db id data) id)
      end.
      rewrite findInvoice_updateInvoiceRow, Hrow. reflexivity.
  - intros Bad. split.
    { rewrite Key in Bad |- *.
      destruct (refusedUpdate (deleteItemsOf db id) data
                  (map withAmount lines)) as [message|];
        [exists message; reflexivity|].
      exfalso. revert Bad. cbv zeta.
      destruct (findOwnedInvoice_found db uid id existing F) as [row Hrow].
      match goal with
      | |- context [findInvoice ?d id] =>
          change (findInvoice d id)
            with (findInvoice (updateInvoiceRow db id data) id)
      end.
      rewrite findInvoice_updateInvoiceRow, Hrow. discriminate. }
    split; [exact Gone|]. split; [reflexivity|]. split; [|split].
    + intros j Hj. unfold itemsOf, deleteItemsOf. simpl. apply filter_within.
      intros it K. apply N.eqb_eq in K. rewrite K.
      apply negb_true_iff, N.eqb_neq, Hj.
    + intros [_ T]. pose proof (findOwnedInvoice_some db uid id existing F)
        as [Hin Hid].
      destruct (T existing Hin) as [_ [Hs _]]. rewrite Hid, Gone in Hs.
      exact Hs.
    + intros later db' code inv its Hn U.
      pose proof (updateInvoice_keeps_lines (deleteItemsOf db id) uid id
                    later Hn) as Kl.
      rewrite U in Kl. simpl fst in Kl.
      unfold updateInvoice in U.
      change (findOwnedInvoice (deleteItemsOf db id) id uid)
        with (findOwnedInvoice db id uid) in U.
      rewrite F, Hn in U.
      destruct (updateInvoiceSchema later); [discriminate|]. cbv zeta in U.
      destruct (refusedUpdate (deleteItemsOf db id) (rowUpdate existing later)
                  []); [discriminate|].
      match type of U with
      | context [findInvoice ?d id] =>
          destruct (findInvoice d id) as [found|] eqn:Ff; [|discriminate]
      end.
      injection U as <- _ <- <-. split.
      * unfold itemsOf. simpl. exact Gone.
      * intros Un. rewrite findInvoice_updateInvoiceRow in Ff.
        change (findInvoice (deleteItemsOf db id) id)
          with (findInvoice db id) in Ff.
        pose proof (findOwnedInvoice_some db uid id existing F) as [Hin Hid].
        rewrite <- Hid in Ff. rewrite (findInvoice_unique db existing Un Hin) in Ff.
        simpl in Ff. injection Ff as <-.
        unfold rowUpdate. destruct (u_taxRate later); reflexivity.
Qed.

Lemma sumAmounts_app (l : list num) (a : num) :
  sumAmounts (l ++ [a]) = sumAmounts l + a.
Proof. unfold sumAmounts. rewrite fold_left_app. reflexivity. Qed.

(** X7. The payment page and the online payment.  When an online
    payment is accepted, the amount charged is the balance the payment
    page showed; afterwards the page shows the invoice as paid, with the
    amount added to what was paid before; and the same payment cannot be
    made a second time: every further attempt is refused with 400 and
    stores nothing. *)
Theorem online_payment_once (db db' : Store) (id : Id) (body : PayInput)
  (now : Date) (token : string) (code : Z) (p : Payment) :
  processOnlinePayment db id body now token = (db', Ok code p) ->
  (exists page,
      paymentPage db id = Ok 200 page /\ balanceDue page = pay_amount p)
  /\ (exists page,
         paymentPage db' id = Ok 200 page
         /\ page_status page = paid
         /\ totalPaid page = totalPaidOf db id + pay_amount p
         /\ page_items page = map copyItem (itemsOf db id))
  /\ forall body' now' token',
       processOnlinePayment db' id body' now' token'
       = (db', Error 400 "This invoice has already been paid").
Proof.
  unfold processOnlinePayment at 1.
  destruct (findInvoice db id) as [invoice|] eqn:F; [|discriminate].
  destruct (status_eqb (status invoice) paid); [discriminate|].
  destruct (status_eqb (status invoice) cancelled) eqn:C; [discriminate|].
  destruct (balanceDueOf db invoice <=? ofZ 0); [discriminate|].
  unfold insertPayment. intros H. injection H as <- _ <-.
  pose proof (findInvoice_some db id invoice F) as [_ Hid].
  match goal with
  | |- context [updateInvoiceRow (setPayments db (payments db ++ [?q])) _ _] =>
      set (row := q)
  end.
  assert (findInvoice
            (updateInvoiceRow (setPayments db (payments db ++ [row])) id
               (setStatus paid)) id
          = Some (applyPatch (setStatus paid) invoice)) as F'.
  { rewrite findInvoice_updateInvoiceRow, findInvoice_setPayments, F.
    reflexivity. }
  split; [|split].
  - unfold paymentPage. rewrite F, C. eexists. split; reflexivity.
  - unfold paymentPage. rewrite F'. simpl status. cbv iota.
    change (status_eqb paid cancelled) with false. cbv iota.
    eexists. split; [reflexivity|]. simpl. rewrite Hid.
    split; [reflexivity|]. split; [|reflexivity].
    unfold totalPaidOf, paymentsOf. simpl. rewrite filter_app. simpl.
    rewrite N.eqb_refl, map_app. apply sumAmounts_app.
  - intros body' now' token'. unfold processOnlinePayment. rewrite F'.
    reflexivity.
Qed.

Lemma patch_twice (db : Store) (id : Id) (p q r : InvoicePatch) :
  (forall i, applyPatch q (applyPatch p i) = applyPatch r i) ->
  updateInvoiceRow (updateInvoiceRow db id p) id q = updateInvoiceRow db id r.
Proof.
  intros H. unfold updateInvoiceRow, setInvoices. simpl. f_equal.
  rewrite map_map. apply map_ext. intros i.
  destruct (N.eqb (inv_id i) id) eqn:K; [|rewrite K; reflexivity].
  change (inv_id (applyPatch p i)) with (inv_id i). rewrite K. apply H.
Qed.

Lemma sendInvoice_store (db : Store) (uid id : Id) :
  (isOk (snd (sendInvoice db uid id)) = false
   /\ fst (sendInvoice db uid id) = db)
  \/ (isOk (snd (sendInvoice db uid id)) = true
      /\ fst (sendInvoice db uid id) = updateInvoiceRow db id (setStatus sent)
      /\ exists invoice,
           findOwnedInvoice db id uid = Some invoice
           /\ negb (status_eqb (status invoice) draft)
              && negb (status_eqb (status invoice) sent) = false).
Proof.
  unfold sendInvoice.
  destruct (findOwnedInvoice db id uid) as [invoice|] eqn:F;
    [|left; split; reflexivity].
  destruct (negb (status_eqb (status invoice) draft)
            && negb (status_eqb (status invoice) sent)) eqn:G;
    [left; split; reflexivity|].
  right. unfold returnRow. rewrite findInvoice_updateInvoiceRow.
  destruct (findOwnedInvoice_found db uid id invoice F) as [row ->].
  split; [reflexivity|]. split; [reflexivity|].
  exists invoice. split; [reflexivity | exact G].
Qed.

(** X8. The routes that mark an invoice as sent or reminded agree.
    Sending twice leaves the store as sending once does.  The invoice
    mail is accepted exactly when send is, and leaves the store send
    leaves with the payment link written to the invoice in addition.
    The reminder mail is accepted exactly when the remind route is and
    leaves the very same store. *)
Theorem send_and_mail_routes_agree (baseUrl : string) (db : Store)
  (uid id : Id) (now : Date) :
  fst (sendInvoice (fst (sendInvoice db uid id)) uid id)
  = fst (sendInvoice db uid id)
  /\ isOk (snd (emailInvoice baseUrl db uid id invoiceEmail now))
     = isOk (snd (sendInvoice db uid id))
  /\ (isOk (snd (sendInvoice db uid id)) = true ->
      fst (emailInvoice baseUrl db uid id invoiceEmail now)
      = updateInvoiceRow (fst (sendInvoice db uid id)) id
          (linkPatch (paymentLinkOf baseUrl id)))
  /\ (isOk (snd (sendInvoice db uid id)) = false ->
      fst (emailInvoice baseUrl db uid id invoiceEmail now) = db)
  /\ isOk (snd (emailInvoice baseUrl db uid id reminderEmail now))
     = isOk (snd (remindInvoice db uid id now))
  /\ fst (emailInvoice baseUrl db uid id reminderEmail now)
     = fst (remindInvoice db uid id now).
Proof.
  split; [|split; [|split; [|split; [|split]]]].
  - destruct (sendInvoice_store db uid id)
      as [[_ E]|[_ [E [invoice [F G]]]]]; rewrite E.
    + exact E.
    + destruct (sendInvoice_store (updateInvoiceRow db id (setStatus sent))
                  uid id) as [[_ E']|[_ [E' _]]]; rewrite E'; [reflexivity|].
      apply patch_twice. reflexivity.
  - unfold emailInvoice.
    destruct (sendInvoice_store db uid id)
      as [[O E]|[O [E [invoice [F G]]]]]; rewrite O.
    + revert O. unfold sendInvoice.
      destruct (findOwnedInvoice db id uid) as [invoice|] eqn:F;
        [|reflexivity].
      destruct (negb (status_eqb (status invoice) draft)
                && negb (status_eqb (status invoice) sent));
        [reflexivity|].
      unfold returnRow. rewrite findInvoice_updateInvoiceRow.
      destruct (findOwnedInvoice_found db uid id invoice F) as [row ->].
      discriminate.
    + rewrite F, G. reflexivity.
  - intros O. unfold emailInvoice.
    destruct (sendInvoice_store db uid id)
      as [[O' _]|[_ [E [invoice [F G]]]]]; [congruence|].
    rewrite E, F, G. simpl. symmetry. apply patch_twice. reflexivity.
  - unfold emailInvoice, sendInvoice.
    destruct (findOwnedInvoice db id uid) as [invoice|] eqn:F;
      [|reflexivity].
    destruct (negb (status_eqb (status invoice) draft)
              && negb (status_eqb (status invoice) sent));
      [reflexivity|].
    unfold returnRow. rewrite findInvoice_updateInvoiceRow.
    destruct (findOwnedInvoice_found db uid id invoice F) as [row ->].
    discriminate.
  - unfold emailInvoice, remindInvoice.
    destruct (findOwnedInvoice db id uid) as [invoice|] eqn:F;
      [|reflexivity].
    destruct (negb (status_eqb (status invoice) sent)
              && negb (status_eqb (status invoice) overdue));
      [reflexivity|].
    rewrite findInvoice_updateInvoiceRow.
    destruct (findOwnedInvoice_found db uid id invoice F) as [row ->].
    reflexivity.
  - unfold emailInvoice, remindInvoice.
    destruct (findOwnedInvoice db id uid) as [invoice|] eqn:F;
      [|reflexivity].
    destruct (negb (status_eqb (status invoice) sent)
              && negb (status_eqb (status invoice) overdue));
      [reflexivity|].
    destruct (findInvoice (updateInvoiceRow db id (reminderPatch invoice now)) id);
      reflexivity.
Qed.

Lemma last_default {T} (x : T) (l : list T) (d d' : T) :
  last (x :: l) d = last (x :: l) d'.
Proof.
  revert x. induction l as [|y l IH]; intros x; [reflexivity|].
  change (last (y :: l) d = last (y :: l) d'). apply IH.
Qed.

Lemma remind_step (db : Store) (uid : Id) (inv : Invoice) (t : Date) :
  uniqueIds db -> In inv (invoices db) -> userId inv = uid ->
  status inv = sent \/ status inv = overdue ->
  remindInvoice db uid (inv_id inv) t
  = (updateInvoiceRow db (inv_id inv) (reminderPatch inv t),
     Ok 200 (reminderCount inv + 1)%Z).
Proof.
  intros U Hin Ho Hs. unfold remindInvoice.
  rewrite (findOwnedInvoice_unique db uid inv U Hin).
  apply N.eqb_eq in Ho. rewrite Ho.
  replace (negb (status_eqb (status inv) sent)
           && negb (status_eqb (status inv) overdue)) with false
    by (destruct Hs as [-> | ->]; reflexivity).
  rewrite findInvoice_updateInvoiceRow, (findInvoice_unique db inv U Hin).
  reflexivity.
Qed.

(** X9. Reminders add up.  On a sent or overdue invoice of the session
    user, any number of reminders in a row are all accepted: after
    reminders at the times [times] the reminder count has grown by their
    number, the last reminder date is the last of the times, and the
    status and the total of the invoice are what they were. *)
Theorem reminders_accumulate (db : Store) (uid : Id) (inv : Invoice)
  (times : list Date) :
  uniqueIds db -> In inv (invoices db) -> userId inv = uid ->
  status inv = sent \/ status inv = overdue ->
  exists inv',
    findInvoice
      (fold_left (fun d t => fst (remindInvoice d uid (inv_id inv) t)) times db)
      (inv_id inv) = Some inv'
    /\ reminderCount inv' = (reminderCount inv + Z.of_nat (List.length times))%Z
    /\ lastRemindedAt inv' = last (map Some times) (lastRemindedAt inv)
    /\ status inv' = status inv
    /\ total inv' = total inv.
Proof.
  revert db inv. induction times as [|t times IH]; intros db inv U Hin Ho Hs.
  - exists inv. simpl. rewrite Z.add_0_r.
    split; [exact (findInvoice_unique db inv U Hin) | repeat split].
  - simpl fold_left. rewrite (remind_step db uid inv t U Hin Ho Hs). simpl fst.
    set (db1 := updateInvoiceRow db (inv_id inv) (reminderPatch inv t)).
    set (inv1 := applyPatch (reminderPatch inv t) inv).
    assert (uniqueIds db1) as U1
        by (unfold uniqueIds, db1; rewrite patched_ids; exact U).
    assert (In inv1 (invoices db1)) as Hin1.
    { unfold db1. simpl. apply in_map_iff. exists inv.
      rewrite N.eqb_refl. split; [reflexivity | exact Hin]. }
    destruct (IH db1 inv1 U1 Hin1 Ho Hs) as [inv' [F [Hc [Hl [Hst Ht]]]]].
    exists inv'. split; [exact F|]. split; [|split; [|split]].
    + rewrite Hc. unfold inv1. simpl reminderCount.
      change (List.length (t :: times)) with (S (List.length times)). lia.
    + rewrite Hl. unfold inv1. simpl lastRemindedAt.
      destruct times as [|t' times]; [reflexivity|].
      change (map Some (t :: t' :: times))
        with (Some t :: map Some (t' :: times)).
      change (last (Some t :: map Some (t' :: times)) (lastRemindedAt inv))
        with (last (map Some (t' :: times)) (lastRemindedAt inv)).
      apply last_default.
    + exact Hst.
    + exact Ht.
Qed.

Lemma findUser_setCounter (db : Store) (uid : Id) (n : Z) (u : User) :
  findUser db uid = Some u ->
  option_map invoiceCounter (findUser (setCounter db uid n) uid) = Some n.
Proof.
  unfold findUser, setCounter. simpl.
  induction (users db) as [|x l IH]; simpl; [discriminate|].
  destruct (N.eqb (user_id x) uid) eqn:K; simpl; rewrite K;
    [reflexivity | exact IH].
Qed.

(** X10. What duplicating an invoice does.  A refused duplication
    leaves the store as it was, the owner's counter included.  An
    accepted one advances the owner's counter by one and numbers the
    copy after it; the copy is appended as a draft of the same owner and
    client, issued now and due in 30 days, under a key no invoice had,
    with the totals, the tax rate and the lines of the source and
    without any payment; clients and payments are untouched. *)
Theorem duplicateInvoice_effect (nc : NumberConstraint) (db : Store)
  (uid id : Id) (now : Date) :
  (forall db' code message,
      duplicateInvoice nc db uid id now = (db', Error code message) -> db' = db)
  /\ (forall db' code copy lines,
         duplicateInvoice nc db uid id now = (db', Ok code (copy, lines)) ->
         exists source owner,
           findOwnedInvoice db id uid = Some source
           /\ findUser db uid = Some owner
           /\ number copy = formatNumber (invoiceCounter owner + 1)
           /\ option_map invoiceCounter (findUser db' uid)
              = Some (invoiceCounter owner + 1)%Z
           /\ invoices db' = (invoices db ++ [copy])%list
           /\ clients db' = clients db /\ payments db' = payments db
           /\ (status copy = draft /\ issueDate copy = now
               /\ dueDate copy = addDays now 30
               /\ ~ In (inv_id copy) (map inv_id (invoices db)))
           /\ (userId copy = uid /\ clientId copy = clientId source)
           /\ (subtotal copy = subtotal source /\ taxRate copy = taxRate source
               /\ tax copy = tax source /\ total copy = total source)
           /\ (itemsBelong db ->
               map copyItem lines = map copyItem (itemsOf db id))
           /\ (paymentsBelong db -> paymentsOf db' (inv_id copy) = [])).
Proof.
  split.
  - unfold duplicateInvoice.
    destruct (findOwnedInvoice db id uid) as [invoice|]; [|congruence].
    destruct (findUser db uid) as [userData|]; [|congruence].
    match goal with
    | |- context [insertInvoice nc ?d ?r ?l] =>
        destruct (insertInvoice nc d r l) as [db2 [c b | c m]]
    end; congruence.
  - intros db' code copy lines H.
    pose proof (duplicateInvoice_copy nc db db' uid id now code copy lines H)
      as [Hs [Hi [Hd [Hf [Hl Hp]]]]].
    revert H. unfold duplicateInvoice.
    destruct (findOwnedInvoice db id uid) as [invoice|]; [|discriminate].
    destruct (findUser db uid) as [userData|] eqn:Fu; [|discriminate].
    match goal with
    | |- context [insertInvoice nc ?d ?r ?l] =>
        destruct (insertInvoice nc d r l) as [db2 [c b | c m]] eqn:I
    end; [|discriminate].
    intros H. injection H as <- <- ->.
    destruct (insertInvoice_shape nc _ db2 _ copy _ c lines I)
      as (new & Ei & _ & Eu & Ep & _ & _ & _ & _
          & (En & _ & _ & _ & Eo & Ec) & (E1 & E2 & E3 & E4)).
    simpl in Ei, Eu, Ep, En, Eo, Ec, E1, E2, E3, E4.
    exists invoice, userData.
    split; [reflexivity|]. split; [reflexivity|]. split; [exact En|].
    split.
    { unfold findUser. rewrite Eu.
      exact (findUser_setCounter db uid _ userData Fu). }
    split; [exact Ei|]. split.
    { exact (insertInvoice_clients nc _ _ _ _ _ I). }
    split; [exact Ep|].
    split; [split; [exact Hs | split; [exact Hi | split; [exact Hd | exact Hf]]]|].
    split; [split; [exact Eo | exact Ec]|].
    split; [split; [exact E1 | split; [exact E2 | split; [exact E3 | exact E4]]]|].
    split; [exact Hl | exact Hp].
Qed.

End Operations.

(** ** Invoice numbers *)

Section Numbering.
Context {A : Arith}.
Local Open Scope num_scope.





















End Numbering.

(** ** The aggregation behind the suggestions *)

Section Aggregation.
Context {A : Arith}.
Local Open Scope num_scope.

Lemma sortBy_perm {T} (cmp : T -> T -> Z) (l : list T) :
  Permutation (sortBy cmp l) l.
Proof.
  induction l as [|x l IH]; simpl; [constructor|].
  apply Permutation_trans with (x :: sortBy cmp l); [|constructor; exact IH].
  clear. induction (sortBy cmp l) as [|y s IH]; simpl; [apply Permutation_refl|].
  destruct (cmp x y <=? 0)%Z; [apply Permutation_refl|].
  apply Permutation_trans with (y :: x :: s);
    [constructor; exact IH | apply perm_swap].
Qed.

(** Sorting by a key, highest first. *)
Lemma sortBy_sorted {T} (key : T -> Z) (l : list T) :
  StronglySorted (fun a b => (key b <= key a)%Z)
                 (sortBy (fun a b => (key b - key a)%Z) l).
Proof.
  induction l as [|x l IH]; simpl; [constructor|].
  induction IH as [|y s Hs IHs Hy]; simpl; [repeat constructor|].
  destruct (key y - key x <=? 0)%Z eqn:C.
  - apply Z.leb_le in C. constructor; [constructor; assumption|].
    constructor; [cbv beta; lia|]. apply Forall_forall. intros z Hz.
    pose proof (proj1 (Forall_forall _ _) Hy z Hz) as Hyz.
    cbv beta in Hyz |- *. lia.
  - apply Z.leb_gt in C. constructor; [exact IHs|].
    apply Forall_forall. intros z Hz.
    apply In_insertSorted in Hz.
    destruct Hz as [->|Hz]; [cbv beta; lia|].
    exact (proj1 (Forall_forall _ _) Hy z Hz).
Qed.

Lemma sorted_filter {T} (R : T -> T -> Prop) (f : T -> bool) (l : list T) :
  StronglySorted R l -> StronglySorted R (filter f l).
Proof.
  induction 1 as [|x l Hs IH Hx]; simpl; [constructor|].
  destruct (f x); [|exact IH]. constructor; [exact IH|].
  apply Forall_forall. intros y Hy. apply filter_In in Hy.
  exact (proj1 (Forall_forall _ _) Hx y (proj1 Hy)).
Qed.

Lemma In_firstn {T} (n : nat) (l : list T) (x : T) :
  In x (firstn n l) -> In x l.
Proof.
  revert n. induction l as [|y l IH]; intros [|n]; simpl; try tauto.
  intros [H|H]; [left; exact H | right; exact (IH n H)].
Qed.

Lemma sorted_firstn {T} (R : T -> T -> Prop) (n : nat) (l : list T) :
  StronglySorted R l -> StronglySorted R (firstn n l).
Proof.
  intros H. revert n. induction H as [|x l Hs IH Hx]; intros [|n]; simpl;
    try constructor; [apply IH|].
  apply Forall_forall. intros y Hy.
  exact (proj1 (Forall_forall _ _) Hx y (In_firstn _ _ _ Hy)).
Qed.

(** *** The map after the lines seen so far *)

Lemma lookupKey_some (m : ObjectMap) (key : string) (e : Entry) :
  lookupKey m key = Some e -> In (key, e) m.
Proof.
  induction m as [|[k0 e0] m IH]; simpl; [discriminate|].
  destruct (String.eqb k0 key) eqn:K.
  - apply String.eqb_eq in K. intros H. injection H as <-. subst. now left.
  - intros H. right. exact (IH H).
Qed.

Lemma lookupKey_none (m : ObjectMap) (key : string) :
  lookupKey m key = None -> ~ In key (map fst m).
Proof.
  induction m as [|[k0 e0] m IH]; simpl; [tauto|].
  destruct (String.eqb k0 key) eqn:K; [discriminate|].
  apply String.eqb_neq in K. intros H [E|E]; [exact (K E) | exact (IH H E)].
Qed.

Lemma storeKey_absent (m : ObjectMap) (key : string) (e : Entry) :
  ~ In key (map fst m) -> storeKey m key e = (m ++ [(key, e)])%list.
Proof.
  induction m as [|[k0 e0] m IH]; simpl; [reflexivity|]. intros H.
  destruct (String.eqb k0 key) eqn:K.
  - apply String.eqb_eq in K. tauto.
  - rewrite IH; [reflexivity | tauto].
Qed.

Lemma storeKey_present (m : ObjectMap) (key : string) (e : Entry) :
  NoDup (map fst m) -> In key (map fst m) ->
  map fst (storeKey m key e) = map fst m
  /\ forall k x, In (k, x) (storeKey m key e) ->
                 (k = key /\ x = e) \/ (k <> key /\ In (k, x) m).
Proof.
  induction m as [|[k0 e0] m IH]; simpl; [tauto|]. intros N H.
  inversion N as [|? ? Hk0 N']; subst.
  destruct (String.eqb k0 key) eqn:K.
  - apply String.eqb_eq in K. subst k0. split; [reflexivity|].
    intros k x [E|E]; [left; split; congruence|].
    right. split; [|right; exact E].
    intros ->. apply Hk0. apply in_map_iff. exists (key, x). split; auto.
  - apply String.eqb_neq in K. destruct H as [H|H]; [contradiction|].
    destruct (IH N' H) as [E1 E2]. split; [simpl; rewrite E1; reflexivity|].
    intros k x [E|E].
    + right. injection E as <- <-. split; [exact K | left; reflexivity].
    + destruct (E2 k x E) as [L|[L1 L2]]; [left; exact L|].
      right. split; [exact L1 | right; exact L2].
Qed.

Lemma filter_last {T} (f : T -> bool) (l : list T) (x : T) :
  filter f (l ++ [x]) = (filter f l ++ (if f x then [x] else []))%list.
Proof. rewrite filter_app. simpl. destruct (f x); reflexivity. Qed.

Lemma summarises_more (keep : bool) (g : list InvoiceItem) (e : Entry)
  (it : InvoiceItem) :
  summarises keep g e ->
  summarises keep (g ++ [it])
    {| e_description := e_description e;
       rates := rates e ++ [rate it];
       quantities :=
         if keep then quantities e ++ [quantity it] else quantities e;
       count := (count e + 1)%Z |}.
Proof.
  intros (first & rest & -> & Hd & Hr & Hq & Hc).
  exists first, (rest ++ [it])%list. simpl.
  split; [reflexivity|]. split; [exact Hd|].
  split; [rewrite Hr, map_app; reflexivity|]. split.
  - rewrite Hq. destruct keep; [rewrite map_app|]; reflexivity.
  - rewrite Hc. simpl List.length. rewrite length_app. simpl List.length. lia.
Qed.

Lemma addItem_grouped (keep : bool) (lines : list InvoiceItem) (m : ObjectMap)
  (it : InvoiceItem) :
  grouped keep lines m ->
  (namedLikeObject it = true -> addItem keep (Some m) it = None)
  /\ (namedLikeObject it = false ->
      exists m', addItem keep (Some m) it = Some m'
                 /\ grouped keep (lines ++ [it]) m').
Proof.
  intros (N & G & C). unfold namedLikeObject, addItem. split.
  - intros H. destruct (lookupKey m (itemKey it)) as [e|] eqn:L.
    + apply lookupKey_some in L. destruct (G _ _ L) as [K _]. congruence.
    + rewrite H. reflexivity.
  - intros H. destruct (lookupKey m (itemKey it)) as [e|] eqn:L.
    + eexists. split; [reflexivity|].
      apply lookupKey_some in L.
      assert (In (itemKey it) (map fst m)) as Hin
          by (apply in_map_iff; exists (itemKey it, e); auto).
      destruct (storeKey_present m (itemKey it)
                  {| e_description := e_description e;
                     rates := rates e ++ [rate it];
                     quantities :=
                       if keep then quantities e ++ [quantity it]
                       else quantities e;
                     count := (count e + 1)%Z |} N Hin) as [E1 E2].
      split; [rewrite E1; exact N|]. split.
      * intros k x Hx. destruct (E2 k x Hx) as [[-> ->]|[Hk Hx']].
        -- split; [exact H|]. rewrite filter_last. unfold sameKey at 2.
           rewrite String.eqb_refl.
           apply summarises_more. exact (proj2 (G _ _ L)).
        -- destruct (G k x Hx') as [G1 G2]. split; [exact G1|].
           rewrite filter_last. unfold sameKey at 2.
           replace (String.eqb (itemKey it) k) with false
             by (symmetry; apply String.eqb_neq; congruence).
           rewrite app_nil_r. exact G2.
      * intros it' Hit'. rewrite E1. apply in_app_or in Hit'.
        destruct Hit' as [Hit'|[<-|[]]]; [exact (C it' Hit') | exact Hin].
    + rewrite H. eexists. split; [reflexivity|].
      pose proof (lookupKey_none m _ L) as Hout.
      rewrite (storeKey_absent m _ _ Hout). split; [|split].
      * rewrite map_app. simpl. apply NoDup_app; [exact N| |].
        -- repeat constructor. intros [].
        -- intros k Hk [<-|[]]. exact (Hout Hk).
      * intros k x Hx. apply in_app_or in Hx.
        destruct Hx as [Hx|[Hx|[]]].
        -- destruct (G k x Hx) as [G1 G2]. split; [exact G1|].
           rewrite filter_last. unfold sameKey at 2.
           replace (String.eqb (itemKey it) k) with false.
           ++ rewrite app_nil_r. exact G2.
           ++ symmetry. apply String.eqb_neq. intros <-. apply Hout.
              apply in_map_iff. exists (itemKey it, x). auto.
        -- injection Hx as <- <-. split; [exact H|].
           rewrite filter_last. unfold sameKey at 2. rewrite String.eqb_refl.
           rewrite (filter_none (sameKey (itemKey it)) lines).
           ++ exists it, []. simpl. repeat split.
           ++ intros it' Hit'. unfold sameKey.
              apply String.eqb_neq. intros E. apply Hout.
              rewrite <- E. exact (C it' Hit').
      * intros it' Hit'. rewrite map_app. apply in_or_app.
        apply in_app_or in Hit'.
        destruct Hit' as [Hit'|[<-|[]]];
          [left; exact (C it' Hit') | right; left; reflexivity].
Qed.

Lemma fold_grouped (keep : bool) (its : list InvoiceItem) :
  forall (lines : list InvoiceItem) (m : ObjectMap),
    grouped keep lines m ->
    (existsb namedLikeObject its = true ->
     fold_left (addItem keep) its (Some m) = None)
    /\ (existsb namedLikeObject its = false ->
        exists m', fold_left (addItem keep) its (Some m) = Some m'
                   /\ grouped keep (lines ++ its) m').
Proof.
  induction its as [|it its IH]; intros lines m G.
  - split; [discriminate|]. intros _. exists m. rewrite app_nil_r.
    split; [reflexivity | exact G].
  - destruct (addItem_grouped keep lines m it G) as [Hbad Hgood].
    change (existsb namedLikeObject (it :: its))
      with (namedLikeObject it || existsb namedLikeObject its).
    change (fold_left (addItem keep) (it :: its) (Some m))
      with (fold_left (addItem keep) its (addItem keep (Some m) it)).
    destruct (namedLikeObject it) eqn:K.
    + split; [|discriminate]. intros _. rewrite (Hbad eq_refl).
      apply fold_addItem_thrown.
    + destruct (Hgood eq_refl) as [m1 [E G1]]. rewrite E.
      destruct (IH (lines ++ [it])%list m1 G1) as [I1 I2].
      split; [exact I1|]. intros H. destruct (I2 H) as [m' [E' G']].
      exists m'. split; [exact E'|].
      rewrite <- app_assoc in G'. exact G'.
Qed.

Lemma aggregateItems_flat (keep : bool) (db : Store) (invs : list Invoice) :
  aggregateItems keep db invs
  = fold_left (addItem keep)
      (flat_map (fun inv => itemsOf db (inv_id inv)) invs) (Some []).
Proof.
  unfold aggregateItems. generalize (Some (@nil (string * Entry))).
  induction invs as [|inv invs IH]; intros acc; simpl; [reflexivity|].
  rewrite fold_left_app. apply IH.
Qed.

Lemma aggregateItems_grouped (keep : bool) (db : Store) (invs : list Invoice) :
  let lines := flat_map (fun inv => itemsOf db (inv_id inv)) invs in
  (existsb namedLikeObject lines = true -> aggregateItems keep db invs = None)
  /\ (existsb namedLikeObject lines = false ->
      exists m, aggregateItems keep db invs = Some m /\ grouped keep lines m).
Proof.
  intros lines. rewrite aggregateItems_flat. fold lines.
  assert (grouped keep [] []) as G0.
  { split; [constructor|]. split; intros; contradiction. }
  exact (fold_grouped keep lines [] [] G0).
Qed.

(** *** From the map to the answer *)

Lemma partition_perm {T} (f : T -> bool) (l : list T) :
  Permutation (filter f l ++ filter (fun x => negb (f x)) l) l.
Proof.
  induction l as [|x l IH]; simpl; [constructor|].
  destruct (f x); simpl; [constructor; exact IH|].
  apply Permutation_sym, Permutation_cons_app, Permutation_sym, IH.
Qed.

(** [Object.values] loses no entry and invents none. *)
Lemma objectValues_perm (m : ObjectMap) :
  exists kvs, objectValues m = map snd kvs /\ Permutation kvs m.
Proof.
  unfold objectValues. eexists. split; [reflexivity|].
  eapply Permutation_trans;
    [|apply (partition_perm (fun kv => isArrayIndex (fst kv)) m)].
  apply Permutation_app_tail, sortBy_perm.
Qed.

Lemma faithful_client : faithful clientSuggestion.
Proof. intros e. split; reflexivity. Qed.

Lemma faithful_global : faithful globalSuggestion.
Proof. intros e. split; reflexivity. Qed.

Lemma entry_key (keep : bool) (lines : list InvoiceItem) (k : string)
  (e : Entry) :
  summarises keep (filter (sameKey k) lines) e ->
  trim (toLowerCase (e_description e)) = k /\ (1 <= count e)%Z.
Proof.
  intros (first & rest & E & Hd & _ & _ & Hc).
  assert (In first (filter (sameKey k) lines)) as Hin
      by (rewrite E; left; reflexivity).
  apply filter_In in Hin. destruct Hin as [_ K].
  apply String.eqb_eq in K. rewrite Hd, Hc, E. split; [exact K|].
  simpl List.length. lia.
Qed.

Lemma ranked_keys (keep : bool) (lines : list InvoiceItem) (m : ObjectMap)
  (mk : Entry -> LineItemSuggestion) (filterText : option string) :
  faithful mk -> grouped keep lines m ->
  let l := applySearch filterText
             (sortBy byFrequency (map mk (objectValues m))) in
  NoDup (map suggestionKey l)
  /\ StronglySorted (fun a b => (frequency b <= frequency a)%Z) l
  /\ forall s, In s l ->
       exists k e, In (k, e) m /\ s = mk e
                   /\ summarises keep (filter (sameKey k) lines) e.
Proof.
  intros Fm (N & G & _) l.
  destruct (objectValues_perm m) as [kvs [Ev Pv]].
  assert (NoDup (map suggestionKey (map mk (objectValues m)))) as N0.
  { rewrite Ev, !map_map.
    rewrite (map_ext_in _ fst).
    - apply (Permutation_NoDup (Permutation_sym (Permutation_map fst Pv)) N).
    - intros [k e] Hin. simpl. unfold suggestionKey.
      rewrite (proj1 (Fm e)).
      apply (Permutation_in _ Pv) in Hin.
      exact (proj1 (entry_key keep lines k e (proj2 (G k e Hin)))). }
  assert (NoDup (map suggestionKey
                   (sortBy byFrequency (map mk (objectValues m))))) as N1.
  { apply (Permutation_NoDup
             (Permutation_sym
                (Permutation_map suggestionKey (sortBy_perm byFrequency _)))
             N0). }
  pose proof (sortBy_sorted frequency (map mk (objectValues m))) as S1.
  split; [|split].
  - unfold l, applySearch. destruct (searchText filterText); [|exact N1].
    apply NoDup_map_filter, N1.
  - unfold l, applySearch. destruct (searchText filterText); [|exact S1].
    apply sorted_filter, S1.
  - intros s Hs. apply In_applySearch, In_sortBy, in_map_iff in Hs.
    destruct Hs as [e [<- He]]. apply In_objectValues in He.
    destruct He as [k Hk]. exists k, e.
    split; [exact Hk|]. split; [reflexivity | exact (proj2 (G k e Hk))].
Qed.

Lemma clientSuggestions_grouped (db : Store) (uid cid : Id)
  (filterText : option string) :
  (existsb namedLikeObject (clientLines db uid cid) = true
   /\ clientSuggestions db uid cid filterText = None)
  \/ (existsb namedLikeObject (clientLines db uid cid) = false
      /\ exists m,
           grouped true (clientLines db uid cid) m
           /\ clientSuggestions db uid cid filterText
              = Some (applySearch filterText
                        (sortBy byFrequency
                           (map clientSuggestion (objectValues m))))).
Proof.
  unfold clientSuggestions.
  destruct (aggregateItems_grouped true db (clientInvoices db uid cid))
    as [Bad Good].
  fold (clientLines db uid cid) in Bad, Good.
  destruct (existsb namedLikeObject (clientLines db uid cid)).
  - left. rewrite (Bad eq_refl). split; reflexivity.
  - right. destruct (Good eq_refl) as [m [-> G]].
    split; [reflexivity|]. exists m. split; [exact G | reflexivity].
Qed.

Lemma globalSuggestions_grouped (db : Store) (uid : Id)
  (filterText : option string) :
  (existsb namedLikeObject (ownerLines db uid) = true
   /\ globalSuggestions db uid filterText = None)
  \/ (existsb namedLikeObject (ownerLines db uid) = false
      /\ exists m,
           grouped false (ownerLines db uid) m
           /\ globalSuggestions db uid filterText
              = Some (applySearch filterText
                        (sortBy byFrequency
                           (map globalSuggestion (objectValues m))))).
Proof.
  unfold globalSuggestions.
  destruct (aggregateItems_grouped false db (allInvoices db uid))
    as [Bad Good].
  fold (ownerLines db uid) in Bad, Good.
  destruct (existsb namedLikeObject (ownerLines db uid)).
  - left. rewrite (Bad eq_refl). split; reflexivity.
  - right. destruct (Good eq_refl) as [m [-> G]].
    split; [reflexivity|]. exists m. split; [exact G | reflexivity].
Qed.

Lemma linesLike_key (lines : list InvoiceItem) (k d : string) :
  trim (toLowerCase d) = k -> linesLike d lines = filter (sameKey k) lines.
Proof. intros <-. reflexivity. Qed.

(** X13. What a suggestion reports.  A client-specific suggestion
    stands for the lines of the client's 50 most recent invoices that go
    by its description (up to case and surrounding white space): there
    is at least one; the suggestion is named after, and takes its rate
    from, the first of them in reading order (most recent invoice
    first); its frequency is their number and its quantity their mean
    quantity, rounded to one decimal.  A user-wide suggestion does the
    same over the owner's 100 most recent invoices, with quantity 1. *)
Theorem suggestions_count_the_history (db : Store) (uid cid : Id)
  (filterText : option string) :
  (forall l s,
      clientSuggestions db uid cid filterText = Some l -> In s l ->
      exists first rest,
        linesLike (s_description s) (clientLines db uid cid) = first :: rest
        /\ s_description s = description first
        /\ s_rate s = rate first
        /\ frequency s = Z.of_nat (List.length (first :: rest))
        /\ s_quantity s
           = round (sumAmounts (map quantity (first :: rest))
                    / ofZ (Z.of_nat (List.length (first :: rest)))
                    * ofZ 10) / ofZ 10)
  /\ (forall l s,
         globalSuggestions db uid filterText = Some l -> In s l ->
         exists first rest,
           linesLike (s_description s) (ownerLines db uid) = first :: rest
           /\ s_description s = description first
           /\ s_rate s = rate first
           /\ frequency s = Z.of_nat (List.length (first :: rest))
           /\ s_quantity s = ofZ 1).
Proof.
  split; intros l s H Hs.
  - destruct (clientSuggestions_grouped db uid cid filterText)
      as [[_ E]|[_ [m [G E]]]]; rewrite E in H; [discriminate|].
    injection H as <-.
    destruct (proj2 (proj2 (ranked_keys true _ m clientSuggestion filterText
                              faithful_client G)) s Hs)
      as (k & e & _ & -> & S).
    destruct (entry_key true _ k e S) as [K _].
    destruct S as (first & rest & Eg & Hd & Hr & Hq & Hc).
    exists first, rest. simpl s_description.
    rewrite (linesLike_key _ k _ K).
    split; [exact Eg|]. split; [exact Hd|].
    unfold clientSuggestion. simpl. rewrite Hr, Hq, Hc, Eg, length_map.
    repeat split.
  - destruct (globalSuggestions_grouped db uid filterText)
      as [[_ E]|[_ [m [G E]]]]; rewrite E in H; [discriminate|].
    injection H as <-.
    destruct (proj2 (proj2 (ranked_keys false _ m globalSuggestion filterText
                              faithful_global G)) s Hs)
      as (k & e & _ & -> & S).
    destruct (entry_key false _ k e S) as [K _].
    destruct S as (first & rest & Eg & Hd & Hr & Hq & Hc).
    exists first, rest. simpl s_description.
    rewrite (linesLike_key _ k _ K).
    split; [exact Eg|]. split; [exact Hd|].
    unfold globalSuggestion. simpl. rewrite Hr, Hc, Eg.
    repeat split.
Qed.

(** C9 (amended). The user-wide fallback is used exactly when the list
    of client-specific suggestions is empty after the optional filter
    text has been applied: always when the client's invoices have no
    line, but also when the filter matches none of the client's items.
    It is drawn from the lines of the owner's 100 most recent invoices
    (the client-specific list from those of the client's 50 most recent
    ones), grouped by the same key: a fallback suggestion stands for the
    lines that go by its description up to case and surrounding white
    space, takes its rate from the first of them (most recent invoice
    first) and reports their number as its frequency, like a
    client-specific one; but it has quantity 1 where the client-specific
    one has the mean quantity, and confidence min(70, 30 + 5 *
    frequency) where that one has min(95, 50 + 10 * frequency).  When
    the filtered client-specific list is not empty, its first ten
    entries are the answer. *)
Theorem C9_suggestLineItems (db : Store) (uid cid : Id)
  (filterText : option string) :
  (forall l,
      clientSuggestions db uid cid filterText = Some l ->
      (l = [] ->
       suggestLineItems db uid cid filterText
       = option_map (firstn 10) (globalSuggestions db uid filterText))
      /\ (l <> [] ->
          suggestLineItems db uid cid filterText = Some (firstn 10 l))
      /\ (forall s, In s l ->
                    confidence s = Z.min 95 (50 + frequency s * 10)
                    /\ (exists it, In it (clientLines db uid cid)
                                   /\ description it = s_description s)
                    /\ exists first rest,
                         linesLike (s_description s) (clientLines db uid cid)
                         = first :: rest
                         /\ s_description s = description first
                         /\ s_rate s = rate first
                         /\ frequency s
                            = Z.of_nat (List.length (first :: rest))
                         /\ s_quantity s
                            = round (sumAmounts (map quantity (first :: rest))
                                     / ofZ (Z.of_nat
                                              (List.length (first :: rest)))
                                     * ofZ 10) / ofZ 10))
  /\ (clientLines db uid cid = [] ->
      clientSuggestions db uid cid filterText = Some [])
  /\ (forall g s,
         globalSuggestions db uid filterText = Some g -> In s g ->
         s_quantity s = ofZ 1
         /\ confidence s = Z.min 70 (30 + frequency s * 5)
         /\ exists first rest,
              linesLike (s_description s) (ownerLines db uid) = first :: rest
              /\ s_description s = description first
              /\ s_rate s = rate first
              /\ frequency s = Z.of_nat (List.length (first :: rest)))
  /\ ownerLines db uid
     = flat_map (fun inv => itemsOf db (inv_id inv))
         (firstn 100
            (rev (filter (fun i => N.eqb (userId i) uid) (invoices db))))
  /\ clientLines db uid cid
     = flat_map (fun inv => itemsOf db (inv_id inv))
         (firstn 50
            (rev (filter (fun i => N.eqb (userId i) uid
                                   && N.eqb (clientId i) cid)
                         (invoices db)))).
Proof.
  destruct (fallback_when_nothing_is_left db uid cid filterText)
    as (Hc & Hn & Hg).
  split; [|split; [exact Hn|split; [|split; reflexivity]]].
  - intros l E. destruct (Hc l E) as (H1 & H2 & H3).
    split; [exact H1|]. split; [exact H2|].
    intros s Hs. destruct (H3 s Hs) as [C D].
    split; [exact C|]. split; [exact D|].
    destruct (clientSuggestions_grouped db uid cid filterText)
      as [[_ Ec]|[_ [m [G Ec]]]]; rewrite Ec in E; [discriminate|].
    injection E as <-.
    destruct (proj2 (proj2 (ranked_keys true _ m clientSuggestion filterText
                              faithful_client G)) s Hs)
      as (k & e & _ & -> & S).
    destruct (entry_key true _ k e S) as [K _].
    destruct S as (first & rest & Eg & Hd & Hr & Hq & Hk).
    exists first, rest. simpl s_description.
    rewrite (linesLike_key _ k _ K).
    split; [exact Eg|]. split; [exact Hd|].
    unfold clientSuggestion. simpl. rewrite Hr, Hq, Hk, Eg, length_map.
    repeat split.
  - intros g s E Hs. destruct (Hg g s E Hs) as [Q C].
    split; [exact Q|]. split; [exact C|].
    destruct (globalSuggestions_grouped db uid filterText)
      as [[_ Eg]|[_ [m [G Eg]]]]; rewrite Eg in E; [discriminate|].
    injection E as <-.
    destruct (proj2 (proj2 (ranked_keys false _ m globalSuggestion filterText
                              faithful_global G)) s Hs)
      as (k & e & _ & -> & S).
    destruct (entry_key false _ k e S) as [K _].
    destruct S as (first & rest & El & Hd & Hr & _ & Hk).
    exists first, rest. simpl s_description.
    rewrite (linesLike_key _ k _ K).
    split; [exact El|]. split; [exact Hd|].
    unfold globalSuggestion. simpl. rewrite Hr, Hk, El.
    repeat split.
Qed.

Lemma ranked_shape (keep : bool) (lines : list InvoiceItem) (m : ObjectMap)
  (mk : Entry -> LineItemSuggestion) (filterText : option string)
  (lo hi : Z) :
  faithful mk -> grouped keep lines m ->
  (forall e, (1 <= count e)%Z -> (lo <= confidence (mk e) <= hi)%Z) ->
  let l := firstn 10 (applySearch filterText
                        (sortBy byFrequency (map mk (objectValues m)))) in
  (List.length l <= 10)%nat
  /\ StronglySorted (fun a b => (frequency b <= frequency a)%Z) l
  /\ NoDup (map suggestionKey l)
  /\ Forall (fun s => (1 <= frequency s)%Z /\ (lo <= confidence s <= hi)%Z) l.
Proof.
  intros Fm G Hc l.
  destruct (ranked_keys keep lines m mk filterText Fm G) as [N [S I]].
  split; [apply firstn_le_length|].
  split; [apply sorted_firstn, S|]. split.
  - unfold l. rewrite <- (firstn_skipn 10 (applySearch _ _)) in N.
    rewrite map_app in N. exact (NoDup_app_remove_r _ _ N).
  - apply Forall_forall. intros s Hs. apply In_firstn in Hs.
    destruct (I s Hs) as (k & e & _ & -> & Sm).
    destruct (entry_key keep lines k e Sm) as [_ C1].
    rewrite (proj2 (Fm e)). split; [exact C1 | exact (Hc e C1)].
Qed.

(** X14. The shape of the answer.  When [suggestLineItems] answers, it
    gives at most ten suggestions, the most frequent first, no two of
    them for the same description (up to case and surrounding white
    space); every frequency is at least 1 and every confidence lies
    between 35 and 95. *)
Theorem suggestLineItems_shape (db : Store) (uid cid : Id)
  (filterText : option string) (l : list LineItemSuggestion) :
  suggestLineItems db uid cid filterText = Some l ->
  (List.length l <= 10)%nat
  /\ StronglySorted (fun a b => (frequency b <= frequency a)%Z) l
  /\ NoDup (map suggestionKey l)
  /\ Forall (fun s => (1 <= frequency s)%Z /\ (35 <= confidence s <= 95)%Z) l.
Proof.
  unfold suggestLineItems.
  destruct (clientSuggestions_grouped db uid cid filterText)
    as [[_ E]|[_ [m [G E]]]]; rewrite E; [discriminate|].
  assert (forall e, (1 <= count e)%Z ->
                    (35 <= confidence (clientSuggestion e) <= 95)%Z) as Hc
      by (intros e H;
          change (confidence (clientSuggestion e))
            with (Z.min 95 (50 + count e * 10))%Z; lia).
  pose proof (ranked_shape true _ m clientSuggestion filterText 35 95
                faithful_client G Hc) as Rc.
  destruct (applySearch filterText
              (sortBy byFrequency (map clientSuggestion (objectValues m))))
    as [|c cs] eqn:Ec.
  - destruct (globalSuggestions_grouped db uid filterText)
      as [[_ E']|[_ [m' [G' E']]]]; rewrite E'; [discriminate|].
    intros H. injection H as <-.
    apply (ranked_shape false _ m' globalSuggestion filterText 35 95
             faithful_global G').
    intros e H.
    change (confidence (globalSuggestion e))
      with (Z.min 70 (30 + count e * 5))%Z. lia.
  - intros H. injection H as <-. exact Rc.
Qed.

(** X15. When the suggestions fail.  [suggestLineItems] throws (a
    TypeError) exactly when a line of the
    history it reads is described by a name every object inherits
    ("constructor" or "__proto__", in any case and with any white space
    around): a line of the client's 50 most recent invoices, or, when
    the filtered client-specific list is empty, a line of the owner's
    100 most recent invoices. *)
Theorem suggestLineItems_throws (db : Store) (uid cid : Id)
  (filterText : option string) :
  suggestLineItems db uid cid filterText = None
  <-> existsb namedLikeObject (clientLines db uid cid) = true
      \/ (clientSuggestions db uid cid filterText = Some []
          /\ existsb namedLikeObject (ownerLines db uid) = true).
Proof.
  unfold suggestLineItems.
  destruct (clientSuggestions_grouped db uid cid filterText)
    as [[B E]|[B [m [_ E]]]]; rewrite E.
  - split; [intros _; left; exact B | reflexivity].
  - destruct (applySearch filterText
                (sortBy byFrequency (map clientSuggestion (objectValues m))))
      as [|c cs].
    + destruct (globalSuggestions_grouped db uid filterText)
        as [[B' E']|[B' [m' [_ E']]]]; rewrite E'.
      * split; [intros _; right; split; [reflexivity | exact B']
               | reflexivity].
      * split; [discriminate|]. intros [H|[_ H]]; congruence.
    + split; [discriminate|]. intros [H|[H _]]; congruence.
Qed.

End Aggregation.

(** ** The list of similar invoices *)

Section SimilarInvoices.
Context {A : Arith}.
Local Open Scope num_scope.

(** X16. What the duplicate check lists.  [similarInvoices] holds at
    most five entries, each the score card of an invoice of the
    30-day window (owner, client, not cancelled) that scores 30 or
    more, the highest score first.  When the check flags a duplicate,
    the list starts with an entry of 75 or more, and that entry is the
    one the reason quotes. *)
Theorem similarInvoices_listed (db : Store) (uid cid : Id)
  (candidateTotal : num) (candidateDate : Date) (newItems : list ItemInput) :
  let r := detectDuplicateInvoice db uid cid candidateTotal candidateDate
             newItems in
  (List.length (similarInvoices r) <= 5)%nat
  /\ StronglySorted (fun a b => (similarity b <= similarity a)%Z)
                    (similarInvoices r)
  /\ (forall s, In s (similarInvoices r) ->
        (30 <= similarity s)%Z
        /\ exists inv,
             In inv (invoices db) /\ inWindowOf uid cid candidateDate inv
             /\ s = scored db candidateTotal candidateDate newItems inv)
  /\ (isDuplicate r = true ->
      exists best rest,
        similarInvoices r = best :: rest
        /\ (75 <= similarity best)%Z
        /\ reason r = HighSimilarity best).
Proof.
  intros r. unfold r, detectDuplicateInvoice.
  destruct (existingInvoices db uid cid candidateDate) as [|i0 rest0] eqn:E.
  { simpl. split; [lia|]. split; [constructor|].
    split; [intros s []|discriminate]. }
  rewrite <- E.
  set (kept := filter (fun s => (30 <=? similarity s)%Z)
                 (map (scored db candidateTotal candidateDate newItems)
                      (existingInvoices db uid cid candidateDate))).
  pose proof (sortBy_sorted similarity kept) as S.
  change (sortBy (fun a b => (similarity b - similarity a)%Z) kept)
    with (sortBy bySimilarity kept) in S.
  cbn [isDuplicate similarInvoices reason]. fold kept.
  split; [apply firstn_le_length|].
  split; [apply sorted_firstn, S|]. split.
  - intros s Hs. apply In_firstn, In_sortBy in Hs. unfold kept in Hs.
    apply filter_In in Hs. destruct Hs as [Hs H30].
    split; [apply Z.leb_le, H30|].
    apply in_map_iff in Hs. destruct Hs as [inv [<- Hinv]].
    exists inv. apply existingInvoices_spec in Hinv.
    split; [tauto|]. split; [tauto | reflexivity].
  - intros D. destruct (sortBy bySimilarity kept) as [|best rest] eqn:Es;
      [discriminate|].
    exists best, (firstn 4 rest). split; [reflexivity|].
    split; [|rewrite D; reflexivity].
    apply existsb_exists in D. destruct D as [s [Hs H75]].
    apply Z.leb_le in H75. destruct Hs as [<-|Hs]; [exact H75|].
    inversion S as [|? ? _ Hb]; subst.
    pose proof (proj1 (Forall_forall _ _) Hb s Hs). cbv beta in *. lia.
Qed.

End SimilarInvoices.

(** ** The filter text of the suggestions *)

Section Search.
Context {A : Arith}.
Local Open Scope num_scope.

Lemma includes_empty (s : string) : includes s "" = true.
Proof. destruct s; reflexivity. Qed.

Lemma In_tl {T} (x : T) (l : list T) : In x (tl l) -> In x l.
Proof. destruct l; simpl; [tauto | intros H; right; exact H]. Qed.

Lemma prefix_cons (a b : ascii) (s t : string) :
  String.prefix (String a s) (String b t) = true ->
  a = b /\ String.prefix s t = true.
Proof.
  change (String.prefix (String a s) (String b t))
    with (if ascii_dec a b then String.prefix s t else false).
  destruct (ascii_dec a b); [tauto | discriminate].
Qed.

Lemma splitSpace_gap (s : string) :
  includes s "  " = true -> In EmptyString (tl (splitSpace s)).
Proof.
  induction s as [|c s IH]; [discriminate|].
  change (includes (String c s) "  ")
    with (String.prefix "  " (String c s) || includes s "  ").
  intros H. apply orb_prop in H. destruct H as [H|H].
  - apply prefix_cons in H. destruct H as [<- H].
    destruct s as [|c' s]; [discriminate|].
    apply prefix_cons in H. destruct H as [<- _].
    simpl. left. reflexivity.
  - specialize (IH H). simpl. destruct (Ascii.eqb c " ").
    + simpl. apply In_tl, IH.
    + destruct (splitSpace s); [destruct IH | exact IH].
Qed.

Lemma trimStart_blank (s : string) :
  forallb isSpace (list_ascii_of_string s) = true -> trimStart s = EmptyString.
Proof.
  induction s as [|c s IH]; simpl; [reflexivity|]. intros H.
  apply andb_prop in H. destruct H as [-> H]. exact (IH H).
Qed.

(** X17. Edges of the filter text.  A filter text of white space only
    filters nothing.  Neither does a text that still holds two
    consecutive spaces once trimmed: the empty word between them is part
    of every description.  And whatever the text, a suggestion whose
    description contains it (trimmed, case ignored) is kept. *)
Theorem filter_text_edges (text : string) (l : list LineItemSuggestion) :
  (forallb isSpace (list_ascii_of_string text) = true ->
   applySearch (Some text) l = l)
  /\ (includes (trim (toLowerCase text)) "  " = true ->
      applySearch (Some text) l = l)
  /\ (forall s,
         In s l ->
         includes (toLowerCase (s_description s)) (trim (toLowerCase text))
         = true ->
         In s (applySearch (Some text) l)).
Proof.
  unfold applySearch, searchText. split; [|split].
  - intros H. unfold trim. rewrite (trimStart_blank text H). reflexivity.
  - intros H. destruct (trim text) as [|c0 t0]; [reflexivity|].
    apply filter_all, Forall_forall. intros s _. unfold matchesSearch.
    apply orb_true_intro. right. apply existsb_exists.
    exists EmptyString. split; [|apply includes_empty].
    apply In_tl, splitSpace_gap, H.
  - intros s Hs H. destruct (trim text) as [|c0 t0]; [exact Hs|].
    apply filter_In. split; [exact Hs|]. unfold matchesSearch.
    rewrite H. reflexivity.
Qed.

End Search.

(** ** The payment prediction *)

Section Forecasts.
Context {A : Arith}.
Local Open Scope num_scope.
Variable mathSqrt : num -> num.
Variable mathPow : num -> num -> num.

Lemma sortBy_nil {T} (cmp : T -> T -> Z) (l : list T) :
  sortBy cmp l = [] -> l = [].
Proof.
  intros H. pose proof (sortBy_perm cmp l) as P. rewrite H in P.
  exact (Permutation_nil P).
Qed.

Lemma paymentDelays_none (db : Store) (invs : list Invoice) :
  (forall inv, In inv invs -> paymentsOf db (inv_id inv) = []) ->
  paymentDelays db invs = [].
Proof.
  intros H. unfold paymentDelays.
  induction invs as [|inv invs IH]; [reflexivity|]. simpl.
  unfold delayOf at 1. rewrite (H inv (or_introl eq_refl)). simpl.
  apply IH. intros i Hi. apply H. right. exact Hi.
Qed.

(** X19. The prediction is anchored on the due date.  Whatever the
    history, the predicted payment date is never earlier than the due
    date of the invoice.  And when none of the client's paid invoices
    has a payment on record (a new client, or invoices marked paid by
    hand), the answer is the fixed one: three days after the due date,
    confidence 30, average 0, risk medium. *)
Theorem prediction_anchored_on_due_date (db : Store) (uid cid : Id)
  (invoiceTotal : num) (dueDate now : Date) :
  let r := predictPaymentDate mathSqrt mathPow db uid cid invoiceTotal
             dueDate now in
  (dueDate <= predictedDate r)%Z
  /\ ((forall inv,
          In inv (invoices db) -> userId inv = uid -> clientId inv = cid ->
          status inv = paid -> paymentsOf db (inv_id inv) = []) ->
      r = {| predictedDate := addDays dueDate 3;
             pp_confidence := ofZ 30;
             reasoning := NoHistory;
             avgDaysToPayForClient := ofZ 0;
             riskLevel := medium |}).
Proof.
  intros r. split.
  - unfold r, predictPaymentDate.
    destruct (paymentDelays db (paidInvoices db uid cid)) as [|d ds].
    + cbn [predictedDate]. unfold addDays, msPerDay. lia.
    + destruct (weigh _ _ _) as [weightedSum totalWeight].
      cbn [predictedDate].
      match goal with
      | |- (_ <= if ?c then _ else _)%Z => destruct c
      end;
        match goal with
        | |- context [if (?a <? ?b)%Z then _ else _] =>
            destruct (Z.ltb_spec a b)
        end; unfold addDays, msPerDay in *; lia.
  - intros H. unfold r, predictPaymentDate.
    rewrite paymentDelays_none; [reflexivity|].
    intros inv Hin. unfold paidInvoices in Hin.
    apply In_firstn, In_sortBy, filter_In in Hin. destruct Hin as [Hin C].
    apply andb_prop in C. destruct C as [C Cs].
    apply andb_prop in C. destruct C as [Cu Cc].
    apply H; [exact Hin | apply N.eqb_eq, Cu | apply N.eqb_eq, Cc
             | apply status_eqb_eq, Cs].
Qed.

End Forecasts.

(** ** Whose client *)

Section Clients.
Context {A : Arith}.
Local Open Scope num_scope.

Lemma findClient_reassigned (f : Client -> Id) (db : Store) (c : Id) :
  findClient (reassignClients f db) c
  = option_map (fun x => {| client_id := client_id x;
                            client_userId := f x;
                            client_name := client_name x;
                            client_email := client_email x |})
               (findClient db c).
Proof.
  unfold findClient, reassignClients. simpl.
  induction (clients db) as [|x l IH]; simpl; [reflexivity|].
  destruct (N.eqb (client_id x) c); [reflexivity | exact IH].
Qed.

(** X22. [createInvoice] does not look at who owns the client.  The
    answer and the invoice table it leaves are the same whoever the
    clients of the store belong to: the request is accepted exactly when
    the body is valid, its two dates are dates, the numbers to store
    (the lines, subtotal, tax rate, tax and total) are finite, the
    number is free and the client exists -- also when the client is
    another user's -- and the new invoice is then the session user's,
    for that client. *)
Theorem createInvoice_ignores_client_owner (nc : NumberConstraint)
  (db : Store) (uid : Id) (body : CreateInvoiceInput) (f : Client -> Id) :
  let rate := orElse (c_taxRate body) (ofZ 0) in
  let sub := sumAmounts (map d_amount (map withAmount (c_items body))) in
  let tx := computeTax sub rate in
  snd (createInvoice nc (reassignClients f db) uid body)
  = snd (createInvoice nc db uid body)
  /\ invoices (fst (createInvoice nc (reassignClients f db) uid body))
     = invoices (fst (createInvoice nc db uid body))
  /\ (isOk (snd (createInvoice nc db uid body)) = true
      <-> createInvoiceSchema body = None
          /\ (c_issueDate body <> noDate /\ c_dueDate body <> noDate)
          /\ (isFinite sub && isFinite rate && isFinite tx
              && isFinite (sub + tx)
              && forallb validLine (map withAmount (c_items body))) = true
          /\ numberTaken nc db uid (formatCount (nextNumber db uid)) = false
          /\ findClient db (c_clientId body) <> None)
  /\ (forall code inv its,
         snd (createInvoice nc db uid body) = Ok code (inv, its) ->
         userId inv = uid /\ clientId inv = c_clientId body).
Proof.
  cbv zeta. unfold createInvoice.
  destruct (createInvoiceSchema body) as [message|].
  { split; [reflexivity|]. split; [reflexivity|]. split; [|discriminate].
    split; [discriminate | intros [H _]; discriminate H]. }
  cbv zeta.
  destruct (c_issueDate body) as [issue|].
  2:{ split; [reflexivity|]. split; [reflexivity|]. split; [|discriminate].
      split; [discriminate | intros [_ [[H _] _]]; destruct (H eq_refl)]. }
  destruct (c_dueDate body) as [due|].
  2:{ split; [reflexivity|]. split; [reflexivity|]. split; [|discriminate].
      split; [discriminate | intros [_ [[_ H] _]]; destruct (H eq_refl)]. }
  unfold insertInvoice, validRow.
  cbn [userId number clientId subtotal taxRate tax total].
  match goal with
  | |- context [negb ?v] => destruct v
  end; cbn [negb].
  2:{ split; [reflexivity|]. split; [reflexivity|]. split; [|discriminate].
      split; [discriminate | intros [_ [_ [H _]]]; discriminate H]. }
  change (nextNumber (reassignClients f db) uid) with (nextNumber db uid).
  change (numberTaken nc (reassignClients f db) uid
            (formatCount (nextNumber db uid)))
    with (numberTaken nc db uid (formatCount (nextNumber db uid))).
  destruct (numberTaken nc db uid (formatCount (nextNumber db uid))).
  { split; [reflexivity|]. split; [reflexivity|]. split; [|discriminate].
    split; [discriminate | intros [_ [_ [_ [H _]]]]; discriminate H]. }
  rewrite findClient_reassigned.
  destruct (findClient db (c_clientId body)) as [client|].
  - split; [reflexivity|]. split; [reflexivity|]. split.
    + split; [intros _; repeat split; discriminate | reflexivity].
    + intros code inv its H. injection H as _ <- _. split; reflexivity.
  - split; [reflexivity|]. split; [reflexivity|]. split; [|discriminate].
    split; [discriminate | intros [_ [_ [_ [_ H]]]]; destruct (H eq_refl)].
Qed.

End Clients.

(** * Worked examples of the further properties *)

Lemma seedStore_references :
  keysUnique seedStore /\ itemsBelong seedStore /\ paymentsBelong seedStore.
Proof.
  split; [|split].
  - unfold keysUnique. simpl. repeat split; repeat constructor;
      simpl; intuition discriminate.
  - intros it Hit. simpl in Hit.
    destruct Hit as [<- | [<- | []]]; eexists;
      (split; [left; reflexivity | reflexivity]).
  - intros p [].
Qed.

(** C9 (amended), on the same ledger: without filter text the first
    client's own two suggestions are the answer; with the filter text
    "host" the filtered list is empty and the fallback answers. *)
Lemma C9_witness :
  (exists l,
      clientSuggestions twoClients 1%N 1%N None = Some l
      /\ map s_description l = ["Design"; "Review"]
      /\ suggestLineItems twoClients 1%N 1%N None = Some (firstn 10 l))
  /\ clientSuggestions twoClients 1%N 1%N (Some "host") = Some []
  /\ suggestLineItems twoClients 1%N 1%N (Some "host")
     = option_map (firstn 10) (globalSuggestions twoClients 1%N (Some "host")).
Proof.
  split.
  - destruct (clientSuggestions twoClients 1%N 1%N None) as [l|] eqn:E;
      [|vm_compute in E; discriminate].
    exists l. split; [reflexivity|].
    assert (map s_description l = ["Design"; "Review"]) as D.
    { vm_compute in E. injection E as <-. reflexivity. }
    split; [exact D|].
    apply (proj1 (C9_suggestLineItems twoClients 1%N 1%N None) l E).
    intros ->. discriminate.
  - assert (clientSuggestions twoClients 1%N 1%N (Some "host") = Some [])
      as E by (vm_compute; reflexivity).
    split; [exact E|].
    exact (proj1 (proj1 (C9_suggestLineItems twoClients 1%N 1%N (Some "host"))
                    [] E) eq_refl).
Defined.

(** X1, on the seeded ledger after the seven requests of [busyDay]. *)
Lemma run_keeps_keys_and_references_witness :
  keysUnique (run NoConstraint localhost seedStore busyDay)
  /\ itemsBelong (run NoConstraint localhost seedStore busyDay)
  /\ paymentsBelong (run NoConstraint localhost seedStore busyDay).
Proof.
  exact (run_keeps_keys_and_references NoConstraint localhost seedStore busyDay
           (proj1 seedStore_references)
           (proj1 (proj2 seedStore_references))
           (proj2 (proj2 seedStore_references))).
Defined.

(** X2, on the same day followed by an update that replaces the lines
    of INV-015 and is accepted: the totals still agree with the lines,
    also those of the copy made on the way. *)
Lemma run_keeps_totals_witness :
  totalsStored seedStore
  /\ noneTorn NoConstraint localhost seedStore busyWeek
  /\ totalsStored (run NoConstraint localhost seedStore busyWeek)
  /\ map (fun i => (number i, subtotal i, total i))
       (invoices (run NoConstraint localhost seedStore busyWeek))
     = [("INV-015", ofZ 1, dec 15 1); ("INV-016", ofZ 125, dec 1375 1)].
Proof.
  assert (noneTorn NoConstraint localhost seedStore busyWeek) as Calm
      by (vm_compute; repeat split).
  split; [exact seedStore_totals|]. split; [exact Calm|]. split.
  - exact (run_keeps_totals NoConstraint localhost seedStore busyWeek
             seedStore_totals Calm).
  - vm_compute. reflexivity.
Defined.

(** X3, on the same day: the two payments it leaves are of 100 and of
    the remaining 37.50. *)
Lemma run_keeps_payments_positive_witness :
  positivePayments (run NoConstraint localhost seedStore busyDay)
  /\ map pay_amount (payments (run NoConstraint localhost seedStore busyDay))
     = [ofZ 100; dec 375 1].
Proof.
  split.
  - apply (run_keeps_payments_positive NoConstraint localhost seedStore busyDay).
    intros p [].
  - vm_compute. reflexivity.
Defined.

(** X4: the sweep of day 31 takes INV-015 from sent to overdue. *)
Lemma lifecycle_transitions_witness :
  exists inv inv',
    In inv (invoices seedStore)
    /\ findInvoice (serve NoConstraint localhost seedStore
                      (SweepOverdue 1%N (31 * msPerDay))) (inv_id inv)
       = Some inv'
    /\ status inv = sent /\ status inv' = overdue
    /\ transition (SweepOverdue 1%N (31 * msPerDay)) (status inv) (status inv').
Proof.
  eexists. eexists. split; [left; reflexivity|].
  split; [vm_compute; reflexivity|].
  split; [reflexivity|]. split; [reflexivity|].
  refine (proj1 (lifecycle_transitions NoConstraint localhost seedStore
                   (SweepOverdue 1%N (31 * msPerDay)) seedStore_keys)
            _ _ (or_introl eq_refl) _).
  vm_compute. reflexivity.
Defined.

Lemma twoTenants_keys : uniqueIds twoTenants.
Proof.
  unfold uniqueIds. simpl. repeat constructor; simpl; intuition discriminate.
Qed.

(** X5: the owner of the seeded account names the invoice of the second
    user in an update that rewrites lines, tax rate and status; the
    answer is 404 and the invoice is as it was. *)
Lemma tenant_isolation_witness :
  exists inv,
    In inv (invoices twoTenants) /\ inv_id inv = 2%N /\ userId inv = 2%N
    /\ snd (updateInvoice twoTenants 1%N 2%N rewrite)
       = Error 404 "Invoice not found"
    /\ findInvoice (serve NoConstraint localhost twoTenants
                      (UpdateInvoice 1%N 2%N rewrite)) (inv_id inv)
       = Some inv
    /\ itemsOf (serve NoConstraint localhost twoTenants
                  (UpdateInvoice 1%N 2%N rewrite)) (inv_id inv)
       = itemsOf twoTenants (inv_id inv).
Proof.
  eexists. split; [right; left; reflexivity|].
  split; [reflexivity|]. split; [reflexivity|].
  split; [vm_compute; reflexivity|].
  refine (let H := tenant_isolation NoConstraint localhost twoTenants
                     (UpdateInvoice 1%N 2%N rewrite) 1%N _
                     twoTenants_keys eq_refl (or_intror (or_introl eq_refl)) _
          in conj (proj1 H) (proj1 (proj2 H))).
  discriminate.
Defined.

(** X7: INV-015 (137.50, nothing paid) is paid online; the page showed
    137.50 as the balance, shows the invoice as paid afterwards, and a
    second payment is refused. *)
Lemma online_payment_once_witness :
  exists db' p,
    processOnlinePayment seedStore 1%N anyPayer 6000 "k3x9" = (db', Ok 200 p)
    /\ pay_amount p = dec 1375 1
    /\ (exists page,
           paymentPage seedStore 1%N = Ok 200 page
           /\ balanceDue page = pay_amount p)
    /\ forall body' now' token',
         processOnlinePayment db' 1%N body' now' token'
         = (db', Error 400 "This invoice has already been paid").
Proof.
  eexists. eexists. split; [vm_compute; reflexivity|].
  split; [vm_compute; reflexivity|].
  refine (let H := online_payment_once seedStore _ 1%N anyPayer 6000 "k3x9"
                     200 _ _
          in conj (proj1 H) (proj2 (proj2 H))).
  vm_compute. reflexivity.
Defined.

(** X9: three reminders for INV-015 bring its count from 0 to 3. *)
Lemma reminders_accumulate_witness :
  exists inv inv',
    In inv (invoices seedStore) /\ reminderCount inv = 0
    /\ findInvoice
         (fold_left (fun d t => fst (remindInvoice d 1%N (inv_id inv) t))
                    [1000; 2000; 3000] seedStore)
         (inv_id inv) = Some inv'
    /\ reminderCount inv' = 3
    /\ lastRemindedAt inv' = Some 3000
    /\ status inv' = sent.
Proof.
  eexists.
  destruct (reminders_accumulate seedStore 1%N _ [1000; 2000; 3000]
              seedStore_keys (or_introl eq_refl) eq_refl (or_introl eq_refl))
    as [inv' [F [Hc [Hl [Hs _]]]]].
  exists inv'. split; [left; reflexivity|]. split; [reflexivity|].
  split; [exact F|]. split; [exact Hc|]. split; [exact Hl | exact Hs].
Defined.



(** X14: the suggestions for the seeded client are its two items, each
    seen once. *)
Lemma suggestLineItems_shape_witness :
  exists l,
    suggestLineItems seedStore 1%N 1%N None = Some l
    /\ map s_description l = ["Design"; "Review"]
    /\ (List.length l <= 10)%nat
    /\ StronglySorted (fun a b => (frequency b <= frequency a)%Z) l
    /\ NoDup (map suggestionKey l)
    /\ Forall (fun s => (1 <= frequency s)%Z /\ (35 <= confidence s <= 95)%Z) l.
Proof.
  eexists. split; [vm_compute; reflexivity|]. split; [reflexivity|].
  apply (suggestLineItems_shape seedStore 1%N 1%N None).
  vm_compute. reflexivity.
Defined.

(** X20: paying INV-015 in full changes its status and nothing of what
    it says. *)
Lemma content_changes_only_by_update_witness :
  exists inv inv',
    In inv (invoices seedStore)
    /\ findInvoice (serve NoConstraint localhost seedStore
                      (RecordPayment 1%N 1%N (payBy (dec 1375 1)) 1000))
                   (inv_id inv) = Some inv'
    /\ status inv' = paid
    /\ contentOf inv' = contentOf inv.
Proof.
  eexists. eexists. split; [left; reflexivity|].
  split; [vm_compute; reflexivity|]. split; [reflexivity|].
  refine (proj2 (proj2 (content_changes_only_by_update NoConstraint localhost
                          seedStore
                          (RecordPayment 1%N 1%N (payBy (dec 1375 1)) 1000)
                          _ _ seedStore_keys (or_introl eq_refl) _)) _).
  - vm_compute. reflexivity.
  - discriminate.
Defined.

(** X21, on the seeded ledger: after the refused update INV-015 still
    says 125 + 12.50 = 137.50 and has no line left; raising its tax rate
    to 20 afterwards is accepted and answers with 125 + 25 = 150 over no
    line.  An update whose line overflows (2^1023 times 10) is refused
    in the same way. *)
Lemma replacing_lines_is_not_atomic_witness :
  totalsStored seedStore
  /\ snd (updateInvoice seedStore 1%N 1%N moveToNowhere)
     = Error 500 "Foreign key constraint violated"
  /\ itemsOf (fst (updateInvoice seedStore 1%N 1%N moveToNowhere)) 1%N = []
  /\ option_map (fun i => (subtotal i, total i))
       (findInvoice (fst (updateInvoice seedStore 1%N 1%N moveToNowhere)) 1%N)
     = Some (ofZ 125, dec 1375 1)
  /\ ~ totalsStored (fst (updateInvoice seedStore 1%N 1%N moveToNowhere))
  /\ (exists db' inv,
         updateInvoice (fst (updateInvoice seedStore 1%N 1%N moveToNowhere))
           1%N 1%N (changeTaxRate (ofZ 20))
         = (db', Ok 200 (inv, []))
         /\ (subtotal inv, tax inv, total inv) = (ofZ 125, ofZ 25, ofZ 150))
  /\ updateInvoice seedStore 1%N 1%N overflowing
     = (deleteItemsOf seedStore 1%N, Error 500 invalidValue).
Proof.
  split; [exact seedStore_totals|].
  destruct (findOwnedInvoice seedStore 1%N 1%N) as [existing|] eqn:F;
    [|vm_compute in F; discriminate F].
  assert (isOk (snd (updateInvoice seedStore 1%N 1%N moveToNowhere)) = false)
    as Bad by (vm_compute; reflexivity).
  destruct (proj2 (replacing_lines_is_not_atomic seedStore 1%N 1%N
                     moveToNowhere existing _ F eq_refl eq_refl) Bad)
    as ([message E] & Gone & _ & _ & Broken & Later).
  assert (message = "Foreign key constraint violated") as ->.
  { pose proof E as E'. vm_compute in E'. injection E' as E'.
    symmetry. exact E'. }
  rewrite E. cbn [fst snd].
  split; [reflexivity|]. split; [exact Gone|].
  split; [vm_compute; reflexivity|]. split.
  { intros T. specialize (Broken T).
    vm_compute in F. injection F as <-.
    apply (f_equal (fun x => @neqb Binary64 x (ofZ 0))) in Broken.
    vm_compute in Broken. discriminate Broken. }
  split; [|vm_compute; reflexivity].
  destruct (updateInvoice (deleteItemsOf seedStore 1%N) 1%N 1%N
              (changeTaxRate (ofZ 20)))
    as [db' [code [inv its] | code m]] eqn:U;
    [|vm_compute in U; discriminate U].
  destruct (Later (changeTaxRate (ofZ 20)) db' code inv its eq_refl U)
    as [-> _].
  exists db', inv. vm_compute in U. injection U as _ <- <-.
  split; reflexivity.
Defined.

(** X22, on the two accounts: the owner of the seeded account invoices
    the client of the second user, and the request is accepted. *)
Lemma createInvoice_ignores_client_owner_witness :
  option_map client_userId (findClient twoTenants 3%N) = Some 2%N
  /\ isOk (snd (createInvoice NoConstraint twoTenants 1%N
                  (oneLine 3%N "Hosting" (ofZ 1) (ofZ 10)))) = true.
Proof.
  split; [reflexivity|].
  apply (proj2 (proj1 (proj2 (proj2
           (createInvoice_ignores_client_owner NoConstraint twoTenants 1%N
              (oneLine 3%N "Hosting" (ofZ 1) (ofZ 10))
              (fun c => client_userId c)))))).
  split; [vm_compute; reflexivity|].
  split; [split; discriminate|].
  split; [vm_compute; reflexivity|]. split; [reflexivity|].
  vm_compute. discriminate.
Defined.
